(** * ai-tokens: the cost estimation core, embedded and verified

    A shallow embedding of the TypeScript sources
      - [data/pricing.ts]          (catalog, aliases, initialisation),
      - [data/pricing-fetcher.ts]  (conversion, merge and cache of the
                                    community pricing document),
      - [core/tokenizer.ts]        (token counting per vendor family),
      - [core/cost-calculator.ts]  (estimate, comparison, suggestions),
      - [ui/formatter.ts]          (the analysis, the comparison and the
                                    warning that are printed),
      - [cli/index.ts]             (the actions of [count] and [compare]).

    Conventions of the embedding.
      - A JavaScript [number] that holds a price or a cost is a binary64
        value: Rocq's primitive [float], whose operations are the IEEE 754
        ones the engine performs (one NaN, as in JavaScript).
      - A [number] that holds a length or a count of tokens is an integer,
        kept in [Z] and turned into a binary64 value by [Number_of_Z] where
        the source does arithmetic on it; the conversion is exact below
        2^53, far above the length of any JavaScript string.
      - A string is a sequence of code units below 256 (Rocq's [string]).
      - A [Record<string, T>] is a finite map over its own keys, of the
        type its declaration gives (the properties an object inherits from
        [Object.prototype] are not modelled).
      - An exception is the left summand of [throws]; [try]/[catch] is a
        match on it.
      - Module variables are the fields of a store that the functions
        reading or writing them take and return; [Date.now()] and what the
        request to the pricing source comes to are arguments.
      - [tiktoken] is an external library: its [encoding_for_model] is a
        parameter, fallible as the [try]/[catch] around it says; the
        [encode] of an encoder returns the token ids.
      - The console is the list of what was passed to [console.log] and
        to [console.error], call by call; chalk, cli-table3, the file system
        and the locale are parameters.  The characters beyond Latin-1 in the
        literals of the formatter are written in UTF-8, as the source file
        has them; such text is only concatenated and printed. *)

From Stdlib Require Import ZArith Floats Uint63 String Ascii List Lia.
From Stdlib Require Import Sorted Permutation.
From stdpp Require Import gmap strings list fin_maps pretty.

Set Warnings "-inexact-float".
Local Open Scope string_scope.

(* ===================================================================== *)
(** ** The JavaScript runtime, as far as the sources use it              *)
(* ===================================================================== *)

Module Js.

(** Exceptions: the [Error] that [calculateCost] constructs, and whatever
    an external library (tiktoken, fetch, JSON) throws. *)
Inductive exn :=
| UnknownModel (model : string)
| ExternalError (what : string).

Definition message (e : exn) : string :=
  match e with
  | UnknownModel model => "Unknown model: " ++ model
  | ExternalError what => what
  end.

Definition throws (A : Type) : Type := exn + A.
Definition ok {A} (a : A) : throws A := inr a.
Definition throw {A} (e : exn) : throws A := inl e.
Definition bind {A B} (c : throws A) (k : A -> throws B) : throws B :=
  match c with
  | inl e => inl e
  | inr a => k a
  end.
Definition try_catch {A} (c : throws A) (handler : exn -> throws A) : throws A :=
  match c with
  | inl e => handler e
  | inr a => inr a
  end.

(** [String.prototype.toLowerCase] on code units below 256: the letters
    A-Z and the Latin-1 capitals U+00C0-U+00DE (U+00D7 apart) move up by
    32, every other unit is kept. *)
Definition lower_code_unit (c : ascii) : ascii :=
  let n := N_of_ascii c in
  if ((65 <=? n) && (n <=? 90) || (192 <=? n) && (n <=? 222) && negb (n =? 215))%N
  then ascii_of_N (n + 32)
  else c.

Fixpoint toLowerCase (s : string) : string :=
  match s with
  | EmptyString => EmptyString
  | String c s' => String (lower_code_unit c) (toLowerCase s')
  end.

(** [s.includes(sub)]. *)
Fixpoint includes (s sub : string) : bool :=
  String.prefix sub s ||
  match s with
  | EmptyString => false
  | String _ s' => includes s' sub
  end.

(** [text.length]. *)
Definition length (s : string) : Z := Z.of_nat (String.length s).

(** The binary64 value of an integer [number]. *)
Definition Number_of_Z (z : Z) : float :=
  if (z <? 0)%Z
  then PrimFloat.opp (of_uint63 (Uint63.of_Z (- z)))
  else of_uint63 (Uint63.of_Z z).

(** [Math.ceil(n / d)] for integers [n] and a power of two [d]: the
    quotient is exact in binary64, so the ceiling is the integer one. *)
Definition Math_ceil_div (n d : Z) : Z := (- ((- n) / d))%Z.

(** Truthiness of an optional number: [undefined], [0], [-0] and [NaN]
    are falsy. *)
Definition truthy (o : option float) : bool :=
  match o with
  | None => false
  | Some x => negb (PrimFloat.eqb x 0) && negb (is_nan x)
  end.

(** [a || b] on optional numbers. *)
Definition or_else (o : option float) (d : float) : float :=
  match o with
  | Some x => if truthy o then x else d
  | None => d
  end.

(** [Math.min(a, b)]: NaN if either is, and -0 below +0. *)
Definition Math_min (a b : float) : float :=
  if is_nan a || is_nan b then nan
  else if PrimFloat.ltb a b then a
  else if PrimFloat.ltb b a then b
  else if get_sign a then a else b.

(** [Math.round(x)]: the integer nearest to [x], halves going up; zeros,
    infinities and NaN are kept, and a result of zero keeps the sign of
    [x]. Computed on the exact value [m * 2^e] of [x]. *)
Definition Math_round (x : float) : float :=
  match Prim2SF x with
  | S754_finite s m e =>
      if (0 <=? e)%Z then x
      else
        let k := (- e)%Z in
        let v2 := ((if s then Z.neg m else Z.pos m) * 2)%Z in
        let r := ((v2 + 2 ^ k) / 2 ^ (k + 1))%Z in
        if (r =? 0)%Z then (if s then (-0)%float else 0%float)
        else Number_of_Z r
  | _ => x
  end.

(** The exact value of a finite [x] as an integer, when it is one. *)
Definition integer_value (x : float) : option Z :=
  match Prim2SF x with
  | S754_zero _ => Some 0%Z
  | S754_finite s m e =>
      let sm := if s then Z.neg m else Z.pos m in
      if (0 <=? e)%Z then Some (sm * 2 ^ e)%Z
      else if (Z.pos m mod 2 ^ (- e) =? 0)%Z then Some (sm / 2 ^ (- e))%Z
      else None
  | _ => None
  end.

(** Decimal digits of a natural number. *)
Definition digits (n : Z) : string := pretty (Z.to_N n).

Section NumberToString.
(** [Number::toString] for the values not covered below (fractions and
    magnitudes from 1e21 on), which the engine prints with the shortest
    digits that round-trip: a parameter. *)
Variable Number_toString_general : float -> string.

(** [`${x}`] for a number [x]. *)
Definition Number_toString (x : float) : string :=
  if is_nan x then "NaN"
  else if PrimFloat.eqb x infinity then "Infinity"
  else if PrimFloat.eqb x neg_infinity then "-Infinity"
  else match integer_value x with
       | Some z =>
           if (Z.abs z <? 10 ^ 21)%Z
           then (if (z <? 0)%Z then "-" ++ digits (- z) else digits z)
           else Number_toString_general x
       | None => Number_toString_general x
       end.

(** The digits of [n] with the point [d] places from the right, padded
    with zeros to at least [d + 1] digits. *)
Definition fixed_digits (d : nat) (n : Z) : string :=
  let m := digits n in
  match d with
  | O => m
  | S _ =>
      let m := String.concat "" (replicate (S d - String.length m) "0") ++ m in
      let k := String.length m in
      String.substring 0 (k - d) m ++ "." ++ String.substring (k - d) d m
  end.

(** [x.toFixed(d)]: the nearest multiple of [10^-d] to the exact value
    of [x], the larger one on a tie. *)
Definition toFixed (d : nat) (x : float) : string :=
  match Prim2SF x with
  | S754_nan | S754_infinity _ => Number_toString x
  | S754_zero _ => fixed_digits d 0
  | S754_finite s m e =>
      if PrimFloat.leb 1e21 (abs x)
      then (if s then "-" else "") ++ Number_toString (abs x)
      else
        let n :=
          if (0 <=? e)%Z then (Z.pos m * 2 ^ e * 10 ^ Z.of_nat d)%Z
          else ((2 * Z.pos m * 10 ^ Z.of_nat d + 2 ^ (- e)) / 2 ^ (- e + 1))%Z in
        (if s then "-" else "") ++ fixed_digits d n
  end.
End NumberToString.

(** The line feed that [lines.join('\n')] puts between two lines, and
    [Array.prototype.join]. *)
Definition LF : string := String (ascii_of_nat 10) "".

Definition Array_join (l : list string) (separator : string) : string :=
  String.concat separator l.

(** [s.repeat(count)] for a count that is a natural number. *)
Definition String_repeat (s : string) (count : nat) : string :=
  String.concat "" (replicate count s).

(** The Number value of an integer: the nearest binary64 value, ties to
    even, an infinity beyond the range. *)
Definition Number_of_integer (z : Z) : float :=
  SF2Prim (binary_normalize prec emax z 0 false).

(** The white space and the line terminators below 256, which
    [parseInt] skips at the start of its argument. *)
Definition is_white_space (c : ascii) : bool :=
  let n := N_of_ascii c in
  ((9 <=? n) && (n <=? 13) || (n =? 32) || (n =? 160))%N.

Fixpoint trim_start (s : string) : string :=
  match s with
  | String c s' => if is_white_space c then trim_start s' else s
  | EmptyString => s
  end.

(** The value of a code unit as a digit: 0-9, then a-z or A-Z for 10-35. *)
Definition digit_value (c : ascii) : option Z :=
  let n := N_of_ascii c in
  if ((48 <=? n) && (n <=? 57))%N then Some (Z.of_N n - 48)%Z
  else if ((97 <=? n) && (n <=? 122))%N then Some (Z.of_N n - 87)%Z
  else if ((65 <=? n) && (n <=? 90))%N then Some (Z.of_N n - 55)%Z
  else None.

(** The integer that the longest prefix of radix-[R] digits of [s] stands
    for, after the digits read so far; [None] while no digit has been
    read. *)
Fixpoint radix_digits (R : Z) (s : string) (mathInt : option Z) : option Z :=
  match s with
  | String c s' =>
      match digit_value c with
      | Some d =>
          if (d <? R)%Z then radix_digits R s' (Some (default 0%Z mathInt * R + d)%Z)
          else mathInt
      | None => mathInt
      end
  | EmptyString => mathInt
  end.

(** [parseInt(string)], without a radix: leading white space is skipped, a
    sign is read, [0x] or [0X] selects radix 16, and the longest prefix of
    digits is the result, NaN when there is none.  (The value of more than
    20 significant digits, which the language lets an engine approximate,
    is taken exactly.) *)
Definition parseInt (string : string) : float :=
  let trimmed := trim_start string in
  let '(sign, unsigned) :=
    match trimmed with
    | String "-" rest => (true, rest)
    | String "+" rest => (false, rest)
    | _ => (false, trimmed)
    end in
  let '(R, numeral) :=
    match unsigned with
    | String "0" (String "x" rest) => (16%Z, rest)
    | String "0" (String "X" rest) => (16%Z, rest)
    | _ => (10%Z, unsigned)
    end in
  match radix_digits R numeral None with
  | None => nan
  | Some mathInt =>
      if (mathInt =? 0)%Z then (if sign then (-0)%float else 0%float)
      else Number_of_integer (if sign then (- mathInt)%Z else mathInt)
  end.

End Js.

Import Js.

Notation "'let!' x ':=' c 'in' k" := (Js.bind c (fun x => k))
  (at level 10, x name, c at level 100, k at level 200).

(* ===================================================================== *)
(** ** binary64: notions used to reason about the primitive operations   *)
(* ===================================================================== *)

Module Binary64.

(** The position of a value in the order of the binary64 numbers: its
    magnitude in units of [2^emin], with the infinities beyond every
    finite value. *)
Definition rank (x : spec_float) : Z :=
  match x with
  | S754_zero _ | S754_nan => 0
  | S754_infinity s => cond_Zopp s (2 ^ (emax - emin))
  | S754_finite s m e => cond_Zopp s (Z.pos m * 2 ^ (e - emin))
  end.

(** Anything but NaN. *)
Definition number (x : spec_float) : bool :=
  match x with S754_nan => false | _ => true end.

(** A finite or infinite value of sign [s]. *)
Definition signed (s : bool) (x : spec_float) : Prop :=
  match x with
  | S754_finite s' _ _ | S754_infinity s' => s' = s
  | _ => False
  end.

(** The mantissa [m] of exponent [e], as a multiple of [2^ez]. *)
Definition scaled (s : bool) (m : positive) (e ez : Z) : Z :=
  cond_Zopp s (Z.pos m * 2 ^ (e - ez)).

(** A zero of either sign, or NaN. *)
Definition zero_or_nan (x : spec_float) : Prop :=
  match x with
  | S754_zero _ | S754_nan => True
  | _ => False
  end.

(** A zero of either sign. *)
Definition is_zero (x : spec_float) : Prop :=
  match x with
  | S754_zero _ => True
  | _ => False
  end.

(** Not below zero: a zero, a positive value, or NaN. *)
Definition not_negative (x : spec_float) : Prop :=
  match x with
  | S754_finite true _ _ | S754_infinity true => False
  | _ => True
  end.

(** Not below zero and not the negative zero either. *)
Definition plus_signed (x : spec_float) : Prop :=
  match x with
  | S754_zero true | S754_finite true _ _ | S754_infinity true => False
  | _ => True
  end.


(** A zero or a finite value. *)
Definition bounded_value (x : spec_float) : Prop :=
  match x with
  | S754_zero _ | S754_finite _ _ _ => True
  | _ => False
  end.

(** A number that is at least zero: a zero, a positive value or the
    positive infinity. *)
Definition at_least_zero (x : spec_float) : Prop :=
  match x with
  | S754_zero _ | S754_finite false _ _ | S754_infinity false => True
  | _ => False
  end.

End Binary64.

(* ===================================================================== *)
(** ** Data model                                                        *)
(* ===================================================================== *)

(** [interface ModelPricing] (data/pricing.ts). *)
Module ModelPricing.
Record t := {
  name : string;
  provider : string;
  inputPricePerMillion : float;
  outputPricePerMillion : float;
  contextWindow : float;
  encoding : option string;
}.
End ModelPricing.

(** [interface LiteLLMModel] (data/pricing-fetcher.ts). *)
Module LiteLLMModel.
Record t := {
  input_cost_per_token : option float;
  output_cost_per_token : option float;
  max_input_tokens : option float;
  max_output_tokens : option float;
  litellm_provider : option string;
  mode : option string;
  supports_vision : option bool;
  supports_function_calling : option bool;
}.
End LiteLLMModel.

(** An entry of [modelMappings]. *)
Module Mapping.
Record t := { key : string; name : string; provider : string }.
End Mapping.

(** [interface TokenCount] (core/tokenizer.ts). *)
Module TokenCount.
Record t := { tokens : Z; characters : Z; model : string }.
End TokenCount.

(** [interface CostEstimate] (core/cost-calculator.ts). *)
Module CostEstimate.
Record t := {
  model : string;
  inputTokens : float;
  outputTokens : float;
  inputCost : float;
  outputCost : float;
  totalCost : float;
  costPerToken : float;
  pricing : ModelPricing.t;
}.
End CostEstimate.

(** An element of [CostComparison.alternatives]. *)
Module Alternative.
Record t := {
  model : string;
  estimate : CostEstimate.t;
  savings : float;
  savingsPercent : float;
}.
End Alternative.

(** [interface CostComparison]. *)
Module CostComparison.
Record t := { current : CostEstimate.t; alternatives : list Alternative.t }.
End CostComparison.

(** An element of the list [getCostOptimizations] returns. *)
Module Optimization.
Record t := { suggestion : string; potentialSavings : string }.
End Optimization.

(** An element of the argument of [calculateBatchCost]. *)
Module BatchCall.
Record t := {
  inputText : string;
  model : string;
  estimatedOutput : option float;
}.
End BatchCall.

(** What [calculateBatchCost] returns. *)
Module BatchCost.
Record t := {
  totalCost : float;
  costByModel : gmap string float;
  calls : list CostEstimate.t;
}.
End BatchCost.

(** The options of the [count] and [compare] commands, as commander hands
    them to the action: the texts of [--model] and [--output], and whether
    [--simple] was given. *)
Module Options.
Record t := { model : string; output : string; simple : bool }.
End Options.

(** What an action leaves behind: what it passed to [console.log] and to
    [console.error], call by call, and the code it passed to [process.exit],
    if it called it. *)
Module Run.
Record t := { stdout : list string; stderr : list string; exit : option Z }.
End Run.

(** The catalog: [Record<string, ModelPricing>]. *)
Abbreviation Catalog := (gmap string ModelPricing.t).

(* ===================================================================== *)
(** ** data/pricing.ts: the default table and the aliases                *)
(* ===================================================================== *)

Definition pricing_entry (name provider : string) (input output : float)
    (contextWindow : float) (encoding : option string) : ModelPricing.t :=
  {| ModelPricing.name := name;
     ModelPricing.provider := provider;
     ModelPricing.inputPricePerMillion := input;
     ModelPricing.outputPricePerMillion := output;
     ModelPricing.contextWindow := contextWindow;
     ModelPricing.encoding := encoding |}.

Definition MODEL_PRICING : Catalog :=
  list_to_map [
    ("gpt-4o", pricing_entry "GPT-4o" "OpenAI" 5.00 15.00 128000 (Some "cl100k_base"));
    ("gpt-4o-mini", pricing_entry "GPT-4o Mini" "OpenAI" 0.15 0.60 128000 (Some "cl100k_base"));
    ("gpt-4-turbo", pricing_entry "GPT-4 Turbo" "OpenAI" 10.00 30.00 128000 (Some "cl100k_base"));
    ("gpt-4", pricing_entry "GPT-4" "OpenAI" 30.00 60.00 8192 (Some "cl100k_base"));
    ("gpt-3.5-turbo", pricing_entry "GPT-3.5 Turbo" "OpenAI" 0.50 1.50 16385 (Some "cl100k_base"));
    ("claude-opus-4", pricing_entry "Claude Opus 4" "Anthropic" 15.00 75.00 200000 None);
    ("claude-sonnet-4", pricing_entry "Claude Sonnet 4" "Anthropic" 3.00 15.00 200000 None);
    ("claude-sonnet-3-5", pricing_entry "Claude 3.5 Sonnet" "Anthropic" 3.00 15.00 200000 None);
    ("claude-haiku-3-5", pricing_entry "Claude 3.5 Haiku" "Anthropic" 1.00 5.00 200000 None);
    ("claude-3-opus", pricing_entry "Claude 3 Opus" "Anthropic" 15.00 75.00 200000 None);
    ("claude-3-sonnet", pricing_entry "Claude 3 Sonnet" "Anthropic" 3.00 15.00 200000 None);
    ("claude-3-haiku", pricing_entry "Claude 3 Haiku" "Anthropic" 0.25 1.25 200000 None);
    ("gemini-2.0-flash", pricing_entry "Gemini 2.0 Flash" "Google" 0.00 0.00 1000000 None);
    ("gemini-1.5-pro", pricing_entry "Gemini 1.5 Pro" "Google" 1.25 5.00 2000000 None);
    ("gemini-1.5-flash", pricing_entry "Gemini 1.5 Flash" "Google" 0.075 0.30 1000000 None);
    ("llama-3.1-405b", pricing_entry "Llama 3.1 405B" "Meta" 5.00 15.00 128000 None);
    ("llama-3.1-70b", pricing_entry "Llama 3.1 70B" "Meta" 0.90 0.90 128000 None);
    ("llama-3.1-8b", pricing_entry "Llama 3.1 8B" "Meta" 0.20 0.20 128000 None)
  ].

Definition MODEL_ALIASES : gmap string string :=
  list_to_map [
    ("gpt4o", "gpt-4o");
    ("gpt4", "gpt-4");
    ("gpt-4-0125-preview", "gpt-4-turbo");
    ("gpt-4-1106-preview", "gpt-4-turbo");
    ("gpt35", "gpt-3.5-turbo");
    ("gpt-3.5", "gpt-3.5-turbo");
    ("opus-4", "claude-opus-4");
    ("sonnet-4", "claude-sonnet-4");
    ("haiku-3.5", "claude-haiku-3-5");
    ("opus", "claude-3-opus");
    ("sonnet", "claude-3-sonnet");
    ("haiku", "claude-3-haiku");
    ("gemini-pro", "gemini-1.5-pro");
    ("gemini-flash", "gemini-1.5-flash");
    ("gemini", "gemini-1.5-pro")
  ].

(** [getModelPricing], reading the catalog it is given (the module variable
    [runtimePricing] of the source).  An alias target is never the empty
    string, so [aliasedModel && ...] is the lookup of the target. *)
Definition getModelPricing (runtimePricing : Catalog) (model : string)
    : option ModelPricing.t :=
  let normalizedModel := toLowerCase model in
  match runtimePricing !! normalizedModel with
  | Some pricing => Some pricing
  | None =>
      match MODEL_ALIASES !! normalizedModel with
      | Some aliasedModel => runtimePricing !! aliasedModel
      | None => None
      end
  end.



(* ===================================================================== *)
(** ** data/pricing-fetcher.ts                                           *)
(* ===================================================================== *)

Definition mapping (key name provider : string) : Mapping.t :=
  {| Mapping.key := key; Mapping.name := name; Mapping.provider := provider |}.

(** The table of LiteLLM keys the conversion knows, with the catalog key
    each one is stored under. *)
Definition modelMappings : gmap string Mapping.t :=
  list_to_map [
    ("gpt-5", mapping "gpt-5" "GPT-5" "OpenAI");
    ("gpt-5-mini", mapping "gpt-5-mini" "GPT-5 Mini" "OpenAI");
    ("gpt-5-nano", mapping "gpt-5-nano" "GPT-5 Nano" "OpenAI");
    ("gpt-5-pro", mapping "gpt-5-pro" "GPT-5 Pro" "OpenAI");
    ("gpt-4o", mapping "gpt-4o" "GPT-4o" "OpenAI");
    ("gpt-4o-mini", mapping "gpt-4o-mini" "GPT-4o Mini" "OpenAI");
    ("gpt-4-turbo", mapping "gpt-4-turbo" "GPT-4 Turbo" "OpenAI");
    ("gpt-4", mapping "gpt-4" "GPT-4" "OpenAI");
    ("gpt-3.5-turbo", mapping "gpt-3.5-turbo" "GPT-3.5 Turbo" "OpenAI");
    ("o1-preview", mapping "o1-preview" "O1 Preview" "OpenAI");
    ("o1-mini", mapping "o1-mini" "O1 Mini" "OpenAI");
    ("claude-sonnet-4-5", mapping "claude-sonnet-4-5" "Claude Sonnet 4.5" "Anthropic");
    ("claude-sonnet-4-5-20250929", mapping "claude-sonnet-4-5" "Claude Sonnet 4.5" "Anthropic");
    ("claude-opus-4-20250514", mapping "claude-opus-4" "Claude Opus 4" "Anthropic");
    ("claude-sonnet-4-20250514", mapping "claude-sonnet-4" "Claude Sonnet 4" "Anthropic");
    ("claude-3-5-sonnet-20241022", mapping "claude-sonnet-3-5" "Claude 3.5 Sonnet" "Anthropic");
    ("claude-3-5-haiku-20241022", mapping "claude-haiku-3-5" "Claude 3.5 Haiku" "Anthropic");
    ("claude-3-opus-20240229", mapping "claude-3-opus" "Claude 3 Opus" "Anthropic");
    ("claude-3-sonnet-20240229", mapping "claude-3-sonnet" "Claude 3 Sonnet" "Anthropic");
    ("claude-3-haiku-20240307", mapping "claude-3-haiku" "Claude 3 Haiku" "Anthropic");
    ("gemini-2.0-flash-exp", mapping "gemini-2.0-flash" "Gemini 2.0 Flash" "Google");
    ("gemini-1.5-pro", mapping "gemini-1.5-pro" "Gemini 1.5 Pro" "Google");
    ("gemini-1.5-flash", mapping "gemini-1.5-flash" "Gemini 1.5 Flash" "Google");
    ("meta-llama/llama-3.1-405b-instruct", mapping "llama-3.1-405b" "Llama 3.1 405B" "Meta");
    ("meta-llama/llama-3.1-70b-instruct", mapping "llama-3.1-70b" "Llama 3.1 70B" "Meta");
    ("meta-llama/llama-3.1-8b-instruct", mapping "llama-3.1-8b" "Llama 3.1 8B" "Meta");
    ("deepseek-chat", mapping "deepseek-chat" "DeepSeek Chat" "DeepSeek");
    ("deepseek-reasoner", mapping "deepseek-reasoner" "DeepSeek Reasoner" "DeepSeek")
  ].

(** The record the loop body stores for an entry that passed both tests. *)
Definition converted (m : Mapping.t) (model : LiteLLMModel.t) : ModelPricing.t :=
  {| ModelPricing.name := Mapping.name m;
     ModelPricing.provider := Mapping.provider m;
     ModelPricing.inputPricePerMillion :=
       (default nan (LiteLLMModel.input_cost_per_token model) * 1000000)%float;
     ModelPricing.outputPricePerMillion :=
       (default nan (LiteLLMModel.output_cost_per_token model) * 1000000)%float;
     ModelPricing.contextWindow :=
       or_else (LiteLLMModel.max_input_tokens model) 128000;
     ModelPricing.encoding :=
       if String.eqb (Mapping.provider m) "OpenAI" then Some "cl100k_base" else None |}.

(** One turn of the loop of [convertLiteLLMPricing]: the two [continue]s,
    then the assignment [pricing[mapping.key] = ...]. *)
Definition convert_step (pricing : Catalog) (entry : string * LiteLLMModel.t) : Catalog :=
  let '(litellmKey, model) := entry in
  if negb (truthy (LiteLLMModel.input_cost_per_token model))
     || negb (truthy (LiteLLMModel.output_cost_per_token model))
  then pricing
  else
    match modelMappings !! litellmKey with
    | None => pricing
    | Some m => <[Mapping.key m := converted m model]> pricing
    end.

(** [convertLiteLLMPricing], over [Object.entries(litellmData)]. *)
Definition convertLiteLLMPricing (litellmData : list (string * LiteLLMModel.t)) : Catalog :=
  foldl convert_step ∅ litellmData.

(** What the request of [fetchCommunityPricing] comes to: [fetch] rejects,
    the response is not [ok], [response.json()] rejects (or yields a value
    on which the conversion throws), or a document arrives. *)
Inductive FetchOutcome :=
| FetchRejected (what : string)
| ResponseNotOk (statusText : string)
| JsonRejected (what : string)
| Document (data : list (string * LiteLLMModel.t)).

(** The [try] block of [fetchCommunityPricing]. *)
Definition fetch_and_convert (outcome : FetchOutcome) : throws Catalog :=
  match outcome with
  | FetchRejected what => throw (ExternalError what)
  | ResponseNotOk statusText =>
      throw (ExternalError ("Failed to fetch pricing: " ++ statusText))
  | JsonRejected what => throw (ExternalError what)
  | Document data => ok (convertLiteLLMPricing data)
  end.

(** [fetchCommunityPricing]: the [catch] returns the empty record. *)
Definition fetchCommunityPricing (outcome : FetchOutcome) : throws Catalog :=
  try_catch (fetch_and_convert outcome) (fun _ => ok ∅).

(** [mergePricing]: the spread [{...fallbackPricing, ...communityPricing}]. *)
Definition mergePricing (communityPricing fallbackPricing : Catalog) : Catalog :=
  communityPricing ∪ fallbackPricing.

Definition CACHE_DURATION : Z := 24 * 60 * 60 * 1000.

(** The module variables of pricing-fetcher.ts and pricing.ts. *)
Module Store.
Record t := {
  cachedPricing : option Catalog;
  cacheTimestamp : Z;
  runtimePricing : Catalog;
  pricingInitialized : bool;
}.
End Store.

(** The store when the modules have been loaded. *)
Definition initial_store : Store.t :=
  {| Store.cachedPricing := None;
     Store.cacheTimestamp := 0;
     Store.runtimePricing := MODEL_PRICING;
     Store.pricingInitialized := false |}.

(** [getCachedPricing]; [now] is [Date.now()], [outcome] what a request
    made at that moment comes to. *)
Definition getCachedPricing (fallbackPricing : Catalog) (now : Z)
    (outcome : FetchOutcome) (st : Store.t) : throws (Catalog * Store.t) :=
  let fetch_fresh :=
    try_catch
      (let! communityPricing := fetchCommunityPricing outcome in
       let merged := mergePricing communityPricing fallbackPricing in
       ok (merged, {| Store.cachedPricing := Some merged;
                      Store.cacheTimestamp := now;
                      Store.runtimePricing := Store.runtimePricing st;
                      Store.pricingInitialized := Store.pricingInitialized st |}))
      (fun _ => ok (fallbackPricing, st)) in
  match Store.cachedPricing st with
  | Some cached =>
      if (now - Store.cacheTimestamp st <? CACHE_DURATION)%Z then ok (cached, st)
      else fetch_fresh
  | None => fetch_fresh
  end.

(** [initializePricing] (data/pricing.ts). *)
Definition initializePricing (now : Z) (outcome : FetchOutcome) (st : Store.t)
    : throws Store.t :=
  if Store.pricingInitialized st then ok st
  else
    try_catch
      (let! r := getCachedPricing MODEL_PRICING now outcome st in
       ok {| Store.cachedPricing := Store.cachedPricing (snd r);
             Store.cacheTimestamp := Store.cacheTimestamp (snd r);
             Store.runtimePricing := fst r;
             Store.pricingInitialized := true |})
      (fun _ => ok {| Store.cachedPricing := Store.cachedPricing st;
                      Store.cacheTimestamp := Store.cacheTimestamp st;
                      Store.runtimePricing := MODEL_PRICING;
                      Store.pricingInitialized := Store.pricingInitialized st |}).

(* ===================================================================== *)
(** ** core/tokenizer.ts                                                 *)
(* ===================================================================== *)

(** A tiktoken encoder: [encode(text)] yields the token ids. *)
Record Tiktoken := { encode : string -> list N }.

Section Core.

(** tiktoken's [encoding_for_model]; [None] when it throws. *)
Variable encoding_for_model : string -> option Tiktoken.

(** See [Js.Number_toString]. *)
Variable Number_toString_general : float -> string.

(** The module variable [runtimePricing], as the calls below read it. *)
Variable runtimePricing : Catalog.

Definition encoder (name : string) : throws Tiktoken :=
  match encoding_for_model name with
  | Some enc => ok enc
  | None => throw (ExternalError name)
  end.

(** [countOpenAITokens]; [pricing?.encoding || 'cl100k_base'] falls back
    on a missing record, a missing field and the empty string. *)
Definition countOpenAITokens (text model : string) : throws TokenCount.t :=
  let pricing := getModelPricing runtimePricing model in
  let encoding :=
    match pricing ≫= ModelPricing.encoding with
    | Some e => if String.eqb e "" then "cl100k_base" else e
    | None => "cl100k_base"
    end in
  let! enc := try_catch (encoder model) (fun _ => encoder encoding) in
  let tokens := encode enc text in
  ok {| TokenCount.tokens := Z.of_nat (List.length tokens);
        TokenCount.characters := Js.length text;
        TokenCount.model := model |}.

(** [countClaudeTokens]. *)
Definition countClaudeTokens (text model : string) : throws TokenCount.t :=
  let estimatedTokens := Math_ceil_div (Js.length text) 4 in
  ok {| TokenCount.tokens := estimatedTokens;
        TokenCount.characters := Js.length text;
        TokenCount.model := model |}.

(** [countGeminiTokens]. *)
Definition countGeminiTokens (text model : string) : throws TokenCount.t :=
  let estimatedTokens := Math_ceil_div (Js.length text) 4 in
  ok {| TokenCount.tokens := estimatedTokens;
        TokenCount.characters := Js.length text;
        TokenCount.model := model |}.

(** [countLlamaTokens]. *)
Definition countLlamaTokens (text model : string) : throws TokenCount.t :=
  let! enc := encoder "cl100k_base" in
  let tokens := encode enc text in
  ok {| TokenCount.tokens := Z.of_nat (List.length tokens);
        TokenCount.characters := Js.length text;
        TokenCount.model := model |}.

(** [countTokens]. *)
Definition countTokens (text model : string) : throws TokenCount.t :=
  let normalizedModel := toLowerCase model in
  if includes normalizedModel "gpt" then countOpenAITokens text model
  else if includes normalizedModel "claude" then countClaudeTokens text model
  else if includes normalizedModel "gemini" then countGeminiTokens text model
  else if includes normalizedModel "llama" then countLlamaTokens text model
  else countOpenAITokens text model.

(* =================================================================== *)
(** ** core/cost-calculator.ts                                         *)
(* =================================================================== *)

(** [calculateCost]. *)
Definition calculateCost (inputText model : string) (estimatedOutputTokens : float)
    : throws CostEstimate.t :=
  match getModelPricing runtimePricing model with
  | None => throw (UnknownModel model)
  | Some pricing =>
      let! tokenCount := countTokens inputText model in
      let inputTokens := Number_of_Z (TokenCount.tokens tokenCount) in
      let outputTokens := estimatedOutputTokens in
      let inputCost :=
        ((inputTokens / 1000000) * ModelPricing.inputPricePerMillion pricing)%float in
      let outputCost :=
        ((outputTokens / 1000000) * ModelPricing.outputPricePerMillion pricing)%float in
      let totalCost := (inputCost + outputCost)%float in
      let costPerToken := (totalCost / (inputTokens + outputTokens))%float in
      ok {| CostEstimate.model := model;
            CostEstimate.inputTokens := inputTokens;
            CostEstimate.outputTokens := outputTokens;
            CostEstimate.inputCost := inputCost;
            CostEstimate.outputCost := outputCost;
            CostEstimate.totalCost := totalCost;
            CostEstimate.costPerToken := costPerToken;
            CostEstimate.pricing := pricing |}
  end.

(** [Array.prototype.sort(comparefn)].  The sort of the language is stable
    and reads [comparefn(a, b) > 0] as "[a] goes behind [b]", a NaN as zero;
    for a consistent comparator that fixes the result, computed here by
    insertion from the right end.  (For an inconsistent one, which
    [by_savings] is only with a NaN among the savings, the language leaves
    the order to the engine, and the insertion is one such order.) *)
Section Sort.
Context {A : Type} (comparefn : A -> A -> float).

Fixpoint sort_insert (a : A) (l : list A) : list A :=
  match l with
  | [] => [a]
  | b :: l' =>
      if PrimFloat.ltb 0 (comparefn a b) then b :: sort_insert a l'
      else a :: l
  end.

Definition Array_sort (l : list A) : list A := foldr sort_insert [] l.
End Sort.

(** The callback of [.map] in [compareCosts]: [null] is [None]. *)
Definition compare_one (inputText : string) (current : CostEstimate.t)
    (estimatedOutputTokens : float) (model : string) : option Alternative.t :=
  match calculateCost inputText model estimatedOutputTokens with
  | inr estimate =>
      let savings := (CostEstimate.totalCost current - CostEstimate.totalCost estimate)%float in
      let savingsPercent := ((savings / CostEstimate.totalCost current) * 100)%float in
      Some {| Alternative.model := model;
              Alternative.estimate := estimate;
              Alternative.savings := savings;
              Alternative.savingsPercent := savingsPercent |}
  | inl _ => None
  end.

(** The comparator of [.sort] in [compareCosts]. *)
Definition by_savings (a b : Alternative.t) : float :=
  (Alternative.savings b - Alternative.savings a)%float.

(** [.filter((alt) => alt !== null)]. *)
Definition non_null {A} (l : list (option A)) : list A := omap id l.

(** [compareCosts]. *)
Definition compareCosts (inputText currentModel : string)
    (alternativeModels : list string) (estimatedOutputTokens : float)
    : throws CostComparison.t :=
  let! current := calculateCost inputText currentModel estimatedOutputTokens in
  let alternatives :=
    Array_sort by_savings
      (non_null
         (map (compare_one inputText current estimatedOutputTokens) alternativeModels)) in
  ok {| CostComparison.current := current;
        CostComparison.alternatives := alternatives |}.

Definition optimization (suggestion potentialSavings : string) : Optimization.t :=
  {| Optimization.suggestion := suggestion;
     Optimization.potentialSavings := potentialSavings |}.

Definition toFixed := Js.toFixed Number_toString_general.
Definition Number_toString := Js.Number_toString Number_toString_general.

(** [optimizations.push(x)]. *)
Definition push {A} (optimizations : list A) (x : A) : list A :=
  (optimizations ++ [x])%list.

(** [getCostOptimizations]. *)
Definition getCostOptimizations (estimate : CostEstimate.t)
    : throws (list Optimization.t) :=
  let optimizations := [] in
  let! optimizations :=
    if includes (CostEstimate.model estimate) "gpt-4o"
       && negb (includes (CostEstimate.model estimate) "mini")
    then
      let! miniEstimate :=
        calculateCost "" "gpt-4o-mini" (CostEstimate.outputTokens estimate) in
      let savings :=
        (CostEstimate.totalCost estimate
         - (CostEstimate.inputTokens estimate / 1000000) * 0.15
         - (CostEstimate.outputTokens estimate / 1000000) * 0.60)%float in
      ok (push optimizations
            (optimization "Switch to gpt-4o-mini"
               ("Save ~"
                ++ toFixed 0 ((savings / CostEstimate.totalCost estimate) * 100)%float
                ++ "% ($" ++ toFixed 4 savings ++ ")")))
    else ok optimizations in
  let optimizations :=
    if includes (CostEstimate.model estimate) "claude-opus"
    then push optimizations
           (optimization "Switch to claude-sonnet-4" "Save ~80% on most tasks")
    else optimizations in
  let optimizations :=
    if includes (CostEstimate.model estimate) "gpt-4-turbo"
       || String.eqb (CostEstimate.model estimate) "gpt-4"
    then push optimizations
           (optimization "Switch to gpt-4o" "Save 50%+ with better performance")
    else optimizations in
  let optimizations :=
    if PrimFloat.ltb 1000 (CostEstimate.inputTokens estimate)
    then
      let reduction := Math_min 1000 (CostEstimate.inputTokens estimate * 0.3)%float in
      let potentialSaving :=
        ((reduction / 1000000)
         * ModelPricing.inputPricePerMillion (CostEstimate.pricing estimate))%float in
      push optimizations
        (optimization
           ("Reduce context by " ++ Number_toString (Math_round reduction) ++ " tokens")
           ("Save $" ++ toFixed 4 potentialSaving))
    else optimizations in
  let optimizations :=
    if PrimFloat.ltb 1000 (CostEstimate.outputTokens estimate)
    then
      let reduction := Math_min 500 (CostEstimate.outputTokens estimate * 0.2)%float in
      let potentialSaving :=
        ((reduction / 1000000)
         * ModelPricing.outputPricePerMillion (CostEstimate.pricing estimate))%float in
      push optimizations
        (optimization
           ("Request shorter responses (reduce by "
            ++ Number_toString (Math_round reduction) ++ " tokens)")
           ("Save $" ++ toFixed 4 potentialSaving))
    else optimizations in
  ok optimizations.

(** [formatCost]. *)
Definition formatCost (cost : float) : string :=
  if PrimFloat.ltb cost 0.001 then "$" ++ toFixed 4 (cost * 1000)%float ++ "m"
  else if PrimFloat.ltb cost 0.01 then "$" ++ toFixed 4 cost
  else if PrimFloat.ltb cost 1 then "$" ++ toFixed 3 cost
  else "$" ++ toFixed 2 cost.

(** [Array.prototype.map] with a callback that can throw: the elements are
    visited from the first on, and the first exception ends the visit. *)
Fixpoint Array_map {A B} (callbackfn : A -> throws B) (l : list A) : throws (list B) :=
  match l with
  | [] => ok []
  | a :: l' =>
      let! b := callbackfn a in
      let! bs := Array_map callbackfn l' in
      ok (b :: bs)
  end.

(** The callback of [.map] in [calculateBatchCost]; an [estimatedOutput]
    that is [undefined] takes the default of the parameter. *)
Definition estimate_call (call : BatchCall.t) : throws CostEstimate.t :=
  calculateCost (BatchCall.inputText call) (BatchCall.model call)
    (default 500%float (BatchCall.estimatedOutput call)).

(** The callback of [.reduce]. *)
Definition add_total (sum : float) (est : CostEstimate.t) : float :=
  (sum + CostEstimate.totalCost est)%float.

(** The callback of [.forEach]: the entry of the model is set to 0 when it
    is missing or falsy, then the cost is added to it. *)
Definition add_to_model (costByModel : gmap string float) (est : CostEstimate.t)
    : gmap string float :=
  let costByModel :=
    if negb (truthy (costByModel !! CostEstimate.model est))
    then <[CostEstimate.model est := 0%float]> costByModel
    else costByModel in
  <[CostEstimate.model est :=
      (default nan (costByModel !! CostEstimate.model est)
       + CostEstimate.totalCost est)%float]> costByModel.

(** [calculateBatchCost]. *)
Definition calculateBatchCost (calls : list BatchCall.t) : throws BatchCost.t :=
  let! estimates := Array_map estimate_call calls in
  let totalCost := foldl add_total 0%float estimates in
  let costByModel := foldl add_to_model ∅ estimates in
  ok {| BatchCost.totalCost := totalCost;
        BatchCost.costByModel := costByModel;
        BatchCost.calls := estimates |}.

(* =================================================================== *)
(** ** cli/index.ts: the [compare] command                             *)
(* =================================================================== *)

(** The candidates of the command: the fixed list without the model the
    user named ([m !== options.model]). *)
Definition compare_candidates (model : string) : list string :=
  filter (fun m => m ≠ model)
    ["gpt-4o-mini"; "gpt-3.5-turbo"; "claude-sonnet-4"; "claude-haiku-3-5";
     "gemini-1.5-flash"].

(** The call the action of [compare] makes. *)
Definition compare_command (text model : string) (outputTokens : float)
    : throws CostComparison.t :=
  compareCosts text model (compare_candidates model) outputTokens.

(* =================================================================== *)
(** ** ui/formatter.ts                                                 *)
(* =================================================================== *)

(** chalk: [chalk [s1; s2] text] is [chalk.s1.s2(text)]. *)
Variable chalk : list string -> string -> string.

(** cli-table3: the text [toString()] gives for a table made with the
    options of [formatComparison] and the given head, after the given rows
    have been pushed. *)
Variable Table_toString : list string -> list (list string) -> string.

(** [Number.prototype.toLocaleString], which depends on the locale. *)
Variable toLocaleString : float -> string.

(** [formatAnalysis]. *)
Definition formatAnalysis (estimate : CostEstimate.t) : throws string :=
  let lines := [] in
  let lines := push lines "" in
  let lines := push lines (chalk ["cyan"] (String_repeat "━" 70)) in
  let lines := push lines (chalk ["bold"; "cyan"] "           TOKEN ANALYSIS           ") in
  let lines := push lines (chalk ["cyan"] (String_repeat "━" 70)) in
  let lines := push lines "" in
  let lines :=
    push lines
      (chalk ["bold"]
         ("Model: "
          ++ chalk ["cyan"] (ModelPricing.name (CostEstimate.pricing estimate)))) in
  let lines :=
    push lines
      (chalk ["gray"]
         ("Provider: " ++ ModelPricing.provider (CostEstimate.pricing estimate))) in
  let lines := push lines "" in
  let lines :=
    push lines
      (chalk ["bold"] "Input Tokens:    "
       ++ chalk ["yellow"]
            (toLocaleString (CostEstimate.inputTokens estimate) ++ " tokens")) in
  let lines :=
    push lines
      (chalk ["gray"] "Est. Cost:       "
       ++ chalk ["green"] (formatCost (CostEstimate.inputCost estimate))) in
  let lines := push lines "" in
  let lines :=
    push lines
      (chalk ["bold"] "Output (est):    "
       ++ chalk ["yellow"]
            (toLocaleString (CostEstimate.outputTokens estimate) ++ " tokens")) in
  let lines :=
    push lines
      (chalk ["gray"] "Est. Cost:       "
       ++ chalk ["green"] (formatCost (CostEstimate.outputCost estimate))) in
  let lines := push lines "" in
  let costColor :=
    if PrimFloat.ltb 1 (CostEstimate.totalCost estimate) then "red"
    else if PrimFloat.ltb 0.1 (CostEstimate.totalCost estimate) then "yellow"
    else "green" in
  let lines :=
    push lines
      (chalk ["bold"] "Total Cost:      "
       ++ chalk [costColor; "bold"] (formatCost (CostEstimate.totalCost estimate))) in
  let lines := push lines "" in
  let! optimizations := getCostOptimizations estimate in
  let lines :=
    if (0 <? List.length optimizations)%nat
    then
      let lines := push lines (chalk ["bold"; "cyan"] "💡 Cost Optimization:") in
      let lines :=
        foldl
          (fun lines opt =>
             push lines
               (chalk ["gray"] "  • " ++ Optimization.suggestion opt
                ++ chalk ["green"] (" → " ++ Optimization.potentialSavings opt)))
          lines optimizations in
      push lines ""
    else lines in
  let lines := push lines (chalk ["cyan"] (String_repeat "━" 70)) in
  let lines := push lines "" in
  ok (Array_join lines LF).

(** The row of the table of [formatComparison] for an alternative. *)
Definition comparison_row (comparison : CostComparison.t) (alt : Alternative.t)
    : list string :=
  let savingsColor := if PrimFloat.ltb 0 (Alternative.savings alt) then "green" else "red" in
  let costColor :=
    if PrimFloat.ltb (CostEstimate.totalCost (Alternative.estimate alt))
         (CostEstimate.totalCost (CostComparison.current comparison))
    then "green" else "yellow" in
  [ModelPricing.name (CostEstimate.pricing (Alternative.estimate alt));
   chalk [costColor] (formatCost (CostEstimate.totalCost (Alternative.estimate alt)));
   chalk [savingsColor]
     (if PrimFloat.ltb 0 (Alternative.savings alt)
      then "+" ++ formatCost (Alternative.savings alt)
      else formatCost (Alternative.savings alt));
   chalk [savingsColor]
     (if PrimFloat.ltb 0 (Alternative.savingsPercent alt)
      then toFixed 0 (Alternative.savingsPercent alt) ++ "%"
      else "-" ++ toFixed 0 (abs (Alternative.savingsPercent alt)) ++ "%")].

(** [formatComparison]. *)
Definition formatComparison (comparison : CostComparison.t) : string :=
  let lines := [] in
  let lines := push lines "" in
  let lines := push lines (chalk ["cyan"] (String_repeat "━" 70)) in
  let lines :=
    push lines (chalk ["bold"; "cyan"] "           MODEL COST COMPARISON           ") in
  let lines := push lines (chalk ["cyan"] (String_repeat "━" 70)) in
  let lines := push lines "" in
  let lines :=
    push lines
      (chalk ["bold"]
         ("Current Model: "
          ++ chalk ["cyan"]
               (ModelPricing.name
                  (CostEstimate.pricing (CostComparison.current comparison))))) in
  let lines :=
    push lines
      (chalk ["bold"]
         ("Total Cost: "
          ++ chalk ["yellow"]
               (formatCost (CostEstimate.totalCost (CostComparison.current comparison))))) in
  let lines := push lines "" in
  let head :=
    [chalk ["bold"] "Model"; chalk ["bold"] "Cost"; chalk ["bold"] "Savings";
     chalk ["bold"] "%"] in
  let table := map (comparison_row comparison) (CostComparison.alternatives comparison) in
  let lines := push lines (Table_toString head table) in
  let lines := push lines "" in
  let lines :=
    match CostComparison.alternatives comparison with
    | best :: _ =>
        if PrimFloat.ltb 0 (Alternative.savings best)
        then
          let lines :=
            push lines
              (chalk ["bold"; "green"] ("🎯 Best Alternative: " ++ Alternative.model best)) in
          let lines :=
            push lines
              (chalk ["green"]
                 ("   Save " ++ formatCost (Alternative.savings best) ++ " ("
                  ++ toFixed 0 (Alternative.savingsPercent best) ++ "%)")) in
          push lines ""
        else lines
    | [] => lines
    end in
  let lines := push lines (chalk ["cyan"] (String_repeat "━" 70)) in
  let lines := push lines "" in
  Array_join lines LF.

(** [formatWarning]. *)
Definition formatWarning (cost threshold : float) : string :=
  if PrimFloat.ltb cost threshold then ""
  else
    let lines := [] in
    let lines := push lines "" in
    let lines := push lines (chalk ["bold"; "red"] "⚠️  WARNING: HIGH COST DETECTED") in
    let lines :=
      push lines (chalk ["yellow"] ("This prompt will cost " ++ formatCost cost)) in
    let lines := push lines (chalk ["gray"] "Consider:") in
    let lines := push lines (chalk ["gray"] "  • Using a cheaper model") in
    let lines := push lines (chalk ["gray"] "  • Reducing input context") in
    let lines := push lines (chalk ["gray"] "  • Limiting output length") in
    let lines := push lines "" in
    Array_join lines LF.

(* =================================================================== *)
(** ** cli/index.ts: the actions of [count] and [compare]              *)
(* =================================================================== *)

(** [readFileSync(path, 'utf-8')]; [None] when it throws. *)
Variable readFileSync : string -> option string.

(** The end of an action: by the end of its [try] block, or through its
    [catch], which prints the message of the error and exits with 1. *)
Definition completed (stdout : list string) : Run.t :=
  {| Run.stdout := stdout; Run.stderr := []; Run.exit := None |}.

Definition failed (stdout : list string) (error : exn) : Run.t :=
  {| Run.stdout := stdout;
     Run.stderr := ["Error: " ++ message error];
     Run.exit := Some 1%Z |}.

(** The text an action works on: the content of the file [input] names,
    or [input] itself when no such file can be read. *)
Definition input_text (input : string) : string :=
  match readFileSync input with
  | Some content => content
  | None => input
  end.

(** The action of [count]. *)
Definition count_action (input : string) (options : Options.t) : Run.t :=
  let text := input_text input in
  let outputTokens := parseInt (Options.output options) in
  match calculateCost text (Options.model options) outputTokens with
  | inl error => failed [] error
  | inr estimate =>
      if Options.simple options
      then
        completed
          [Number_toString (CostEstimate.inputTokens estimate) ++ " tokens | $"
           ++ toFixed 4 (CostEstimate.totalCost estimate) ++ " | "
           ++ Options.model options]
      else
        let stdout := [formatWarning (CostEstimate.totalCost estimate) 1] in
        match formatAnalysis estimate with
        | inl error => failed stdout error
        | inr analysis => completed (push stdout analysis)
        end
  end.

(** The action of [compare]. *)
Definition compare_action (input : string) (options : Options.t) : Run.t :=
  let text := input_text input in
  let outputTokens := parseInt (Options.output options) in
  match compare_command text (Options.model options) outputTokens with
  | inl error => failed [] error
  | inr comparison => completed [formatComparison comparison]
  end.

End Core.

(* ===================================================================== *)
(** ** Vocabulary of the statements                                      *)
(* ===================================================================== *)

(** The model keys [countTokens] counts by length: no [gpt] in the
    lowercased key, and [claude] or [gemini] in it. *)
Definition counted_by_length (model : string) : bool :=
  let key := toLowerCase model in
  negb (includes key "gpt") && (includes key "claude" || includes key "gemini").

(** The count of the heuristic for a text. *)
Definition length_heuristic (text model : string) : TokenCount.t :=
  {| TokenCount.tokens := Math_ceil_div (Js.length text) 4;
     TokenCount.characters := Js.length text;
     TokenCount.model := model |}.

(** The result of counting [text] with the tiktoken encoder named [name]:
    the number of its tokens, or what tiktoken throws when it has no such
    encoder. *)
Definition tiktoken_count (encoding_for_model : string -> option Tiktoken)
    (name text model : string) : throws TokenCount.t :=
  match encoding_for_model name with
  | Some enc =>
      ok {| TokenCount.tokens := Z.of_nat (List.length (encode enc text));
            TokenCount.characters := Js.length text;
            TokenCount.model := model |}
  | None => throw (ExternalError name)
  end.

(** The estimate [calculateCost] builds from a record and a count. *)
Definition estimate_of (model : string) (pricing : ModelPricing.t)
    (inputTokens outputTokens : float) : CostEstimate.t :=
  let inputCost := ((inputTokens / 1000000) * ModelPricing.inputPricePerMillion pricing)%float in
  let outputCost := ((outputTokens / 1000000) * ModelPricing.outputPricePerMillion pricing)%float in
  {| CostEstimate.model := model;
     CostEstimate.inputTokens := inputTokens;
     CostEstimate.outputTokens := outputTokens;
     CostEstimate.inputCost := inputCost;
     CostEstimate.outputCost := outputCost;
     CostEstimate.totalCost := (inputCost + outputCost)%float;
     CostEstimate.costPerToken := ((inputCost + outputCost) / (inputTokens + outputTokens))%float;
     CostEstimate.pricing := pricing |}.

(** No alternative is followed by one that saves more. *)
Definition descending (a b : Alternative.t) : Prop :=
  PrimFloat.ltb (Alternative.savings a) (Alternative.savings b) = false.

(** The savings of [b] are at most those of [a]. *)
Definition at_least (a b : Alternative.t) : Prop :=
  PrimFloat.leb (Alternative.savings b) (Alternative.savings a) = true.


(** Two tiktoken stand-ins for the examples: one that knows no encoder, and
    one that knows [cl100k_base] only and makes a token of every code
    unit. *)
Definition no_encoder : string -> option Tiktoken := fun _ => None.

Definition unit_encoder : string -> option Tiktoken :=
  fun name =>
    if String.eqb name "cl100k_base"
    then Some {| encode := fun text => replicate (String.length text) 0%N |}
    else None.

(** [Number::toString] outside the modelled fragment, for the examples. *)
Definition no_general_digits : float -> string := fun _ => "".

(** A text of [n] code units. *)
Definition text_of_length (n : nat) : string := String.concat "" (replicate n "a").

(** The test of [getCostOptimizations] for the first suggestion: a key
    with [gpt-4o] and without [mini] in it. *)
Definition premium (estimate : CostEstimate.t) : bool :=
  includes (CostEstimate.model estimate) "gpt-4o"
  && negb (includes (CostEstimate.model estimate) "mini").

(** The suggestions of [getCostOptimizations], block by block: what each
    of its five tests adds to the list. *)
Section Blocks.
Variable digits_general : float -> string.
Variable estimate : CostEstimate.t.

Definition suggest_mini : list Optimization.t :=
  if premium estimate then
    let savings :=
      (CostEstimate.totalCost estimate
       - (CostEstimate.inputTokens estimate / 1000000) * 0.15
       - (CostEstimate.outputTokens estimate / 1000000) * 0.60)%float in
    [optimization "Switch to gpt-4o-mini"
       ("Save ~"
        ++ Js.toFixed digits_general 0
             ((savings / CostEstimate.totalCost estimate) * 100)%float
        ++ "% ($" ++ Js.toFixed digits_general 4 savings ++ ")")]
  else [].

Definition suggest_sonnet : list Optimization.t :=
  if includes (CostEstimate.model estimate) "claude-opus"
  then [optimization "Switch to claude-sonnet-4" "Save ~80% on most tasks"]
  else [].

Definition suggest_gpt4o : list Optimization.t :=
  if includes (CostEstimate.model estimate) "gpt-4-turbo"
     || String.eqb (CostEstimate.model estimate) "gpt-4"
  then [optimization "Switch to gpt-4o" "Save 50%+ with better performance"]
  else [].

(** The suggestion to trim the input by [reduction] tokens. *)
Definition trim_input (reduction : float) : Optimization.t :=
  optimization
    ("Reduce context by "
     ++ Js.Number_toString digits_general (Math_round reduction) ++ " tokens")
    ("Save $"
     ++ Js.toFixed digits_general 4
          (reduction / 1000000
           * ModelPricing.inputPricePerMillion (CostEstimate.pricing estimate))%float).

Definition suggest_context : list Optimization.t :=
  if PrimFloat.ltb 1000 (CostEstimate.inputTokens estimate)
  then [trim_input (Math_min 1000 (CostEstimate.inputTokens estimate * 0.3)%float)]
  else [].

(** The suggestion to trim the output by [reduction] tokens. *)
Definition trim_output (reduction : float) : Optimization.t :=
  optimization
    ("Request shorter responses (reduce by "
     ++ Js.Number_toString digits_general (Math_round reduction) ++ " tokens)")
    ("Save $"
     ++ Js.toFixed digits_general 4
          (reduction / 1000000
           * ModelPricing.outputPricePerMillion (CostEstimate.pricing estimate))%float).

Definition suggest_output : list Optimization.t :=
  if PrimFloat.ltb 1000 (CostEstimate.outputTokens estimate)
  then [trim_output (Math_min 500 (CostEstimate.outputTokens estimate * 0.2)%float)]
  else [].

End Blocks.

(** A document entry the conversion keeps: a key of [modelMappings], and
    both costs present and truthy. *)
Definition kept (entry : string * LiteLLMModel.t) : bool :=
  bool_decide (is_Some (modelMappings !! fst entry))
  && truthy (LiteLLMModel.input_cost_per_token (snd entry))
  && truthy (LiteLLMModel.output_cost_per_token (snd entry)).

(** What a failed request and a document leave in the catalog. *)
Definition fetched (outcome : FetchOutcome) : Catalog :=
  match outcome with
  | Document data => convertLiteLLMPricing data
  | _ => ∅
  end.

(** The estimate of 2000 input and 500 output tokens on [gpt-4o], and a
    community document of three entries, for the examples. *)
Definition gpt4o_estimate : CostEstimate.t :=
  estimate_of "gpt-4o"
    (pricing_entry "GPT-4o" "OpenAI" 5.00 15.00 128000 (Some "cl100k_base")) 2000 500.

Definition litellm_entry (input output : option float) : LiteLLMModel.t :=
  {| LiteLLMModel.input_cost_per_token := input;
     LiteLLMModel.output_cost_per_token := output;
     LiteLLMModel.max_input_tokens := None;
     LiteLLMModel.max_output_tokens := None;
     LiteLLMModel.litellm_provider := None;
     LiteLLMModel.mode := None;
     LiteLLMModel.supports_vision := None;
     LiteLLMModel.supports_function_calling := None |}.

Definition sample_document : list (string * LiteLLMModel.t) :=
  [("gpt-4o", litellm_entry (Some 0.0000025%float) (Some 0.00001%float));
   ("some-other-model", litellm_entry (Some 0.000001%float) (Some 0.000002%float));
   ("gpt-4", litellm_entry (Some 0.00003%float) None)].

(** tiktoken has the encoder the sources fall back on. *)
Definition tiktoken_ready (encoding_for_model : string -> option Tiktoken) : Prop :=
  is_Some (encoding_for_model "cl100k_base").

(** Every record of the catalog names that encoding, or none. *)
Definition encodings_known (runtimePricing : Catalog) : Prop :=
  forall k r, runtimePricing !! k = Some r ->
    ModelPricing.encoding r = None \/ ModelPricing.encoding r = Some "cl100k_base".

(** The catalog [initializePricing] leaves when the request comes to
    [outcome]. *)
Definition catalog_after (outcome : FetchOutcome) : Catalog :=
  mergePricing (fetched outcome) MODEL_PRICING.

(** No record of the catalog has a price below zero. *)
Definition prices_not_negative (runtimePricing : Catalog) : Prop :=
  forall k r, runtimePricing !! k = Some r ->
    PrimFloat.ltb (ModelPricing.inputPricePerMillion r) 0 = false
    /\ PrimFloat.ltb (ModelPricing.outputPricePerMillion r) 0 = false.

(** The entry of [costByModel] after one more cost of its model: an entry
    that is missing or falsy counts for 0. *)
Definition add_to_entry (entry : option float) (cost : float) : option float :=
  Some ((if truthy entry then default nan entry else 0) + cost)%float.

(** The entry after the costs of one model, from no entry. *)
Definition model_total (costs : list float) : option float :=
  foldl add_to_entry None costs.

(** The total costs of the estimates made for [model], in their order. *)
Definition costs_of (model : string) (estimates : list CostEstimate.t) : list float :=
  map CostEstimate.totalCost
    (List.filter (fun est => String.eqb (CostEstimate.model est) model) estimates).

(** The sum of a list of numbers, taken from the left, from 0. *)
Definition sum_from_zero (costs : list float) : float :=
  foldl (fun sum cost => (sum + cost)%float) 0%float costs.

(** The five blocks of suggestions, in the order of the source. *)
Definition suggestions (digits_general : float -> string) (estimate : CostEstimate.t)
    : list Optimization.t :=
  (suggest_mini digits_general estimate ++ suggest_sonnet estimate
   ++ suggest_gpt4o estimate ++ suggest_context digits_general estimate
   ++ suggest_output digits_general estimate)%list.

(** The catalog keys that occur in [modelMappings]. *)
Definition mapped_keys : list string :=
  ["gpt-5"; "gpt-5-mini"; "gpt-5-nano"; "gpt-5-pro"; "gpt-4o"; "gpt-4o-mini"; "gpt-4-turbo";
   "gpt-4"; "gpt-3.5-turbo"; "o1-preview"; "o1-mini"; "claude-sonnet-4-5"; "claude-opus-4";
   "claude-sonnet-4"; "claude-sonnet-3-5"; "claude-haiku-3-5"; "claude-3-opus";
   "claude-3-sonnet"; "claude-3-haiku"; "gemini-2.0-flash"; "gemini-1.5-pro";
   "gemini-1.5-flash"; "llama-3.1-405b"; "llama-3.1-70b"; "llama-3.1-8b"; "deepseek-chat";
   "deepseek-reasoner"].

(** The provider names of the default table and of [modelMappings],
    lowercased. *)
Definition providers : list string := ["openai"; "anthropic"; "google"; "meta"; "deepseek"].

(** A document entry that the conversion stores under [key]. *)
Definition overwrites (key : string) (entry : string * LiteLLMModel.t) : bool :=
  kept entry
  && match modelMappings !! fst entry with
     | Some m => String.eqb (Mapping.key m) key
     | None => false
     end.

(** Data for the examples: a batch of three calls, the first with an
    expected output that is not a number; an estimate of 3000 output tokens;
    a document that prices Claude Sonnet 4.5 under both of its keys. *)
Definition batch_call (inputText model : string) (estimatedOutput : option float)
    : BatchCall.t :=
  {| BatchCall.inputText := inputText;
     BatchCall.model := model;
     BatchCall.estimatedOutput := estimatedOutput |}.

Definition sample_batch : list BatchCall.t :=
  [batch_call "hello" "claude-sonnet-4" (Some nan);
   batch_call "hello" "claude-sonnet-4" None;
   batch_call "hello" "Claude-Sonnet-4" None].

Definition long_answer_estimate : CostEstimate.t :=
  estimate_of "claude-sonnet-4"
    (pricing_entry "Claude Sonnet 4" "Anthropic" 3.00 15.00 200000 None) 100 3000.

Definition sonnet_document : list (string * LiteLLMModel.t) :=
  [("claude-sonnet-4-5", litellm_entry (Some 0.000003%float) (Some 0.000015%float));
   ("claude-sonnet-4-5-20250929", litellm_entry (Some 0.000004%float) (Some 0.00002%float));
   ("gpt-4o", litellm_entry (Some 0.0000025%float) (Some 0.00001%float))].

(** The lines of [formatComparison] down to the table, the lines that name
    the best alternative, and the closing lines. *)
Section ComparisonLines.
Variable digits_general : float -> string.
Variable chalk : list string -> string -> string.
Variable Table_toString : list string -> list (list string) -> string.

Definition comparison_head (comparison : CostComparison.t) : list string :=
  [""; chalk ["cyan"] (String_repeat "━" 70);
   chalk ["bold"; "cyan"] "           MODEL COST COMPARISON           ";
   chalk ["cyan"] (String_repeat "━" 70); "";
   chalk ["bold"]
     ("Current Model: "
      ++ chalk ["cyan"]
           (ModelPricing.name (CostEstimate.pricing (CostComparison.current comparison))));
   chalk ["bold"]
     ("Total Cost: "
      ++ chalk ["yellow"]
           (formatCost digits_general
              (CostEstimate.totalCost (CostComparison.current comparison))));
   "";
   Table_toString
     [chalk ["bold"] "Model"; chalk ["bold"] "Cost"; chalk ["bold"] "Savings";
      chalk ["bold"] "%"]
     (map (comparison_row digits_general chalk comparison)
        (CostComparison.alternatives comparison));
   ""].

Definition best_lines (best : Alternative.t) : list string :=
  [chalk ["bold"; "green"] ("🎯 Best Alternative: " ++ Alternative.model best);
   chalk ["green"]
     ("   Save " ++ formatCost digits_general (Alternative.savings best) ++ " ("
      ++ Js.toFixed digits_general 0 (Alternative.savingsPercent best) ++ "%)");
   ""].

Definition comparison_foot : list string := [chalk ["cyan"] (String_repeat "━" 70); ""].

End ComparisonLines.

(** For the examples: options, a chalk without colours, a table without
    text, a file system without files. *)
Definition command_options (model output : string) (simple : bool) : Options.t :=
  {| Options.model := model; Options.output := output; Options.simple := simple |}.

Definition no_chalk : list string -> string -> string := fun _ text => text.

Definition no_table : list string -> list (list string) -> string := fun _ _ => "".

Definition no_file : string -> option string := fun _ => None.

(** An amount: a number that is finite and not below zero; and a catalog
    all of whose prices are amounts. *)
Definition amount (x : float) : Prop :=
  PrimFloat.leb 0 x = true /\ is_finite x = true.

Definition prices_are_amounts (runtimePricing : Catalog) : Prop :=
  forall k r, runtimePricing !! k = Some r ->
    amount (ModelPricing.inputPricePerMillion r)
    /\ amount (ModelPricing.outputPricePerMillion r).

(** A batch of four calls in order, for the examples. *)
Definition proper_batch : list BatchCall.t :=
  [batch_call "hello" "claude-sonnet-4" None;
   batch_call "hello world" "gemini-1.5-pro" (Some 1000%float);
   batch_call "" "claude-sonnet-4" (Some 0%float);
   batch_call "hello" "claude-sonnet-4" (Some 20%float)].

(* ===================================================================== *)
(** * Properties                                                         *)
(* ===================================================================== *)

(** ** The runtime: [includes] is the substring test, and the number
    formats on values whose JavaScript results are known *)

Lemma prefix_append sub s : String.prefix sub s = true <-> exists b, s = sub ++ b.
Proof.
  revert s. induction sub as [| c sub IH]; intros s; cbn.
  - split; [eauto | destruct s; reflexivity].
  - destruct s as [| d s]; [split; [discriminate | intros [b [=]]] |].
    cbn. destruct (Ascii.ascii_dec c d) as [-> | Hne].
    + rewrite IH. split; intros [b H]; exists b.
      * cbn. rewrite H. reflexivity.
      * cbn in H. injection H as H. exact H.
    + split; [discriminate | intros [b H]; cbn in H; injection H as H1 H2; congruence].
Qed.

Lemma includes_spec s sub : includes s sub = true <-> exists a b, s = a ++ sub ++ b.
Proof.
  induction s as [| c s IH]; cbn [includes].
  - rewrite orb_false_r, prefix_append. split.
    + intros [b H]. exists "", b. exact H.
    + intros (a & b & H). destruct a; cbn in H; [eauto | discriminate].
  - rewrite orb_true_iff, prefix_append, IH. split.
    + intros [[b H] | (a & b & H)].
      * exists "", b. exact H.
      * exists (String c a), b. cbn. rewrite H. reflexivity.
    + intros (a & b & H). destruct a as [| d a]; cbn in H.
      * left. eauto.
      * right. injection H as _ H. eauto.
Qed.

Lemma toLowerCase_length s : String.length (toLowerCase s) = String.length s.
Proof. induction s as [| c s IH]; cbn; congruence. Qed.

Example toLowerCase_key : toLowerCase "GPT-4o Mini" = "gpt-4o mini".
Proof. reflexivity. Qed.

Example Math_round_half_up :
  map Math_round [2.5; (-2.5); 0.49999999999999994; 300.3; 600; (-0.4)]%float
  = [3; (-2); 0; 300; 600; (-0)]%float.
Proof. reflexivity. Qed.

Example toFixed_known :
  map (fun x => Js.toFixed no_general_digits 2 x) [1.005; 1234.5678; (-1.5); 0]%float
  = ["1.00"; "1234.57"; "-1.50"; "0.00"]
  /\ map (fun x => Js.toFixed no_general_digits 4 x) [0.0125; 0.00015; (-0.00001)]%float
     = ["0.0125"; "0.0001"; "-0.0000"]
  /\ map (fun x => Js.toFixed no_general_digits 0 x) [96.2; 0.5; 2.5; (0 / 0)]%float
     = ["96"; "1"; "3"; "NaN"].
Proof. repeat split; reflexivity. Qed.

Example Math_ceil_div_known :
  map (fun n => Math_ceil_div n 4) [0; 1; 4; 5; 4000]%Z = [0; 1; 1; 2; 1000]%Z.
Proof. reflexivity. Qed.

(** ** binary64: the sign of a rounded value, and the order of numbers   *)

Module Binary64Facts.
Import Binary64.

Local Open Scope Z_scope.

Lemma digits2_pos_bounds m :
  2 ^ (Z.pos (digits2_pos m) - 1) <= Z.pos m < 2 ^ Z.pos (digits2_pos m).
Proof.
  induction m as [p IH | p IH |]; cbn [digits2_pos].
  - rewrite Pos2Z.inj_succ. change (Z.pos p~1) with (2 * Z.pos p + 1).
    replace (Z.succ (Z.pos (digits2_pos p)) - 1) with (Z.succ (Z.pos (digits2_pos p) - 1)) by lia.
    rewrite !Z.pow_succ_r by lia. lia.
  - rewrite Pos2Z.inj_succ. change (Z.pos p~0) with (2 * Z.pos p).
    replace (Z.succ (Z.pos (digits2_pos p)) - 1) with (Z.succ (Z.pos (digits2_pos p) - 1)) by lia.
    rewrite !Z.pow_succ_r by lia. lia.
  - cbn. lia.
Qed.

Lemma shr_m_shr_1 mrs : 0 <= shr_m mrs -> shr_m (shr_1 mrs) = shr_m mrs / 2.
Proof.
  destruct mrs as [m r s]; cbn [shr_m shr_1]. intros Hm.
  destruct m as [| [p | p |] | p]; cbn [shr_m]; try reflexivity; try lia.
  - apply Z.div_unique with 1; lia.
  - apply Z.div_unique with 0; lia.
Qed.

Lemma shr_m_iter_pos p : forall mrs,
  0 <= shr_m mrs -> shr_m (SpecFloat.iter_pos shr_1 p mrs) = shr_m mrs / 2 ^ Z.pos p.
Proof.
  induction p as [p IH | p IH |]; intros mrs Hm; cbn [SpecFloat.iter_pos].
  - assert (H1 : 0 <= shr_m (shr_1 mrs)) by (rewrite shr_m_shr_1 by lia; apply Z.div_pos; lia).
    assert (H2 : 0 <= shr_m (SpecFloat.iter_pos shr_1 p (shr_1 mrs)))
      by (rewrite IH by lia; apply Z.div_pos; lia).
    rewrite IH, IH, shr_m_shr_1 by lia.
    rewrite !Z.div_div by lia. f_equal.
    change (Z.pos p~1) with (2 * Z.pos p + 1).
    replace (2 * Z.pos p + 1) with (1 + Z.pos p + Z.pos p) by lia.
    rewrite !Z.pow_add_r by lia. lia.
  - assert (H2 : 0 <= shr_m (SpecFloat.iter_pos shr_1 p mrs))
      by (rewrite IH by lia; apply Z.div_pos; lia).
    rewrite IH, IH by lia.
    rewrite !Z.div_div by lia. f_equal.
    change (Z.pos p~0) with (2 * Z.pos p).
    replace (2 * Z.pos p) with (Z.pos p + Z.pos p) by lia.
    rewrite !Z.pow_add_r by lia. lia.
  - rewrite shr_m_shr_1 by lia. reflexivity.
Qed.

Lemma shr_m_record_of_loc m l : shr_m (shr_record_of_loc m l) = m.
Proof. destruct l as [| []]; reflexivity. Qed.

(** Shifting a positive mantissa to its canonical exponent keeps it
    positive, as long as the exponent is not below [emin]. *)
Lemma shr_fexp_pos m e l :
  emin <= e ->
  0 < shr_m (fst (shr_fexp prec emax (Z.pos m) e l))
  /\ emin <= snd (shr_fexp prec emax (Z.pos m) e l).
Proof.
  intros He. unfold shr_fexp, shr. cbn [Zdigits2].
  pose proof (digits2_pos_bounds m) as Hd.
  set (d := Z.pos (digits2_pos m)) in *.
  destruct (fexp prec emax (d + e) - e) as [| n | n] eqn:Hn; cbn [fst snd];
    rewrite ?shr_m_record_of_loc; try lia.
  rewrite shr_m_iter_pos by (rewrite shr_m_record_of_loc; lia).
  rewrite shr_m_record_of_loc.
  unfold fexp, SpecFloat.emin, prec, emax in *.
  assert (Hle : Z.pos n <= d - 1) by lia.
  split; [| lia].
  apply Z.div_str_pos. split; [apply Z.pow_pos_nonneg; lia |].
  transitivity (2 ^ (d - 1)); [apply Z.pow_le_mono_r; lia | lia].
Qed.

Lemma round_nearest_even_pos m l : 0 < m -> 0 < round_nearest_even m l.
Proof. destruct l as [| []]; cbn; try destruct (Z.even m); lia. Qed.

Lemma binary_round_aux_signed s m e l :
  emin <= e -> signed s (binary_round_aux prec emax s (Z.pos m) e l).
Proof.
  intros He. unfold binary_round_aux.
  destruct (shr_fexp_pos m e l He) as [H1 H1e].
  destruct (shr_fexp prec emax (Z.pos m) e l) as [mrs' e']. cbn [fst snd] in *.
  pose proof (round_nearest_even_pos _ (loc_of_shr_record mrs') H1) as H2.
  destruct (round_nearest_even (shr_m mrs') (loc_of_shr_record mrs')) as [| m1 | m1]; try lia.
  destruct (shr_fexp_pos m1 e' loc_Exact H1e) as [H3 _].
  destruct (shr_fexp prec emax (Z.pos m1) e' loc_Exact) as [mrs'' e'']. cbn [fst snd] in *.
  destruct (shr_m mrs'') as [| m2 | m2]; try lia.
  destruct (e'' <=? emax - prec); reflexivity.
Qed.

Lemma binary_round_signed s m e :
  emin <= e -> signed s (binary_round prec emax s m e).
Proof.
  intros He. unfold binary_round, shl_align.
  destruct (fexp prec emax (Z.pos (digits2_pos m) + e) - e) as [| d | d] eqn:Hd;
    apply binary_round_aux_signed; try lia.
  unfold fexp. lia.
Qed.

(** The sign of a normalised integer is the sign of the integer. *)
Lemma binary_normalize_sign m e :
  emin <= e ->
  match m with
  | Z0 => binary_normalize prec emax m e false = S754_zero false
  | Z.pos _ => signed false (binary_normalize prec emax m e false)
  | Z.neg _ => signed true (binary_normalize prec emax m e false)
  end.
Proof. intros He. destruct m; cbn [binary_normalize]; auto using binary_round_signed. Qed.


Lemma pos_iter_xO m d : Z.pos (Pos.iter xO m d) = Z.pos m * 2 ^ Z.pos d.
Proof.
  induction d as [| d IH] using Pos.peano_ind.
  - cbn. lia.
  - rewrite Pos.iter_succ, Pos2Z.inj_succ, Z.pow_succ_r by lia.
    change (Z.pos (Pos.iter xO m d)~0) with (2 * Z.pos (Pos.iter xO m d)). lia.
Qed.

Lemma shl_align_fst m e ez :
  ez <= e -> Z.pos (fst (shl_align m e ez)) = Z.pos m * 2 ^ (e - ez).
Proof.
  intros Hle. unfold shl_align.
  destruct (ez - e) as [| d | d] eqn:Hd; cbn [fst]; try lia.
  - replace (e - ez) with 0 by lia. lia.
  - rewrite pos_iter_xO. f_equal. f_equal. lia.
Qed.

(** What [bounded] says of a mantissa and its exponent. *)
Lemma bounded_inv m e :
  bounded prec emax m e = true ->
  emin <= e <= emax - prec /\ Z.pos m < 2 ^ prec
  /\ (emin < e -> 2 ^ (prec - 1) <= Z.pos m).
Proof.
  unfold bounded, canonical_mantissa, fexp. intros H.
  apply andb_prop in H as [H He]. apply Z.eqb_eq in H. apply Z.leb_le in He.
  pose proof (digits2_pos_bounds m) as Hd.
  set (d := Z.pos (digits2_pos m)) in *.
  assert (Hdp : d <= prec) by lia.
  split; [lia |]. split.
  - apply Z.lt_le_trans with (2 ^ d); [lia |].
    apply Z.pow_le_mono_r; unfold prec in *; lia.
  - intros Hlt. replace d with prec in Hd by lia. lia.
Qed.

(** On canonical representations, the order of [SFcompare] is the order
    of the values. *)
Lemma SFcompare_finite sx mx ex sy my ey :
  bounded prec emax mx ex = true ->
  bounded prec emax my ey = true ->
  SFcompare (S754_finite sx mx ex) (S754_finite sy my ey)
  = Some (scaled sx mx ex (Z.min ex ey) ?= scaled sy my ey (Z.min ex ey)).
Proof.
  intros Hx Hy.
  apply bounded_inv in Hx as (Hxe & Hxu & Hxl).
  apply bounded_inv in Hy as (Hye & Hyu & Hyl).
  assert (Hmag : (Z.pos mx * 2 ^ (ex - Z.min ex ey) ?= Z.pos my * 2 ^ (ey - Z.min ex ey))
                 = match ex ?= ey with
                   | Lt => Lt
                   | Gt => Gt
                   | Eq => Pos.compare_cont Eq mx my
                   end).
  { destruct (Z.compare_spec ex ey) as [Heq | Hlt | Hgt].
    - subst ey. rewrite Z.min_id, Z.sub_diag, Z.pow_0_r, !Z.mul_1_r. reflexivity.
    - rewrite Z.min_l, Z.sub_diag, Z.pow_0_r, Z.mul_1_r by lia.
      apply Z.compare_lt_iff.
      assert (2 ^ 1 <= 2 ^ (ey - ex)) by (apply Z.pow_le_mono_r; lia).
      change (2 ^ prec) with (2 * 2 ^ (prec - 1)) in Hxu.
      assert (2 ^ (prec - 1) <= Z.pos my) by (apply Hyl; lia).
      change (2 ^ 1) with 2 in *. nia.
    - rewrite Z.min_r, Z.sub_diag, Z.pow_0_r, Z.mul_1_r by lia.
      apply Z.compare_gt_iff.
      assert (2 ^ 1 <= 2 ^ (ex - ey)) by (apply Z.pow_le_mono_r; lia).
      change (2 ^ prec) with (2 * 2 ^ (prec - 1)) in Hyu.
      assert (2 ^ (prec - 1) <= Z.pos mx) by (apply Hxl; lia).
      change (2 ^ 1) with 2 in *. nia. }
  assert (Hpx : 0 < Z.pos mx * 2 ^ (ex - Z.min ex ey))
    by (apply Z.mul_pos_pos; [lia | apply Z.pow_pos_nonneg; lia]).
  assert (Hpy : 0 < Z.pos my * 2 ^ (ey - Z.min ex ey))
    by (apply Z.mul_pos_pos; [lia | apply Z.pow_pos_nonneg; lia]).
  unfold scaled. cbn [SFcompare]. f_equal.
  destruct sx, sy; cbn [cond_Zopp].
  - rewrite Z.compare_opp, (Z.compare_antisym (Z.pos mx * _) (Z.pos my * _)), Hmag.
    destruct (ex ?= ey); reflexivity.
  - symmetry. apply Z.compare_lt_iff. lia.
  - symmetry. apply Z.compare_gt_iff. lia.
  - rewrite Hmag. reflexivity.
Qed.

Lemma cond_Zopp_mul s a c : cond_Zopp s a * c = cond_Zopp s (a * c).
Proof. destruct s; cbn; lia. Qed.

Lemma rank_scaled s m e ez :
  emin <= ez <= e -> rank (S754_finite s m e) = scaled s m e ez * 2 ^ (ez - emin).
Proof.
  intros H. unfold rank, scaled. rewrite cond_Zopp_mul. f_equal.
  rewrite <- Z.mul_assoc, <- Z.pow_add_r by lia. do 2 f_equal. lia.
Qed.

Lemma rank_finite_bound (s : bool) m e :
  bounded prec emax m e = true ->
  if s then (- 2 ^ (emax - emin) < rank (S754_finite s m e) < 0)
  else (0 < rank (S754_finite s m e) < 2 ^ (emax - emin)).
Proof.
  intros H. apply bounded_inv in H as (He & Hu & _).
  assert (Hp : 0 < Z.pos m * 2 ^ (e - emin))
    by (apply Z.mul_pos_pos; [lia | apply Z.pow_pos_nonneg; lia]).
  assert (Hlt : Z.pos m * 2 ^ (e - emin) < 2 ^ (emax - emin)).
  { apply Z.lt_le_trans with (2 ^ prec * 2 ^ (e - emin)).
    - apply Z.mul_lt_mono_pos_r; [apply Z.pow_pos_nonneg; lia | lia].
    - rewrite <- Z.pow_add_r by (unfold prec, emax, SpecFloat.emin in *; lia).
      apply Z.pow_le_mono_r; unfold prec, emax, SpecFloat.emin in *; lia. }
  unfold rank. destruct s; cbn [cond_Zopp]; lia.
Qed.

Lemma rank_infinity_bound (s : bool) :
  if s then rank (S754_infinity s) = (- 2 ^ (emax - emin))
  else rank (S754_infinity s) = 2 ^ (emax - emin).
Proof. destruct s; reflexivity. Qed.

Lemma pow_emax_pos : 0 < 2 ^ (emax - emin).
Proof. apply Z.pow_pos_nonneg; unfold emax, SpecFloat.emin, prec; lia. Qed.

Ltac by_ranks :=
  cbn [SFcompare]; f_equal; symmetry;
  first [apply Z.compare_eq_iff | apply Z.compare_lt_iff | apply Z.compare_gt_iff];
  lia.

Lemma mul_compare_pos n m p : 0 < p -> (n * p ?= m * p) = (n ?= m).
Proof.
  intros Hp. destruct (Z.compare_spec n m) as [-> | H | H].
  - apply Z.compare_refl.
  - apply Z.compare_lt_iff. nia.
  - apply Z.compare_gt_iff. nia.
Qed.

Lemma SFcompare_rank_finite sx mx ex sy my ey :
  bounded prec emax mx ex = true ->
  bounded prec emax my ey = true ->
  SFcompare (S754_finite sx mx ex) (S754_finite sy my ey)
  = Some (rank (S754_finite sx mx ex) ?= rank (S754_finite sy my ey)).
Proof.
  intros Hx Hy. rewrite SFcompare_finite by assumption. f_equal.
  pose proof (proj1 (bounded_inv _ _ Hx)) as Hxe.
  pose proof (proj1 (bounded_inv _ _ Hy)) as Hye.
  rewrite (rank_scaled sx mx ex (Z.min ex ey)), (rank_scaled sy my ey (Z.min ex ey)) by lia.
  symmetry. apply mul_compare_pos. apply Z.pow_pos_nonneg; lia.
Qed.

(** On valid numbers, [SFcompare] is the comparison of the ranks. *)
Lemma SFcompare_rank x y :
  valid_binary x = true -> valid_binary y = true ->
  SFcompare x y =
    if number x && number y then Some (rank x ?= rank y) else None.
Proof.
  intros Hx Hy. pose proof pow_emax_pos as Hinf.
  destruct x as [sx | sx | | sx mx ex], y as [sy | sy | | sy my ey];
    cbn [valid_binary number andb] in *; try reflexivity;
    try (apply SFcompare_rank_finite; assumption);
    repeat match goal with
           | |- context [rank (S754_zero ?s)] => change (rank (S754_zero s)) with 0
           | |- context [rank (S754_infinity ?s)] =>
               pose proof (rank_infinity_bound s);
               generalize dependent (rank (S754_infinity s)); intros
           | H : bounded prec emax ?m ?e = true |- context [rank (S754_finite ?s ?m ?e)] =>
               pose proof (rank_finite_bound s m e H);
               generalize dependent (rank (S754_finite s m e)); intros
           end.
  all: try (destruct sx; by_ranks).
  all: try (destruct sy; by_ranks).
  all: destruct sx, sy; by_ranks.
Qed.

(** The difference [y - x] is positive exactly when [x] is below [y]. *)
Lemma SFsub_pos x y :
  valid_binary x = true -> valid_binary y = true ->
  SFltb (S754_zero false) (SF64sub y x) = SFltb x y.
Proof.
  intros Hx Hy.
  destruct x as [sx | sx | | sx mx ex], y as [sy | sy | | sy my ey];
    try (destruct sx; reflexivity); try (destruct sy; reflexivity);
    try (destruct sx, sy; reflexivity); try reflexivity.
  cbn [valid_binary] in Hx, Hy.
  unfold SFltb at 2. rewrite SFcompare_finite by assumption.
  unfold SF64sub, SFsub.
  pose proof (proj1 (bounded_inv _ _ Hx)) as Hxe.
  pose proof (proj1 (bounded_inv _ _ Hy)) as Hye.
  rewrite !shl_align_fst by lia.
  fold (scaled sy my ey (Z.min ey ex)). fold (scaled sx mx ex (Z.min ey ex)).
  rewrite (Z.min_comm ey ex).
  set (X := scaled sx mx ex (Z.min ex ey)). set (Y := scaled sy my ey (Z.min ex ey)).
  pose proof (binary_normalize_sign (Y - X) (Z.min ex ey) ltac:(lia)) as Hs.
  destruct (Z.compare_spec X Y) as [Heq | Hlt | Hgt].
  - replace (Y - X) with 0 in * by lia. rewrite Hs. reflexivity.
  - destruct (Y - X) as [| p | p] eqn:Hd; try lia.
    destruct (binary_normalize prec emax (Z.pos p) (Z.min ex ey) false) as [| s | | s m e];
      cbn in Hs; try contradiction; subst s; reflexivity.
  - destruct (Y - X) as [| p | p] eqn:Hd; try lia.
    destruct (binary_normalize prec emax (Z.neg p) (Z.min ex ey) false) as [| s | | s m e];
      cbn in Hs; try contradiction; subst s; reflexivity.
Qed.


Lemma shr_fexp_nonneg m e l :
  0 <= m -> 0 <= shr_m (fst (shr_fexp prec emax m e l)).
Proof.
  intros Hm. unfold shr_fexp, shr.
  destruct (fexp prec emax (Zdigits2 m + e) - e) as [| n | n]; cbn [fst];
    rewrite ?shr_m_record_of_loc; try lia.
  rewrite shr_m_iter_pos by (rewrite shr_m_record_of_loc; lia).
  rewrite shr_m_record_of_loc. apply Z.div_pos; [lia | apply Z.pow_pos_nonneg; lia].
Qed.

Lemma round_nearest_even_nonneg m l : 0 <= m -> 0 <= round_nearest_even m l.
Proof. destruct l as [| []]; cbn; try destruct (Z.even m); lia. Qed.

(** Rounding keeps the sign it is given, and makes no NaN of a mantissa
    that is not negative. *)
Lemma binary_round_aux_sign s m e l :
  0 <= m ->
  match binary_round_aux prec emax s m e l with
  | S754_nan => False
  | S754_zero s' | S754_infinity s' | S754_finite s' _ _ => s' = s
  end.
Proof.
  intros Hm. unfold binary_round_aux.
  pose proof (shr_fexp_nonneg m e l Hm) as H1.
  destruct (shr_fexp prec emax m e l) as [mrs' e']. cbn [fst] in H1.
  pose proof (round_nearest_even_nonneg _ (loc_of_shr_record mrs') H1) as H2.
  pose proof (shr_fexp_nonneg _ e' loc_Exact H2) as H3.
  destruct (shr_fexp prec emax _ e' loc_Exact) as [mrs'' e'']. cbn [fst] in H3.
  destruct (shr_m mrs'') as [| m2 | m2]; try lia; [reflexivity |].
  destruct (e'' <=? emax - prec); reflexivity.
Qed.

Lemma SFdiv_core_binary_nonneg m1 e1 m2 e2 :
  0 <= fst (fst (SFdiv_core_binary prec emax (Z.pos m1) e1 (Z.pos m2) e2)).
Proof.
  unfold SFdiv_core_binary.
  set (s := e1 - e2 - _).
  set (m' := match s with 0 => Z.pos m1 | Z.pos _ => Z.shiftl (Z.pos m1) s | Z.neg _ => 0 end).
  assert (Hm' : 0 <= m').
  { subst m'. destruct s; try lia. apply Z.shiftl_nonneg. lia. }
  change IntDef.Z.div_eucl with Z.div_eucl.
  pose proof (Z.div_eucl_eq m' (Z.pos m2) ltac:(lia)) as Heq.
  pose proof (Z.mod_pos_bound m' (Z.pos m2) ltac:(lia)) as Hr.
  unfold Z.modulo in Hr.
  destruct (Z.div_eucl m' (Z.pos m2)) as [q r]. cbn [fst]. nia.
Qed.

Lemma SFmul_not_negative x y :
  not_negative x -> not_negative y -> not_negative (SF64mul x y).
Proof.
  destruct x as [sx | [] | | [] mx ex], y as [sy | [] | | [] my ey];
    cbn; try tauto; intros _ _.
  pose proof (binary_round_aux_sign false (Z.pos (mx * my)) (ex + ey) loc_Exact ltac:(lia)) as H.
  destruct (binary_round_aux prec emax false (Z.pos (mx * my)) (ex + ey) loc_Exact)
    as [s | s | | s m e]; try contradiction; subst; exact I.
Qed.

Lemma SFadd_not_negative x y :
  valid_binary x = true -> valid_binary y = true ->
  not_negative x -> not_negative y -> not_negative (SF64add x y).
Proof.
  intros Vx Vy.
  destruct x as [sx | [] | | [] mx ex], y as [sy | [] | | [] my ey];
    cbn [not_negative]; try tauto; try (intros _ _; exact I);
    try (destruct sx; intros _ _; exact I);
    try (destruct sx, sy; intros _ _; exact I).
  intros _ _.
  cbn [valid_binary] in Vx, Vy.
  pose proof (proj1 (proj1 (bounded_inv _ _ Vx))) as Hxe.
  pose proof (proj1 (proj1 (bounded_inv _ _ Vy))) as Hye.
  unfold SF64add, SFadd. cbn [cond_Zopp]. rewrite <- Pos2Z.inj_add.
  pose proof (binary_round_signed false
                (fst (shl_align mx ex (Z.min ex ey)) + fst (shl_align my ey (Z.min ex ey)))
                (Z.min ex ey) ltac:(lia)) as Hs.
  cbn [binary_normalize].
  destruct (binary_round prec emax false _ (Z.min ex ey)) as [| s | | s m e];
    cbn in Hs; try contradiction; subst s; exact I.
Qed.

Lemma SFdiv_not_negative x m e :
  not_negative x -> not_negative (SF64div x (S754_finite false m e)).
Proof.
  destruct x as [[] | [] | | [] mx ex]; cbn [not_negative]; try tauto;
    try (intros _; exact I).
  intros _. unfold SF64div, SFdiv. cbn [xorb].
  pose proof (SFdiv_core_binary_nonneg mx ex m e) as Hq.
  destruct (SFdiv_core_binary prec emax (Z.pos mx) ex (Z.pos m) e) as [[q e'] l].
  cbn [fst] in Hq.
  pose proof (binary_round_aux_sign false q e' l Hq) as H.
  destruct (binary_round_aux prec emax false q e' l) as [s | s | | s m' e''];
    try contradiction; subst; exact I.
Qed.

Lemma Zdigits2_nonneg m : 0 <= Zdigits2 m.
Proof. destruct m; cbn; lia. Qed.

Lemma Zdigits2_bounds m : 0 < m -> 2 ^ (Zdigits2 m - 1) <= m < 2 ^ Zdigits2 m.
Proof. destruct m as [| p | p]; try lia. intros _. apply digits2_pos_bounds. Qed.

(** A value below [2^a] has at most [a] digits. *)
Lemma Zdigits2_le m a : 0 <= m < 2 ^ a -> 0 <= a -> Zdigits2 m <= a.
Proof.
  intros [Hm Hlt] Ha. destruct (Z.eq_dec m 0) as [-> | Hne]; [cbn; lia |].
  pose proof (Zdigits2_bounds m ltac:(lia)) as [Hlo _].
  destruct (Z_lt_le_dec a (Zdigits2 m)) as [Hgt | Hle]; [| exact Hle].
  exfalso.
  assert (2 ^ a <= 2 ^ (Zdigits2 m - 1)) by (apply Z.pow_le_mono_r; lia).
  lia.
Qed.

Lemma Zdigits2_succ m : 0 <= m -> Zdigits2 (m + 1) <= Zdigits2 m + 1.
Proof.
  intros Hm. pose proof (Zdigits2_nonneg m) as Hd.
  apply Zdigits2_le; [| lia].
  destruct (Z.eq_dec m 0) as [-> | Hne]; [cbn; lia |].
  pose proof (Zdigits2_bounds m ltac:(lia)) as [_ Hhi].
  rewrite Z.pow_add_r by lia. change (2 ^ 1) with 2. lia.
Qed.

Lemma Zdigits2_div m n :
  0 <= m -> 0 <= n -> 0 < m / 2 ^ n -> Zdigits2 (m / 2 ^ n) + n <= Zdigits2 m.
Proof.
  intros Hm Hn Hq.
  assert (Hp : 0 < 2 ^ n) by (apply Z.pow_pos_nonneg; lia).
  assert (Hmpos : 0 < m).
  { destruct (Z.eq_dec m 0) as [-> | ]; [rewrite Z.div_0_l in Hq; lia | lia]. }
  pose proof (Zdigits2_bounds m Hmpos) as [_ Hhi].
  pose proof (Zdigits2_nonneg m) as Hd.
  destruct (Z_lt_le_dec (Zdigits2 m) n) as [Hlt | Hle].
  - exfalso. assert (m < 2 ^ n).
    { apply Z.lt_le_trans with (2 ^ Zdigits2 m); [lia |]. apply Z.pow_le_mono_r; lia. }
    rewrite Z.div_small in Hq by lia. lia.
  - enough (Zdigits2 (m / 2 ^ n) <= Zdigits2 m - n) by lia.
    apply Zdigits2_le; [| lia]. split; [lia |].
    apply Z.div_lt_upper_bound; [lia |].
    rewrite <- Z.pow_add_r by lia. replace (n + (Zdigits2 m - n)) with (Zdigits2 m) by lia.
    lia.
Qed.

Lemma round_nearest_even_le m l : round_nearest_even m l <= m + 1.
Proof. destruct l as [| []]; cbn; try destruct (Z.even m); lia. Qed.

Lemma Zdigits2_mono a b : 0 <= a <= b -> Zdigits2 a <= Zdigits2 b.
Proof.
  intros [Ha Hab]. destruct (Z.eq_dec b 0) as [-> | Hb]; [replace a with 0 by lia; lia |].
  pose proof (Zdigits2_bounds b ltac:(lia)) as [_ Hhi].
  apply Zdigits2_le; [lia | apply Zdigits2_nonneg].
Qed.

(** What [shr_fexp] leaves: a mantissa that is not negative, an exponent
    that is the larger of the one given and the canonical one, and no more
    digits than before. *)
Lemma shr_fexp_bounds m e l :
  0 <= m ->
  let r := shr_fexp prec emax m e l in
  0 <= shr_m (fst r)
  /\ snd r = Z.max e (fexp prec emax (Zdigits2 m + e))
  /\ Zdigits2 (shr_m (fst r)) + snd r <= Z.max (Zdigits2 m + e) (snd r).
Proof.
  intros Hm. cbv zeta. unfold shr_fexp, shr.
  set (D := Zdigits2 m + e).
  destruct (fexp prec emax D - e) as [| n | n] eqn:Hn; cbn [fst snd];
    rewrite ?shr_m_record_of_loc.
  - repeat split; lia.
  - rewrite shr_m_iter_pos by (rewrite shr_m_record_of_loc; lia).
    rewrite shr_m_record_of_loc.
    assert (Hq : 0 <= m / 2 ^ Z.pos n) by (apply Z.div_pos; [lia | apply Z.pow_pos_nonneg; lia]).
    split; [exact Hq |]. split; [lia |].
    destruct (Z.eq_dec (m / 2 ^ Z.pos n) 0) as [-> | Hne]; [cbn; lia |].
    pose proof (Zdigits2_div m (Z.pos n) Hm ltac:(lia) ltac:(lia)). subst D. lia.
  - repeat split; lia.
Qed.

(** A rounding does not overflow when the value is below [2^(emax-1)] and
    the exponent is in range. *)
Lemma binary_round_aux_bounded s m e l :
  0 <= m -> e <= emax - prec -> Zdigits2 m + e <= emax - 1 ->
  bounded_value (binary_round_aux prec emax s m e l).
Proof.
  intros Hm He HD. unfold binary_round_aux.
  pose proof (shr_fexp_bounds m e l Hm) as (H1 & He1 & Hd1). cbv zeta in *.
  destruct (shr_fexp prec emax m e l) as [mrs' e1]. cbn [fst snd] in *.
  set (m1 := round_nearest_even (shr_m mrs') (loc_of_shr_record mrs')).
  assert (Hm1 : 0 <= m1) by (apply round_nearest_even_nonneg; assumption).
  assert (Hm1le : m1 <= shr_m mrs' + 1) by apply round_nearest_even_le.
  assert (Hdig : Zdigits2 m1 <= Zdigits2 (shr_m mrs') + 1).
  { etransitivity; [apply Zdigits2_mono; split; [exact Hm1 | exact Hm1le] |].
    apply Zdigits2_succ, H1. }
  pose proof (shr_fexp_bounds m1 e1 loc_Exact Hm1) as (H2 & He2 & _). cbv zeta in *.
  destruct (shr_fexp prec emax m1 e1 loc_Exact) as [mrs'' e2]. cbn [fst snd] in *.
  assert (Hfin : e2 <= emax - prec).
  { unfold fexp, emax, prec, SpecFloat.emin in *. lia. }
  destruct (shr_m mrs'') as [| m2 | m2]; try lia; [exact I |].
  apply Z.leb_le in Hfin. rewrite Hfin. exact I.
Qed.

Lemma binary_round_bounded s m e :
  e <= emax - prec -> Z.pos (digits2_pos m) + e <= emax - 1 ->
  bounded_value (binary_round prec emax s m e).
Proof.
  intros He HD. unfold binary_round, shl_align.
  set (D := Z.pos (digits2_pos m) + e) in *.
  destruct (fexp prec emax D - e) as [| d | d] eqn:Hd.
  - apply binary_round_aux_bounded; [lia | lia | exact HD].
  - apply binary_round_aux_bounded; [lia | lia | exact HD].
  - apply binary_round_aux_bounded; [lia | unfold fexp, emax, prec, SpecFloat.emin in *; lia |].
    cbn [Zdigits2].
    pose proof (pos_iter_xO m d) as Hsh.
    pose proof (digits2_pos_bounds m) as [Hlo Hhi].
    pose proof (digits2_pos_bounds (Pos.iter xO m d)) as [Hlo' Hhi'].
    change (@PosDef.Pos.iter positive) with (@Pos.iter positive).
    rewrite Hsh in Hlo'.
    assert (Hdd : Z.pos (digits2_pos (Pos.iter xO m d)) <= Z.pos (digits2_pos m) + Z.pos d).
    { destruct (Z_lt_le_dec (Z.pos (digits2_pos m) + Z.pos d)
                  (Z.pos (digits2_pos (Pos.iter xO m d)))) as [Hgt | Hle]; [| exact Hle].
      exfalso.
      assert (H : 2 ^ (Z.pos (digits2_pos m) + Z.pos d)
                  <= 2 ^ (Z.pos (digits2_pos (Pos.iter xO m d)) - 1))
        by (apply Z.pow_le_mono_r; lia).
      rewrite Z.pow_add_r in H by lia.
      assert (0 < 2 ^ Z.pos d) by (apply Z.pow_pos_nonneg; lia). nia. }
    subst D. lia.
Qed.

(** The binary64 value of a natural number below [2^63] is finite. *)
Lemma of_uint63_bounded n : bounded_value (Prim2SF (of_uint63 n)).
Proof.
  rewrite of_uint63_spec. change Uint63Axioms.to_Z with Uint63.to_Z.
  pose proof (Uint63.to_Z_bounded n) as Hb.
  destruct (Uint63.to_Z n) as [| p | p] eqn:E; try lia; [exact I |].
  cbn [binary_normalize]. apply binary_round_bounded.
  - unfold emax, prec. lia.
  - assert (Z.pos (digits2_pos p) <= 63).
    { apply (Zdigits2_le (Z.pos p) 63); [| lia]. change wB with (2 ^ 63) in Hb. lia. }
    unfold emax. lia.
Qed.

(** Dividing a finite value by 1,000,000 gives a finite value. *)
Lemma SFdiv_million_bounded x :
  valid_binary x = true -> bounded_value x ->
  bounded_value (SF64div x (S754_finite false 8589934592000000 (-33))).
Proof.
  intros Vx Hx. destruct x as [s | s | | s mx ex]; try contradiction; [exact I |].
  cbn [valid_binary] in Vx. apply bounded_inv in Vx as ([Hlo Hhi] & Hm & _).
  unfold SF64div, SFdiv, SFdiv_core_binary.
  set (my := 8589934592000000%positive).
  set (d1 := Zdigits2 (Z.pos mx)). set (d2 := Zdigits2 (Z.pos my)).
  change d2 with 53.
  set (e' := Z.min (fexp prec emax (d1 + ex - (53 + -33))) (ex - -33)).
  set (sh := ex - -33 - e').
  set (m' := match sh with 0 => Z.pos mx | Z.pos _ => Z.shiftl (Z.pos mx) sh | Z.neg _ => 0 end).
  assert (Hd1 : 1 <= d1 <= 53).
  { subst d1. cbn [Zdigits2]. split; [lia |].
    apply (Zdigits2_le (Z.pos mx) 53); [| lia]. change prec with 53 in Hm. lia. }
  assert (Hsh : 0 <= sh) by (subst sh e'; apply Z.le_0_sub, Z.le_min_r).
  assert (Hm' : 0 <= m' < 2 ^ (d1 + sh)).
  { pose proof (Zdigits2_bounds (Z.pos mx) ltac:(lia)) as [_ Hup]. fold d1 in Hup.
    assert (Heq : m' = Z.pos mx * 2 ^ sh).
    { subst m'. destruct sh as [| p | p] eqn:Es; try lia.
      rewrite Z.shiftl_mul_pow2 by lia. reflexivity. }
    rewrite Heq, Z.pow_add_r by lia.
    assert (0 < 2 ^ sh) by (apply Z.pow_pos_nonneg; lia). nia. }
  change IntDef.Z.div_eucl with Z.div_eucl.
  pose proof (Z.div_eucl_eq m' (Z.pos my) ltac:(lia)) as Heq.
  pose proof (Z.mod_pos_bound m' (Z.pos my) ltac:(lia)) as Hr.
  unfold Z.modulo in Hr.
  destruct (Z.div_eucl m' (Z.pos my)) as [q r].
  assert (Hq0 : 0 <= q) by nia.
  assert (Hmy : 2 ^ 52 <= Z.pos my) by (subst my; cbn; lia).
  apply binary_round_aux_bounded; [exact Hq0 | |].
  - subst e'. unfold fexp, emax, prec, SpecFloat.emin in *. lia.
  - assert (Hqd : Zdigits2 q <= Z.max (d1 + sh - 52) 0).
    { destruct (Z.eq_dec q 0) as [-> | Hq]; [cbn; lia |].
      destruct (Z_lt_le_dec (d1 + sh) 52) as [Hsmall | Hbig].
      - exfalso. assert (m' < 2 ^ 52).
        { apply Z.lt_le_trans with (2 ^ (d1 + sh)); [lia |]. apply Z.pow_le_mono_r; lia. }
        nia.
      - rewrite Z.max_l by lia. apply Zdigits2_le; [| lia]. split; [lia |].
        assert (Hpow : 2 ^ (d1 + sh) = 2 ^ 52 * 2 ^ (d1 + sh - 52)).
        { rewrite <- Z.pow_add_r by lia. f_equal. lia. }
        assert (0 < 2 ^ (d1 + sh - 52)) by (apply Z.pow_pos_nonneg; lia).
        nia. }
    subst sh e'. unfold fexp, emax, prec, SpecFloat.emin in *. lia.
Qed.

Local Open Scope float_scope.

(** The comparator [b - a] of a sort is positive exactly when [a < b]. *)
Lemma sub_pos (a b : float) : (0 <? b - a) = (a <? b).
Proof.
  rewrite !FloatAxioms.ltb_spec, FloatAxioms.sub_spec.
  change (Prim2SF 0) with (S754_zero false).
  apply SFsub_pos; apply Prim2SF_valid.
Qed.

Lemma ltb_rank (a b : float) :
  (a <? b) = number (Prim2SF a) && number (Prim2SF b)
             && (rank (Prim2SF a) <? rank (Prim2SF b))%Z.
Proof.
  rewrite FloatAxioms.ltb_spec. unfold SFltb.
  rewrite SFcompare_rank by apply Prim2SF_valid.
  destruct (number (Prim2SF a) && number (Prim2SF b)); [| reflexivity].
  unfold Z.ltb. destruct (rank (Prim2SF a) ?= rank (Prim2SF b))%Z; reflexivity.
Qed.

Lemma leb_rank (a b : float) :
  (a <=? b) = number (Prim2SF a) && number (Prim2SF b)
              && (rank (Prim2SF a) <=? rank (Prim2SF b))%Z.
Proof.
  rewrite FloatAxioms.leb_spec. unfold SFleb.
  rewrite SFcompare_rank by apply Prim2SF_valid.
  destruct (number (Prim2SF a) && number (Prim2SF b)); [| reflexivity].
  unfold Z.leb. destruct (rank (Prim2SF a) ?= rank (Prim2SF b))%Z; reflexivity.
Qed.

Lemma eqb_rank (a b : float) :
  (a =? b) = number (Prim2SF a) && number (Prim2SF b)
             && (rank (Prim2SF a) =? rank (Prim2SF b))%Z.
Proof.
  rewrite FloatAxioms.eqb_spec. unfold SFeqb.
  rewrite SFcompare_rank by apply Prim2SF_valid.
  destruct (number (Prim2SF a) && number (Prim2SF b)); [| reflexivity].
  rewrite Z.eqb_compare.
  destruct (rank (Prim2SF a) ?= rank (Prim2SF b))%Z; reflexivity.
Qed.

Lemma is_nan_number (a : float) : is_nan a = negb (number (Prim2SF a)).
Proof.
  unfold is_nan. rewrite eqb_rank, Z.eqb_refl.
  destruct (number (Prim2SF a)); reflexivity.
Qed.


(** On numbers, "not below" is "at least". *)
Lemma not_ltb_leb (a b : float) :
  is_nan a = false -> is_nan b = false -> (a <? b) = false -> (b <=? a) = true.
Proof.
  rewrite !is_nan_number, ltb_rank, leb_rank.
  destruct (number (Prim2SF a)), (number (Prim2SF b)); cbn [andb negb]; try discriminate.
  intros _ _ H. apply Z.ltb_ge in H. apply Z.leb_le. lia.
Qed.

Lemma leb_trans (a b c : float) :
  (a <=? b) = true -> (b <=? c) = true -> (a <=? c) = true.
Proof.
  rewrite !leb_rank.
  destruct (number (Prim2SF a)), (number (Prim2SF b)), (number (Prim2SF c));
    cbn [andb]; try discriminate.
  intros H1 H2. apply Z.leb_le in H1, H2. apply Z.leb_le. lia.
Qed.

Lemma ltb_asym (a b : float) : (a <? b) = true -> (b <? a) = false.
Proof.
  rewrite !ltb_rank.
  destruct (number (Prim2SF a)), (number (Prim2SF b)); cbn [andb]; try discriminate.
  intros H. apply Z.ltb_lt in H. apply Z.ltb_ge. lia.
Qed.

(** The binary64 value of a natural number is not negative. *)
Lemma of_uint63_nonneg n : (0 <=? of_uint63 n) = true.
Proof.
  rewrite FloatAxioms.leb_spec, of_uint63_spec. change (Prim2SF 0) with (S754_zero false).
  pose proof (binary_normalize_sign (Uint63.to_Z n) 0
                ltac:(unfold SpecFloat.emin, prec, emax; lia)) as Hs.
  pose proof (Uint63.to_Z_bounded n) as Hb.
  change Uint63Axioms.to_Z with Uint63.to_Z.
  destruct (Uint63.to_Z n) as [| p | p]; try lia.
  - rewrite Hs. reflexivity.
  - destruct (binary_normalize prec emax (Z.pos p) 0 false) as [| s | | s m e];
      cbn in Hs; try contradiction; subst s; reflexivity.
Qed.

Lemma Prim2SF_nan (x : float) : Prim2SF x = S754_nan -> x = nan.
Proof. intros H. apply Prim2SF_inj. rewrite H. reflexivity. Qed.

Lemma SFmul_zero s y : zero_or_nan (SF64mul (S754_zero s) y).
Proof. destruct y; exact I. Qed.

Lemma SFadd_zero_or_nan x y :
  zero_or_nan x -> zero_or_nan y -> zero_or_nan (SF64add x y).
Proof. destruct x as [[] | | |], y as [[] | | |]; cbn; tauto. Qed.

Lemma SFdiv_zero_or_nan x s : zero_or_nan x -> SF64div x (S754_zero s) = S754_nan.
Proof. destruct x; cbn; tauto. Qed.

Lemma SFdiv_zero_finite x s m e :
  is_zero x -> is_zero (SF64div x (S754_finite s m e)).
Proof. destruct x; cbn; tauto. Qed.

Lemma SFmul_is_zero x y : is_zero x -> zero_or_nan (SF64mul x y).
Proof. destruct x; cbn; try tauto. intros _. destruct y; exact I. Qed.

Lemma SFadd_is_zero x y : is_zero x -> is_zero y -> is_zero (SF64add x y).
Proof. destruct x as [[] | | |], y as [[] | | |]; cbn; tauto. Qed.

Lemma SFleb_zero x :
  SFleb (S754_zero false) x = true -> is_zero x \/ signed false x.
Proof. destruct x as [s | [] | | [] m e]; cbn; try discriminate; auto. Qed.

(** Two values that are not negative add up to zero only if both are
    zero. *)
Lemma SFadd_nonneg_zero x y :
  valid_binary x = true -> valid_binary y = true ->
  SFleb (S754_zero false) x = true -> SFleb (S754_zero false) y = true ->
  SFeqb (SF64add x y) (S754_zero false) = true ->
  is_zero x /\ is_zero y.
Proof.
  intros Vx Vy Hx Hy.
  apply SFleb_zero in Hx as [Hx | Hx], Hy as [Hy | Hy];
    destruct x as [sx | sx | | sx mx ex]; try contradiction;
    destruct y as [sy | sy | | sy my ey]; try contradiction;
    cbn in Hx, Hy; subst; try (intros _; split; exact I); try discriminate.
  cbn [valid_binary] in Vx, Vy.
  pose proof (proj1 (proj1 (bounded_inv _ _ Vx))) as Hxe.
  pose proof (proj1 (proj1 (bounded_inv _ _ Vy))) as Hye.
  unfold SF64add, SFadd. cbn [cond_Zopp]. rewrite <- Pos2Z.inj_add.
  pose proof (binary_round_signed false
                (fst (shl_align mx ex (Z.min ex ey)) + fst (shl_align my ey (Z.min ex ey)))
                (Z.min ex ey) ltac:(lia)) as Hs.
  cbn [binary_normalize].
  destruct (binary_round prec emax false _ (Z.min ex ey)) as [| s | | s m e];
    cbn in Hs; try contradiction; subst s; intros H; cbn in H; discriminate H.
Qed.

(** The cost per token of no tokens at all is NaN, whatever the prices:
    for [t] and [out] not negative with [t + out = 0],
    [(t / 1e6 * p + out / 1e6 * q) / (t + out)] is NaN. *)
Lemma cost_per_token_nan (t out p q : float) :
  (0 <=? t) = true -> (0 <=? out) = true -> (t + out =? 0) = true ->
  (t / 1000000 * p + out / 1000000 * q) / (t + out) = nan.
Proof.
  rewrite !FloatAxioms.leb_spec, FloatAxioms.eqb_spec, FloatAxioms.add_spec.
  change (Prim2SF 0) with (S754_zero false).
  intros Ht Hout Hsum.
  destruct (SFadd_nonneg_zero _ _ (Prim2SF_valid t) (Prim2SF_valid out) Ht Hout Hsum)
    as [Zt Zout].
  apply Prim2SF_nan.
  rewrite FloatAxioms.div_spec, !FloatAxioms.add_spec, !FloatAxioms.mul_spec,
    !FloatAxioms.div_spec.
  change (Prim2SF 1000000) with (S754_finite false 8589934592000000 (-33)).
  pose proof (SFadd_is_zero _ _ Zt Zout) as Zsum.
  destruct (SF64add (Prim2SF t) (Prim2SF out)) as [s | | |]; try contradiction.
  apply SFdiv_zero_or_nan, SFadd_zero_or_nan; apply SFmul_is_zero, SFdiv_zero_finite;
    assumption.
Qed.

Lemma ltb_zero_not_negative (x : float) :
  (x <? 0) = false <-> not_negative (Prim2SF x).
Proof.
  rewrite FloatAxioms.ltb_spec. change (Prim2SF 0) with (S754_zero false).
  destruct (Prim2SF x) as [s | [] | | [] m e]; cbn; split; try tauto; try discriminate;
    try reflexivity.
Qed.

Lemma leb_zero_not_negative (x : float) :
  (0 <=? x) = true -> (x <? 0) = false.
Proof.
  rewrite FloatAxioms.ltb_spec, FloatAxioms.leb_spec. change (Prim2SF 0) with (S754_zero false).
  destruct (Prim2SF x) as [s | [] | | [] m e]; cbn; try tauto; try discriminate.
Qed.

Lemma mul_not_negative (x y : float) :
  (x <? 0) = false -> (y <? 0) = false -> (x * y <? 0) = false.
Proof.
  rewrite !ltb_zero_not_negative, FloatAxioms.mul_spec. apply SFmul_not_negative.
Qed.

Lemma add_not_negative (x y : float) :
  (x <? 0) = false -> (y <? 0) = false -> (x + y <? 0) = false.
Proof.
  rewrite !ltb_zero_not_negative, FloatAxioms.add_spec.
  apply SFadd_not_negative; apply Prim2SF_valid.
Qed.

Lemma div_million_not_negative (x : float) :
  (x <? 0) = false -> (x / 1000000 <? 0) = false.
Proof.
  rewrite !ltb_zero_not_negative, FloatAxioms.div_spec.
  change (Prim2SF 1000000) with (S754_finite false 8589934592000000 (-33)).
  apply SFdiv_not_negative.
Qed.

(** NaN absorbs a sum. *)
Lemma add_nan_l (x y : float) : is_nan x = true -> is_nan (x + y) = true.
Proof.
  rewrite !is_nan_number, FloatAxioms.add_spec.
  destruct (Prim2SF x); cbn; try discriminate. reflexivity.
Qed.

Lemma add_nan_r (x y : float) : is_nan y = true -> is_nan (x + y) = true.
Proof.
  rewrite !is_nan_number, FloatAxioms.add_spec.
  destruct (Prim2SF y); cbn; try discriminate. destruct (Prim2SF x); reflexivity.
Qed.



Lemma Math_min_cap (a x : float) :
  is_nan a = false -> (a <? Math_min a x) = false.
Proof.
  intros Ha. unfold Math_min. rewrite Ha. cbn [orb].
  destruct (is_nan x) eqn:Hx.
  - rewrite ltb_rank. change (number (Prim2SF nan)) with false.
    rewrite andb_false_r. reflexivity.
  - destruct (a <? x) eqn:Hax.
    + rewrite ltb_rank. rewrite andb_diag. rewrite Z.ltb_irrefl. apply andb_false_r.
    + destruct (x <? a); [assumption |]. destruct (get_sign a); [| assumption].
      rewrite ltb_rank. rewrite andb_diag. rewrite Z.ltb_irrefl. apply andb_false_r.
Qed.

Lemma ltb_trans (a b c : float) :
  (a <? b) = true -> (b <? c) = true -> (a <? c) = true.
Proof.
  rewrite !ltb_rank.
  destruct (number (Prim2SF a)), (number (Prim2SF b)), (number (Prim2SF c));
    cbn [andb]; try discriminate.
  intros H1 H2. apply Z.ltb_lt in H1, H2. apply Z.ltb_lt. lia.
Qed.

Lemma ltb_nan_l (a b : float) : is_nan a = true -> (a <? b) = false.
Proof.
  rewrite is_nan_number, ltb_rank. destruct (number (Prim2SF a)); [discriminate | reflexivity].
Qed.

(** The binary64 value of a natural number is zero or positive, never the
    negative zero. *)
Lemma of_uint63_plus_signed n : plus_signed (Prim2SF (of_uint63 n)).
Proof.
  rewrite of_uint63_spec.
  pose proof (binary_normalize_sign (Uint63.to_Z n) 0
                ltac:(unfold SpecFloat.emin, prec, emax; lia)) as Hs.
  pose proof (Uint63.to_Z_bounded n) as Hb.
  change Uint63Axioms.to_Z with Uint63.to_Z.
  destruct (Uint63.to_Z n) as [| p | p]; try lia.
  - rewrite Hs. exact I.
  - destruct (binary_normalize prec emax (Z.pos p) 0 false) as [| s | | s m e];
      cbn in Hs; try contradiction; subst s; exact I.
Qed.

Lemma SFadd_plus_signed x y :
  valid_binary x = true -> valid_binary y = true ->
  plus_signed x -> not_negative y -> plus_signed (SF64add x y).
Proof.
  intros Vx Vy.
  destruct x as [[] | [] | | [] mx ex], y as [sy | [] | | [] my ey];
    cbn [not_negative plus_signed]; try tauto; try (intros _ _; exact I);
    try (destruct sy; intros _ _; exact I).
  intros _ _.
  cbn [valid_binary] in Vx, Vy.
  pose proof (proj1 (proj1 (bounded_inv _ _ Vx))) as Hxe.
  pose proof (proj1 (proj1 (bounded_inv _ _ Vy))) as Hye.
  unfold SF64add, SFadd. cbn [cond_Zopp]. rewrite <- Pos2Z.inj_add.
  pose proof (binary_round_signed false
                (fst (shl_align mx ex (Z.min ex ey)) + fst (shl_align my ey (Z.min ex ey)))
                (Z.min ex ey) ltac:(lia)) as Hs.
  cbn [binary_normalize].
  destruct (binary_round prec emax false _ (Z.min ex ey)) as [| s | | s m e];
    cbn in Hs; try contradiction; subst s; exact I.
Qed.

Lemma SFdiv_plus_signed x y :
  not_negative x -> plus_signed y -> not_negative (SF64div x y).
Proof.
  destruct x as [[] | [] | | [] mx ex], y as [[] | [] | | [] my ey];
    cbn [not_negative plus_signed]; try tauto; try (intros _ _; exact I).
  intros _ _. apply SFdiv_not_negative. exact I.
Qed.

(** Sums that start from 0 and add numbers that are at least 0 never meet
    the negative zero or NaN. *)
Lemma add_from_zero (s c : float) :
  plus_signed (Prim2SF s) -> is_nan s = false ->
  (0 <=? c) = true ->
  plus_signed (Prim2SF (s + c)) /\ is_nan (s + c) = false.
Proof.
  rewrite !is_nan_number, FloatAxioms.leb_spec, FloatAxioms.add_spec.
  change (Prim2SF 0) with (S754_zero false).
  pose proof (Prim2SF_valid s) as Vs. pose proof (Prim2SF_valid c) as Vc.
  intros Hs Hn Hc.
  assert (Hcn : not_negative (Prim2SF c) /\ number (Prim2SF c) = true).
  { destruct (Prim2SF c) as [[] | [] | | [] m e]; cbn in Hc |- *; try discriminate; auto. }
  destruct Hcn as [Hcn Hcnum].
  split; [apply SFadd_plus_signed; assumption |].
  destruct (Prim2SF s) as [[] | [] | | [] ms es], (Prim2SF c) as [[] | [] | | [] mc ec];
    cbn in Hs, Hn, Hcn, Hcnum |- *; try contradiction; try discriminate; try reflexivity.
  cbn [valid_binary] in Vs, Vc.
  pose proof (proj1 (proj1 (bounded_inv _ _ Vs))) as Hxe.
  pose proof (proj1 (proj1 (bounded_inv _ _ Vc))) as Hye.
  rewrite <- Pos2Z.inj_add.
  pose proof (binary_round_signed false
                (fst (shl_align ms es (Z.min es ec)) + fst (shl_align mc ec (Z.min es ec)))
                (Z.min es ec) ltac:(lia)) as Hr.
  cbn [binary_normalize].
  destruct (binary_round prec emax false _ (Z.min es ec)) as [| s' | | s' m e];
    cbn in Hr; try contradiction; reflexivity.
Qed.

(** Such a sum is falsy only when it is 0. *)
Lemma falsy_plus_zero (s : float) :
  plus_signed (Prim2SF s) -> is_nan s = false ->
  truthy (Some s) = false -> s = 0.
Proof.
  unfold truthy. intros Hs Hn. rewrite Hn, andb_true_r.
  intros H. apply negb_false_iff in H. rewrite FloatAxioms.eqb_spec in H.
  change (Prim2SF 0) with (S754_zero false) in H.
  apply Prim2SF_inj. change (Prim2SF 0) with (S754_zero false).
  destruct (Prim2SF s) as [[] | [] | | [] m e]; cbn in Hs, H; try contradiction;
    try discriminate. reflexivity.
Qed.


(** Multiplying a number by 0.2 gives a number. *)
Lemma mul_fifth_number (x : float) : is_nan x = false -> is_nan (x * 0.2) = false.
Proof.
  rewrite !is_nan_number, FloatAxioms.mul_spec.
  change (Prim2SF 0.2) with (S754_finite false 7205759403792794 (-55)).
  destruct (Prim2SF x) as [s | s | | s m e]; cbn [number negb]; try discriminate;
    try reflexivity.
  intros _. cbn [SF64mul SFmul].
  pose proof (binary_round_aux_sign (xorb s false) (Z.pos (m * 7205759403792794))
                (e + -55) loc_Exact ltac:(lia)) as H.
  destruct (binary_round_aux prec emax (xorb s false) _ (e + -55) loc_Exact);
    try contradiction; reflexivity.
Qed.

(** [Math.min(a, x)] of two numbers is a number that is at most [a]. *)
Lemma Math_min_le (a x : float) :
  is_nan a = false -> is_nan x = false ->
  is_nan (Math_min a x) = false /\ (Math_min a x <=? a) = true.
Proof.
  intros Ha Hx. unfold Math_min. rewrite Ha, Hx. cbn [orb].
  assert (Hrefl : (a <=? a) = true).
  { rewrite leb_rank, andb_diag, Z.leb_refl, andb_true_r.
    rewrite is_nan_number in Ha. apply negb_false_iff, Ha. }
  destruct (a <? x) eqn:Hax; [split; assumption |].
  pose proof (not_ltb_leb a x Ha Hx Hax) as Hle.
  destruct (x <? a); [split; assumption |]. destruct (get_sign a); split; assumption.
Qed.

Lemma is_nan_eq (x : float) : is_nan x = true -> x = nan.
Proof.
  rewrite is_nan_number. intros H. apply negb_true_iff in H.
  apply Prim2SF_nan. destruct (Prim2SF x); try discriminate. reflexivity.
Qed.

Lemma div_nan_l (x y : float) : is_nan x = true -> is_nan (x / y) = true.
Proof.
  rewrite !is_nan_number, FloatAxioms.div_spec.
  destruct (Prim2SF x); cbn; try discriminate. reflexivity.
Qed.

Lemma mul_nan_l (x y : float) : is_nan x = true -> is_nan (x * y) = true.
Proof.
  rewrite !is_nan_number, FloatAxioms.mul_spec.
  destruct (Prim2SF x); cbn; try discriminate. reflexivity.
Qed.

Lemma ltb_leb_trans (a b c : float) :
  (a <? b) = true -> (b <=? c) = true -> (a <? c) = true.
Proof.
  rewrite !ltb_rank, leb_rank.
  destruct (number (Prim2SF a)), (number (Prim2SF b)), (number (Prim2SF c));
    cbn [andb]; try discriminate.
  intros H1 H2. apply Z.ltb_lt in H1. apply Z.leb_le in H2. apply Z.ltb_lt. lia.
Qed.

Lemma leb_zero_spec (x : float) : (0 <=? x) = true <-> at_least_zero (Prim2SF x).
Proof.
  rewrite FloatAxioms.leb_spec. change (Prim2SF 0) with (S754_zero false).
  destruct (Prim2SF x) as [s | [] | | [] m e]; cbn; split; try tauto; try discriminate;
    try reflexivity.
Qed.

Lemma is_finite_spec (x : float) : is_finite x = true -> bounded_value (Prim2SF x).
Proof.
  unfold is_finite, is_infinity. rewrite is_nan_number.
  rewrite FloatAxioms.eqb_spec, FloatAxioms.abs_spec.
  change (Prim2SF infinity) with (S754_infinity false).
  destruct (Prim2SF x) as [s | s | | s m e]; cbn; try discriminate; try (intros _; exact I).
Qed.

Lemma amount_spec (x : float) :
  amount x -> bounded_value (Prim2SF x) /\ not_negative (Prim2SF x).
Proof.
  intros [Hle Hfin]. split; [apply is_finite_spec, Hfin |].
  apply ltb_zero_not_negative, leb_zero_not_negative, Hle.
Qed.

Lemma SFmul_amounts x y :
  bounded_value x -> not_negative x -> bounded_value y -> not_negative y ->
  at_least_zero (SF64mul x y).
Proof.
  destruct x as [sx | sx | | [] mx ex], y as [sy | sy | | [] my ey];
    cbn [bounded_value not_negative]; try tauto; try (intros _ _ _ _; exact I).
  intros _ _ _ _. cbn [SF64mul SFmul xorb].
  pose proof (binary_round_aux_sign false (Z.pos (mx * my)) (ex + ey) loc_Exact ltac:(lia)) as H.
  destruct (binary_round_aux prec emax false (Z.pos (mx * my)) (ex + ey) loc_Exact)
    as [s | s | | s m e]; try contradiction; subst; exact I.
Qed.

Lemma SFadd_at_least_zero x y :
  valid_binary x = true -> valid_binary y = true ->
  at_least_zero x -> at_least_zero y -> at_least_zero (SF64add x y).
Proof.
  intros Vx Vy.
  destruct x as [sx | [] | | [] mx ex], y as [sy | [] | | [] my ey];
    cbn [at_least_zero]; try tauto; try (intros _ _; exact I);
    try (destruct sx; intros _ _; exact I);
    try (destruct sx, sy; intros _ _; exact I).
  intros _ _.
  cbn [valid_binary] in Vx, Vy.
  pose proof (proj1 (proj1 (bounded_inv _ _ Vx))) as Hxe.
  pose proof (proj1 (proj1 (bounded_inv _ _ Vy))) as Hye.
  unfold SF64add, SFadd. cbn [cond_Zopp]. rewrite <- Pos2Z.inj_add.
  pose proof (binary_round_signed false
                (fst (shl_align mx ex (Z.min ex ey)) + fst (shl_align my ey (Z.min ex ey)))
                (Z.min ex ey) ltac:(lia)) as Hs.
  cbn [binary_normalize].
  destruct (binary_round prec emax false _ (Z.min ex ey)) as [| s | | s m e];
    cbn in Hs; try contradiction; subst s; exact I.
Qed.

(** The cost of an amount of tokens at a price that is an amount is a
    number, and at least zero. *)
Lemma cost_at_least_zero (t p : float) :
  bounded_value (Prim2SF t) -> not_negative (Prim2SF t) -> amount p ->
  (0 <=? t / 1000000 * p) = true.
Proof.
  intros Ht Htn Hp. apply amount_spec in Hp as [Hpb Hpn].
  apply leb_zero_spec. rewrite FloatAxioms.mul_spec, FloatAxioms.div_spec.
  change (Prim2SF 1000000) with (S754_finite false 8589934592000000 (-33)).
  apply SFmul_amounts; try assumption.
  - apply SFdiv_million_bounded; [apply Prim2SF_valid | assumption].
  - apply SFdiv_not_negative, Htn.
Qed.

Lemma add_at_least_zero (x y : float) :
  (0 <=? x) = true -> (0 <=? y) = true -> (0 <=? x + y) = true.
Proof.
  rewrite !leb_zero_spec, FloatAxioms.add_spec.
  apply SFadd_at_least_zero; apply Prim2SF_valid.
Qed.

(** A zero or a finite value is what [is_finite] accepts; a number that is
    at least zero is not NaN. *)
Lemma bounded_is_finite (x : float) : bounded_value (Prim2SF x) -> is_finite x = true.
Proof.
  intros Hb. unfold is_finite, is_infinity. rewrite is_nan_number.
  rewrite FloatAxioms.eqb_spec, FloatAxioms.abs_spec.
  change (Prim2SF infinity) with (S754_infinity false).
  destruct (Prim2SF x) as [s | s | | s m e]; try contradiction; reflexivity.
Qed.

Lemma leb_number (x : float) : (0 <=? x) = true -> is_nan x = false.
Proof.
  rewrite is_nan_number, leb_rank.
  destruct (number (Prim2SF x)); [reflexivity |].
  rewrite andb_false_r. discriminate.
Qed.

Lemma foldl_at_least_zero costs : forall s,
  (0 <=? s) = true ->
  Forall (fun c => (0 <=? c) = true) costs ->
  (0 <=? foldl (fun sum cost => sum + cost) s costs) = true.
Proof.
  induction costs as [| c l IH]; intros s Hs Hall; [exact Hs |].
  inversion Hall; subst. cbn [foldl]. apply IH; [| assumption].
  apply add_at_least_zero; assumption.
Qed.

End Binary64Facts.

(* ===================================================================== *)
(** ** [Array.prototype.sort]                                            *)
(* ===================================================================== *)

Section SortFacts.

Context {A : Type} (comparefn : A -> A -> float).

Lemma sort_insert_perm a l : Permutation (sort_insert comparefn a l) (a :: l).
Proof.
  induction l as [| b l IH]; cbn [sort_insert]; [reflexivity |].
  destruct (PrimFloat.ltb 0 (comparefn a b)); [| reflexivity].
  rewrite IH. apply perm_swap.
Qed.

Lemma Array_sort_perm l : Permutation (Array_sort comparefn l) l.
Proof.
  induction l as [| a l IH]; cbn; [reflexivity |].
  fold (Array_sort comparefn l). rewrite sort_insert_perm. apply perm_skip, IH.
Qed.



Variable R : A -> A -> Prop.
Hypothesis R_behind : forall a b, PrimFloat.ltb 0 (comparefn a b) = true -> R b a.
Hypothesis R_stay : forall a b, PrimFloat.ltb 0 (comparefn a b) = false -> R a b.

Lemma sort_insert_HdRel a b l :
  R b a -> HdRel R b l -> HdRel R b (sort_insert comparefn a l).
Proof.
  intros Hba Hl. destruct l as [| c l]; cbn [sort_insert]; [auto |].
  destruct (PrimFloat.ltb 0 (comparefn a c)); [| auto].
  inversion Hl; auto.
Qed.

Lemma sort_insert_sorted a l :
  Sorted R l -> Sorted R (sort_insert comparefn a l).
Proof.
  induction l as [| b l IH]; cbn [sort_insert]; intros Hs; [auto |].
  destruct (PrimFloat.ltb 0 (comparefn a b)) eqn:Hab.
  - inversion Hs; subst. constructor; [auto |].
    apply sort_insert_HdRel; auto.
  - constructor; [assumption |]. constructor. auto.
Qed.

Lemma Array_sort_sorted l : Sorted R (Array_sort comparefn l).
Proof.
  induction l as [| a l IH]; cbn; [constructor |].
  apply sort_insert_sorted, IH.
Qed.

End SortFacts.

Lemma by_savings_pos a b :
  PrimFloat.ltb 0 (by_savings a b)
  = PrimFloat.ltb (Alternative.savings a) (Alternative.savings b).
Proof. apply Binary64Facts.sub_pos. Qed.

Lemma sort_by_savings_descending l : Sorted descending (Array_sort by_savings l).
Proof.
  apply Array_sort_sorted; intros a b; rewrite by_savings_pos; unfold descending.
  - apply Binary64Facts.ltb_asym.
  - auto.
Qed.


(** Without NaN among the savings, "no ascent" between neighbours is a
    descending order of the whole list. *)
Lemma descending_at_least l :
  Sorted descending l ->
  Forall (fun a => is_nan (Alternative.savings a) = false) l ->
  StronglySorted at_least l.
Proof.
  induction 1 as [| a l Hs IH Hhd]; intros Hnan; [constructor |].
  inversion Hnan as [| ? ? Ha Hl]; subst.
  specialize (IH Hl). constructor; [assumption |].
  destruct l as [| b l]; [constructor |].
  inversion Hhd as [| ? ? Hab]; subst.
  inversion Hl as [| ? ? Hb Hl']; subst.
  assert (Hfirst : at_least a b) by (apply Binary64Facts.not_ltb_leb; assumption).
  constructor; [assumption |].
  inversion IH as [| ? ? _ Hall]; subst.
  eapply Forall_impl; [exact Hall |].
  intros c Hbc. unfold at_least in *. eapply Binary64Facts.leb_trans; eassumption.
Qed.

Lemma non_null_map_In {X Y} (f : X -> option Y) l y :
  In y (non_null (map f l)) <-> exists x, In x l /\ f x = Some y.
Proof.
  unfold non_null. induction l as [| x l IH]; cbn.
  - split; [tauto | intros (x & [] & _)].
  - destruct (f x) as [y' |] eqn:Hx; cbn; rewrite ?IH.
    + split.
      * intros [<- | (x' & Hin & Hf)]; eauto.
      * intros (x' & [<- | Hin] & Hf); [left; congruence | right; eauto].
    + split.
      * intros (x' & Hin & Hf); eauto.
      * intros (x' & [<- | Hin] & Hf); [congruence | eauto].
Qed.

(* ===================================================================== *)
(** ** The community document and the initialisation of the catalog      *)
(* ===================================================================== *)


Lemma convertLiteLLMPricing_snoc data entry :
  convertLiteLLMPricing (data ++ [entry])
  = convert_step (convertLiteLLMPricing data) entry.
Proof. unfold convertLiteLLMPricing. apply foldl_snoc. Qed.

Lemma convert_step_kept pricing litellmKey model :
  convert_step pricing (litellmKey, model) =
    if kept (litellmKey, model)
    then match modelMappings !! litellmKey with
         | Some m => <[Mapping.key m := converted m model]> pricing
         | None => pricing
         end
    else pricing.
Proof.
  unfold convert_step, kept. cbn [fst snd].
  destruct (truthy (LiteLLMModel.input_cost_per_token model)),
           (truthy (LiteLLMModel.output_cost_per_token model));
    cbn [negb orb andb]; rewrite ?andb_false_r, ?andb_true_r; try reflexivity.
  destruct (modelMappings !! litellmKey); reflexivity.
Qed.

Lemma convert_step_skip pricing entry :
  kept entry = false -> convert_step pricing entry = pricing.
Proof. destruct entry as [k model]. rewrite convert_step_kept. intros ->. reflexivity. Qed.


(** Every record of the converted catalog comes from an entry of the
    document under a key of [modelMappings], with both costs. *)
Lemma convertLiteLLMPricing_origin data k r :
  convertLiteLLMPricing data !! k = Some r ->
  exists litellmKey model m,
    In (litellmKey, model) data
    /\ modelMappings !! litellmKey = Some m
    /\ Mapping.key m = k
    /\ kept (litellmKey, model) = true
    /\ r = converted m model.
Proof.
  revert k r. induction data as [| [litellmKey model] data IH] using rev_ind; intros k r.
  - unfold convertLiteLLMPricing. cbn. rewrite lookup_empty. discriminate.
  - rewrite convertLiteLLMPricing_snoc, convert_step_kept.
    assert (Hold : convertLiteLLMPricing data !! k = Some r ->
                   exists litellmKey0 model0 m,
                     In (litellmKey0, model0) (data ++ [(litellmKey, model)])
                     /\ modelMappings !! litellmKey0 = Some m
                     /\ Mapping.key m = k
                     /\ kept (litellmKey0, model0) = true
                     /\ r = converted m model0).
    { intros H. apply IH in H as (k0 & model0 & m & Hin & H).
      exists k0, model0, m. split; [apply in_or_app; auto | exact H]. }
    destruct (kept (litellmKey, model)) eqn:Hk; [| exact Hold].
    destruct (modelMappings !! litellmKey) as [m |] eqn:Hm; [| exact Hold].
    destruct (decide (Mapping.key m = k)) as [<- | Hne].
    + rewrite lookup_insert_eq. intros [= <-].
      exists litellmKey, model, m. repeat split; try assumption.
      apply in_or_app. right. left. reflexivity.
    + rewrite lookup_insert_ne by assumption. exact Hold.
Qed.


(** An entry with a cost of zero is skipped like one without the cost. *)
Lemma free_entry_skipped pricing litellmKey model :
  LiteLLMModel.input_cost_per_token model = Some 0%float
  \/ LiteLLMModel.output_cost_per_token model = Some 0%float ->
  convert_step pricing (litellmKey, model) = pricing.
Proof.
  intros H. apply convert_step_skip. unfold kept. cbn [fst snd].
  destruct H as [-> | ->]; cbn; rewrite ?andb_false_r; reflexivity.
Qed.


Lemma fetchCommunityPricing_total outcome :
  fetchCommunityPricing outcome = inr (fetched outcome).
Proof. destruct outcome; reflexivity. Qed.

(** What [getCachedPricing] returns: the cache while it is fresh, else the
    merge of what the request brought, which it caches. *)
Lemma getCachedPricing_eq fallbackPricing now outcome st :
  getCachedPricing fallbackPricing now outcome st =
    let merged := mergePricing (fetched outcome) fallbackPricing in
    let refreshed :=
      inr (merged, {| Store.cachedPricing := Some merged;
                      Store.cacheTimestamp := now;
                      Store.runtimePricing := Store.runtimePricing st;
                      Store.pricingInitialized := Store.pricingInitialized st |}) in
    match Store.cachedPricing st with
    | Some cached =>
        if (now - Store.cacheTimestamp st <? CACHE_DURATION)%Z then inr (cached, st)
        else refreshed
    | None => refreshed
    end.
Proof.
  unfold getCachedPricing. rewrite fetchCommunityPricing_total. reflexivity.
Qed.

Lemma mergePricing_lookup communityPricing fallbackPricing k :
  mergePricing communityPricing fallbackPricing !! k =
    match communityPricing !! k with
    | Some r => Some r
    | None => fallbackPricing !! k
    end.
Proof.
  unfold mergePricing. rewrite lookup_union.
  destruct (communityPricing !! k), (fallbackPricing !! k); reflexivity.
Qed.








(** The store of C6, read back: after [initializePricing] on the loaded
    modules the catalog is [catalog_after outcome]. *)
Lemma initializePricing_catalog now outcome :
  exists st',
    initializePricing now outcome initial_store = inr st'
    /\ Store.runtimePricing st' = catalog_after outcome.
Proof.
  unfold initializePricing. rewrite getCachedPricing_eq.
  eexists. split; reflexivity.
Qed.


(* ===================================================================== *)
(** ** Tokenizer and estimator                                           *)
(* ===================================================================== *)

Section CoreFacts.

(** [tk] is tiktoken's [encoding_for_model], [rp] the catalog in
    [runtimePricing]. *)
Variable tk : string -> option Tiktoken.
Variable rp : Catalog.

Lemma Math_ceil_div_4 n : (0 <= n -> 0 <= Math_ceil_div n 4 /\ 4 * (Math_ceil_div n 4 - 1) < n <= 4 * Math_ceil_div n 4)%Z.
Proof. unfold Math_ceil_div. intros Hn. pose proof (Z.div_mod (- n) 4) as H. pose proof (Z.mod_pos_bound (- n) 4). lia. Qed.

Lemma length_nonneg text : (0 <= Js.length text)%Z.
Proof. unfold Js.length. lia. Qed.

(** [countOpenAITokens] is the count of tiktoken under the encoder of the
    model, or under the fallback encoding when there is none. *)
Lemma countOpenAITokens_tiktoken text model :
  exists name, countOpenAITokens tk rp text model = tiktoken_count tk name text model.
Proof.
  unfold countOpenAITokens, tiktoken_count, encoder, try_catch, bind.
  set (encoding := match getModelPricing rp model ≫= ModelPricing.encoding with
                   | Some e => if String.eqb e "" then "cl100k_base" else e
                   | None => "cl100k_base"
                   end).
  destruct (tk model) as [enc |] eqn:Hm.
  - exists model. rewrite Hm. reflexivity.
  - exists encoding. destruct (tk encoding); reflexivity.
Qed.

Lemma countLlamaTokens_tiktoken text model :
  countLlamaTokens tk text model = tiktoken_count tk "cl100k_base" text model.
Proof.
  unfold countLlamaTokens, tiktoken_count, encoder.
  destruct (tk "cl100k_base"); reflexivity.
Qed.

Lemma countTokens_by_length text model :
  counted_by_length model = true ->
  countTokens tk rp text model = inr (length_heuristic text model).
Proof.
  unfold counted_by_length, countTokens. intros H.
  apply andb_prop in H as [Hgpt H]. apply negb_true_iff in Hgpt. rewrite Hgpt.
  destruct (includes (toLowerCase model) "claude"); [reflexivity |].
  cbn in H. rewrite H. reflexivity.
Qed.

(** Every count is by length or by tiktoken. *)
Lemma countTokens_cases text model :
  countTokens tk rp text model = inr (length_heuristic text model)
  \/ exists name, countTokens tk rp text model = tiktoken_count tk name text model.
Proof.
  unfold countTokens.
  repeat match goal with |- context [if ?b then _ else _] => destruct b end;
    first [left; reflexivity
          | right; apply countOpenAITokens_tiktoken
          | right; eexists; apply countLlamaTokens_tiktoken].
Qed.

Lemma tiktoken_count_inr name text model tc :
  tiktoken_count tk name text model = inr tc ->
  (0 <= TokenCount.tokens tc)%Z
  /\ TokenCount.characters tc = Js.length text /\ TokenCount.model tc = model.
Proof.
  unfold tiktoken_count. destruct (tk name); [| discriminate].
  intros [= <-]. cbn. repeat split. lia.
Qed.

Lemma countTokens_inr text model tc :
  countTokens tk rp text model = inr tc ->
  (0 <= TokenCount.tokens tc)%Z
  /\ TokenCount.characters tc = Js.length text /\ TokenCount.model tc = model.
Proof.
  destruct (countTokens_cases text model) as [H | [name H]]; rewrite H.
  - intros [= <-]. cbn. repeat split.
    apply Math_ceil_div_4, length_nonneg.
  - apply tiktoken_count_inr.
Qed.

(** What [calculateCost] returns, in one equation. *)
Lemma calculateCost_eq inputText model out :
  calculateCost tk rp inputText model out =
    match getModelPricing rp model with
    | None => inl (UnknownModel model)
    | Some pricing =>
        match countTokens tk rp inputText model with
        | inl e => inl e
        | inr tc => inr (estimate_of model pricing (Number_of_Z (TokenCount.tokens tc)) out)
        end
    end.
Proof.
  unfold calculateCost.
  destruct (getModelPricing rp model); [| reflexivity].
  destruct (countTokens tk rp inputText model); reflexivity.
Qed.

Lemma countTokens_inl text model e :
  countTokens tk rp text model = inl e ->
  exists name, e = ExternalError name /\ tk name = None.
Proof.
  destruct (countTokens_cases text model) as [H | [name H]]; rewrite H; [discriminate |].
  unfold tiktoken_count. destruct (tk name) eqn:Hn; [discriminate |].
  intros [= <-]. eauto.
Qed.

Lemma getModelPricing_lookup model pricing :
  getModelPricing rp model = Some pricing -> exists k, rp !! k = Some pricing.
Proof.
  unfold getModelPricing.
  destruct (rp !! toLowerCase model) as [p |] eqn:H; [intros [= <-]; eauto |].
  destruct (MODEL_ALIASES !! toLowerCase model) as [aliasedModel |]; [eauto | discriminate].
Qed.

(** With [cl100k_base] in tiktoken and no other encoding named in the
    catalog, every count is returned. *)
Lemma countTokens_ready text model :
  tiktoken_ready tk -> encodings_known rp ->
  exists tc, countTokens tk rp text model = inr tc.
Proof.
  intros [enc Henc] Hrp.
  assert (Hopen : exists tc, countOpenAITokens tk rp text model = inr tc).
  { unfold countOpenAITokens, encoder, try_catch, bind.
    destruct (tk model) as [enc' |]; [eexists; reflexivity |].
    destruct (getModelPricing rp model) as [pricing |] eqn:Hp; cbn [mbind option_bind].
    - apply getModelPricing_lookup in Hp as [k Hk].
      destruct (Hrp k pricing Hk) as [-> | ->]; cbn; rewrite Henc; eexists; reflexivity.
    - cbn. rewrite Henc. eexists. reflexivity. }
  unfold countTokens.
  repeat match goal with |- context [if ?b then _ else _] => destruct b end;
    try exact Hopen; try (eexists; reflexivity).
  unfold countLlamaTokens, encoder, bind. rewrite Henc. eexists. reflexivity.
Qed.

Lemma Number_of_Z_nonneg z : (0 <= z)%Z -> PrimFloat.leb 0 (Number_of_Z z) = true.
Proof.
  intros Hz. unfold Number_of_Z. destruct (Z.ltb_spec z 0); [lia |].
  apply Binary64Facts.of_uint63_nonneg.
Qed.

(** C1. For every text, every model key the catalog resolves and every
    expected output count [out >= 0], the estimate has
    [inputCost = inputTokens / 1_000_000 * inputPricePerMillion],
    [outputCost = out / 1_000_000 * outputPricePerMillion],
    [totalCost = inputCost + outputCost] and
    [costPerToken = totalCost / (inputTokens + out)], where [inputTokens] is
    the count of the tokenizer adapter; when [inputTokens + out = 0] the
    [costPerToken] is not finite (it is NaN). *)
Theorem calculateCost_formulas text model (out : float) pricing tc :
  getModelPricing rp model = Some pricing ->
  countTokens tk rp text model = inr tc ->
  PrimFloat.leb 0 out = true ->
  exists est,
    calculateCost tk rp text model out = inr est
    /\ CostEstimate.inputTokens est = Number_of_Z (TokenCount.tokens tc)
    /\ CostEstimate.outputTokens est = out
    /\ CostEstimate.inputCost est
       = (CostEstimate.inputTokens est / 1000000
          * ModelPricing.inputPricePerMillion pricing)%float
    /\ CostEstimate.outputCost est
       = (out / 1000000 * ModelPricing.outputPricePerMillion pricing)%float
    /\ CostEstimate.totalCost est
       = (CostEstimate.inputCost est + CostEstimate.outputCost est)%float
    /\ CostEstimate.costPerToken est
       = (CostEstimate.totalCost est / (CostEstimate.inputTokens est + out))%float
    /\ (PrimFloat.eqb (CostEstimate.inputTokens est + out) 0 = true ->
        is_finite (CostEstimate.costPerToken est) = false
        /\ is_nan (CostEstimate.costPerToken est) = true).
Proof.
  intros Hp Htc Hout. rewrite calculateCost_eq, Hp, Htc.
  eexists. split; [reflexivity |]. cbn. do 6 (split; [reflexivity |]).
  intros Hsum. apply countTokens_inr in Htc as [Ht _].
  rewrite Binary64Facts.cost_per_token_nan;
    [split; reflexivity | apply Number_of_Z_nonneg, Ht | exact Hout | exact Hsum].
Qed.


(** C4. [countTokens] looks at the lowercased key in a fixed order: with
    [gpt] in it the count is that of the exact tokenizer
    ([countOpenAITokens]); otherwise, with [claude] or [gemini] in it, the
    count is the length divided by 4, rounded up; otherwise the count is
    again that of the exact tokenizer: under [cl100k_base] for a key with
    [llama] in it, and [countOpenAITokens] for every other key. *)
Theorem countTokens_dispatch text model :
  let key := toLowerCase model in
  (includes key "gpt" = true ->
     countTokens tk rp text model = countOpenAITokens tk rp text model
     /\ exists name, countTokens tk rp text model = tiktoken_count tk name text model)
  /\ (includes key "gpt" = false ->
      includes key "claude" || includes key "gemini" = true ->
      countTokens tk rp text model = inr (length_heuristic text model))
  /\ (includes key "gpt" = false ->
      includes key "claude" = false ->
      includes key "gemini" = false ->
      (exists name, countTokens tk rp text model = tiktoken_count tk name text model)
      /\ (includes key "llama" = true ->
          countTokens tk rp text model = tiktoken_count tk "cl100k_base" text model)
      /\ (includes key "llama" = false ->
          countTokens tk rp text model = countOpenAITokens tk rp text model)).
Proof.
  cbn zeta. split; [| split].
  - intros Hgpt. unfold countTokens. rewrite Hgpt.
    split; [reflexivity | apply countOpenAITokens_tiktoken].
  - intros Hgpt Hfam. apply countTokens_by_length.
    unfold counted_by_length. rewrite Hgpt, Hfam. reflexivity.
  - intros Hgpt Hclaude Hgemini. unfold countTokens. rewrite Hgpt, Hclaude, Hgemini.
    destruct (includes (toLowerCase model) "llama").
    + rewrite countLlamaTokens_tiktoken. split; [eauto |]. split; [reflexivity | discriminate].
    + split; [apply countOpenAITokens_tiktoken |]. split; [discriminate | reflexivity].
Qed.

(** C10. Whatever branch of [countTokens] does the count, the [TokenCount]
    it returns has the length of the text as [characters] and the key it was
    given as [model], and it returns one unless tiktoken has no encoder for
    the name it is asked; the same holds of each of the four counting
    functions called on its own. *)
Theorem countTokens_fields text model :
  match countTokens tk rp text model with
  | inr tc =>
      TokenCount.characters tc = Js.length text /\ TokenCount.model tc = model
  | inl e =>
      counted_by_length model = false
      /\ exists name, e = ExternalError name /\ tk name = None
  end
  /\ (forall count tc,
        In count [countOpenAITokens tk rp; countClaudeTokens; countGeminiTokens;
                  countLlamaTokens tk] ->
        count text model = inr tc ->
        TokenCount.characters tc = Js.length text /\ TokenCount.model tc = model).
Proof.
  split.
  - destruct (countTokens tk rp text model) as [e | tc] eqn:H.
    + split; [| eapply countTokens_inl, H].
      destruct (counted_by_length model) eqn:Hb; [| reflexivity].
      rewrite countTokens_by_length in H by assumption. discriminate.
    + apply countTokens_inr in H. tauto.
  - intros count tc Hin H.
    destruct Hin as [<- | [<- | [<- | [<- | []]]]].
    + destruct (countOpenAITokens_tiktoken text model) as [name Hname].
      rewrite Hname in H. apply tiktoken_count_inr in H. tauto.
    + injection H as <-. split; reflexivity.
    + injection H as <-. split; reflexivity.
    + rewrite countLlamaTokens_tiktoken in H. apply tiktoken_count_inr in H. tauto.
Qed.

(** C8. Scenario A: a text of exactly 4000 characters, a model at 5.00 per
    million input tokens and 15.00 per million output tokens that is counted
    by length (1000 tokens), 500 expected output tokens: [inputCost] is
    0.005, [outputCost] is 0.0075 and [totalCost] is 0.0125. *)
Theorem scenario_A text model pricing :
  Js.length text = 4000%Z ->
  counted_by_length model = true ->
  getModelPricing rp model = Some pricing ->
  ModelPricing.inputPricePerMillion pricing = 5.00%float ->
  ModelPricing.outputPricePerMillion pricing = 15.00%float ->
  exists est,
    calculateCost tk rp text model 500 = inr est
    /\ CostEstimate.inputTokens est = 1000%float
    /\ CostEstimate.inputCost est = 0.005%float
    /\ CostEstimate.outputCost est = 0.0075%float
    /\ CostEstimate.totalCost est = 0.0125%float.
Proof.
  intros Hlen Hfam Hp Hin Hout.
  rewrite calculateCost_eq, Hp, countTokens_by_length by assumption.
  eexists. split; [reflexivity |].
  unfold length_heuristic, estimate_of. cbn. rewrite Hlen, Hin, Hout.
  repeat split; reflexivity.
Qed.





End CoreFacts.



(** The dispatch reads the key as it is given, not the key an alias
    stands for: [sonnet] resolves to a Claude record and is counted by
    tiktoken. *)
Example alias_not_counted_by_length :
  getModelPricing MODEL_PRICING "sonnet" = MODEL_PRICING !! "claude-3-sonnet"
  /\ is_Some (getModelPricing MODEL_PRICING "sonnet")
  /\ counted_by_length "sonnet" = false
  /\ counted_by_length "claude-3-sonnet" = true.
Proof. repeat split; try reflexivity. eexists. vm_compute. reflexivity. Qed.

Example alias_same_record :
  getModelPricing MODEL_PRICING "gpt4o" = getModelPricing MODEL_PRICING "gpt-4o"
  /\ getModelPricing MODEL_PRICING "GPT-4O" = getModelPricing MODEL_PRICING "gpt-4o".
Proof. split; vm_compute; reflexivity. Qed.

(** C5. For every text and every model key counted by length that the
    catalog resolves, the [inputTokens] of the estimate do not depend on the
    run (not on tiktoken, not on the prices in the catalog, not on the
    expected output), are not negative, and are the least integer [c] with
    [length <= 4 * c]: the length divided by 4, rounded up. *)
Theorem heuristic_input_tokens tk1 rp1 out1 tk2 rp2 out2 text model pricing1 pricing2 :
  counted_by_length model = true ->
  getModelPricing rp1 model = Some pricing1 ->
  getModelPricing rp2 model = Some pricing2 ->
  exists est1 est2 c,
    calculateCost tk1 rp1 text model out1 = inr est1
    /\ calculateCost tk2 rp2 text model out2 = inr est2
    /\ CostEstimate.inputTokens est1 = CostEstimate.inputTokens est2
    /\ CostEstimate.inputTokens est1 = Number_of_Z c
    /\ c = Math_ceil_div (Js.length text) 4
    /\ (4 * (c - 1) < Js.length text <= 4 * c)%Z
    /\ (0 <= c)%Z
    /\ PrimFloat.leb 0 (CostEstimate.inputTokens est1) = true.
Proof.
  intros Hfam Hp1 Hp2.
  rewrite !calculateCost_eq, Hp1, Hp2, !countTokens_by_length by assumption.
  do 3 eexists. do 2 (split; [reflexivity |]).
  cbn [CostEstimate.inputTokens estimate_of length_heuristic TokenCount.tokens].
  do 3 (split; [reflexivity |]).
  destruct (Math_ceil_div_4 (Js.length text) (length_nonneg text)) as [H0 H4].
  repeat split; try lia.
  apply Number_of_Z_nonneg, H0.
Qed.

Lemma heuristic_input_tokens_witness :
  exists est,
    calculateCost no_encoder MODEL_PRICING "hello" "Claude-Sonnet-4" 500 = inr est
    /\ CostEstimate.inputTokens est = 2%float.
Proof.
  edestruct (heuristic_input_tokens no_encoder MODEL_PRICING 500 unit_encoder MODEL_PRICING 0
               "hello" "Claude-Sonnet-4")
    as (est1 & est2 & c & H1 & _ & _ & Hc & -> & _);
    [reflexivity | vm_compute; reflexivity | vm_compute; reflexivity |].
  exists est1. split; [exact H1 | rewrite Hc; reflexivity].
Defined.

Lemma calculateCost_formulas_witness :
  exists est,
    calculateCost no_encoder MODEL_PRICING "" "gemini-1.5-pro" 0 = inr est
    /\ is_nan (CostEstimate.costPerToken est) = true.
Proof.
  edestruct (calculateCost_formulas no_encoder MODEL_PRICING "" "gemini-1.5-pro" 0)
    as (est & H & _ & _ & _ & _ & _ & _ & Hz);
    [vm_compute; reflexivity | vm_compute; reflexivity | reflexivity |].
  exists est. split; [exact H | apply Hz].
  vm_compute in H. injection H as <-. reflexivity.
Defined.

(** A catalog in which a model counted by length costs 5.00 and 15.00: the
    default table under a community document that prices Claude Sonnet 4
    at 0.000005 and 0.000015 per token. *)
Lemma scenario_A_witness :
  exists est,
    calculateCost no_encoder
      (mergePricing
         (convertLiteLLMPricing
            [("claude-sonnet-4-20250514",
              litellm_entry (Some 0.000005%float) (Some 0.000015%float))])
         MODEL_PRICING)
      (text_of_length 4000) "claude-sonnet-4" 500 = inr est
    /\ CostEstimate.totalCost est = 0.0125%float.
Proof.
  edestruct (scenario_A no_encoder
               (mergePricing
                  (convertLiteLLMPricing
                     [("claude-sonnet-4-20250514",
                       litellm_entry (Some 0.000005%float) (Some 0.000015%float))])
                  MODEL_PRICING)
               (text_of_length 4000) "claude-sonnet-4")
    as (est & H & _ & _ & _ & Ht);
    [vm_compute; reflexivity | reflexivity | vm_compute; reflexivity
    | reflexivity | reflexivity |].
  exists est. split; [exact H | exact Ht].
Defined.


Lemma countTokens_dispatch_witness :
  countTokens no_encoder MODEL_PRICING "hello world" "Gemini-1.5-Pro"
  = inr (length_heuristic "hello world" "Gemini-1.5-Pro")
  /\ countTokens unit_encoder MODEL_PRICING "hello world" "llama-3.1-8b"
     = tiktoken_count unit_encoder "cl100k_base" "hello world" "llama-3.1-8b".
Proof.
  split.
  - destruct (countTokens_dispatch no_encoder MODEL_PRICING "hello world" "Gemini-1.5-Pro")
      as (_ & Hlength & _).
    apply Hlength; reflexivity.
  - destruct (countTokens_dispatch unit_encoder MODEL_PRICING "hello world" "llama-3.1-8b")
      as (_ & _ & Hexact).
    destruct (Hexact eq_refl eq_refl eq_refl) as (_ & Hllama & _).
    exact (Hllama eq_refl).
Defined.

(* ===================================================================== *)
(** ** Suggestions                                                       *)
(* ===================================================================== *)

Section OptimizerFacts.

Variable tk : string -> option Tiktoken.
Variable digits_general : float -> string.
Variable rp : Catalog.

(** The list is the concatenation of the five blocks, once the estimate of
    the mini sibling (computed for a premium key only) has returned. *)
Lemma getCostOptimizations_blocks estimate :
  getCostOptimizations tk digits_general rp estimate =
    let blocks :=
      (suggest_mini digits_general estimate ++ suggest_sonnet estimate
       ++ suggest_gpt4o estimate ++ suggest_context digits_general estimate
       ++ suggest_output digits_general estimate)%list in
    if premium estimate
    then
      match calculateCost tk rp "" "gpt-4o-mini" (CostEstimate.outputTokens estimate) with
      | inl e => inl e
      | inr _ => inr blocks
      end
    else inr blocks.
Proof.
  unfold getCostOptimizations, suggest_mini, suggest_sonnet, suggest_gpt4o,
    suggest_context, suggest_output, trim_input, trim_output, premium, push, bind, ok,
    toFixed, Number_toString.
  destruct (includes (CostEstimate.model estimate) "gpt-4o"
            && negb (includes (CostEstimate.model estimate) "mini"));
    [destruct (calculateCost tk rp "" "gpt-4o-mini" _); [reflexivity |] |];
    cbv zeta;
    destruct (includes (CostEstimate.model estimate) "claude-opus");
    destruct (includes (CostEstimate.model estimate) "gpt-4-turbo"
              || String.eqb (CostEstimate.model estimate) "gpt-4");
    destruct (PrimFloat.ltb 1000 (CostEstimate.inputTokens estimate));
    destruct (PrimFloat.ltb 1000 (CostEstimate.outputTokens estimate));
    reflexivity.
Qed.


Lemma in_fourth {X} (x : X) (a b c d e : list X) :
  In x d -> In x (a ++ b ++ c ++ d ++ e)%list.
Proof.
  intros H. do 3 (apply in_or_app; right). apply in_or_app. left. exact H.
Qed.

(** C7. For every estimate with [inputTokens > 1000] the list of
    [getCostOptimizations] has the suggestion to trim the input by
    [min(1000, inputTokens * 0.3)] tokens, with the savings of that many
    tokens at the input rate of the model (that number divided by 1_000_000,
    times the rate); on an estimate with [inputTokens = 2000] for a key with
    [gpt-4o] and without [mini] in it the list has the suggestion to switch
    to the mini sibling and the suggestion to reduce the context by 600
    tokens.  (The list is returned as soon as the estimate of the mini
    sibling, which the code computes for such a key, is.) *)
Theorem trim_input_suggested estimate :
  PrimFloat.ltb 1000 (CostEstimate.inputTokens estimate) = true ->
  (premium estimate = true ->
   exists mini,
     calculateCost tk rp "" "gpt-4o-mini" (CostEstimate.outputTokens estimate) = inr mini) ->
  exists opts,
    getCostOptimizations tk digits_general rp estimate = inr opts
    /\ (let reduction :=
          Math_min 1000 (CostEstimate.inputTokens estimate * 0.3)%float in
        In (optimization
              ("Reduce context by "
               ++ Js.Number_toString digits_general (Math_round reduction) ++ " tokens")
              ("Save $"
               ++ Js.toFixed digits_general 4
                    (reduction / 1000000
                     * ModelPricing.inputPricePerMillion
                         (CostEstimate.pricing estimate))%float))
           opts)
    /\ (CostEstimate.inputTokens estimate = 2000%float ->
        premium estimate = true ->
        (exists s, In (optimization "Switch to gpt-4o-mini" s) opts)
        /\ (exists s, In (optimization "Reduce context by 600 tokens" s) opts)).
Proof.
  intros Hin Hmini.
  assert (Hctx : suggest_context digits_general estimate
                 = [trim_input digits_general estimate
                      (Math_min 1000 (CostEstimate.inputTokens estimate * 0.3)%float)]).
  { unfold suggest_context. rewrite Hin. reflexivity. }
  exists (suggest_mini digits_general estimate ++ suggest_sonnet estimate
          ++ suggest_gpt4o estimate ++ suggest_context digits_general estimate
          ++ suggest_output digits_general estimate)%list.
  split; [| split].
  - rewrite getCostOptimizations_blocks. cbv zeta.
    destruct (premium estimate); [| reflexivity].
    destruct (Hmini eq_refl) as [mini ->]. reflexivity.
  - cbv zeta. apply in_fourth. rewrite Hctx. left. reflexivity.
  - intros H2000 Hprem. split.
    + eexists. apply in_or_app. left. unfold suggest_mini. rewrite Hprem.
      left. reflexivity.
    + eexists. apply in_fourth. rewrite Hctx, H2000. left.
      unfold trim_input, optimization. f_equal.
Qed.

End OptimizerFacts.



Lemma trim_input_suggested_witness :
  exists opts,
    getCostOptimizations unit_encoder no_general_digits MODEL_PRICING gpt4o_estimate
    = inr opts
    /\ map Optimization.suggestion opts
       = ["Switch to gpt-4o-mini"; "Reduce context by 600 tokens"].
Proof.
  destruct (trim_input_suggested unit_encoder no_general_digits MODEL_PRICING gpt4o_estimate)
    as (opts & Hopts & _ & _);
    [reflexivity | intros _; eexists; vm_compute; reflexivity |].
  exists opts. split; [exact Hopts |].
  vm_compute in Hopts. injection Hopts as <-. reflexivity.
Defined.

(* ===================================================================== *)
(** ** Signs of the costs, a free baseline, the printed amount           *)
(* ===================================================================== *)

Lemma prices_not_negative_default : prices_not_negative MODEL_PRICING.
Proof.
  intros k r H. unfold MODEL_PRICING in H. apply elem_of_list_to_map_2 in H.
  repeat (apply elem_of_cons in H as [[= -> ->] | H]; [split; reflexivity |]).
  inversion H.
Qed.

Lemma length_append (a b : string) : Js.length (a ++ b) = (Js.length a + Js.length b)%Z.
Proof.
  unfold Js.length. induction a as [| c a IH].
  - reflexivity.
  - change (String c a ++ b) with (String c (a ++ b)). cbn [String.length].
    rewrite !Nat2Z.inj_succ. lia.
Qed.

Lemma counted_by_length_lower m1 m2 :
  toLowerCase m1 = toLowerCase m2 -> counted_by_length m1 = counted_by_length m2.
Proof. unfold counted_by_length. intros ->. reflexivity. Qed.

Lemma getModelPricing_lower rp m1 m2 :
  toLowerCase m1 = toLowerCase m2 -> getModelPricing rp m1 = getModelPricing rp m2.
Proof. unfold getModelPricing. intros ->. reflexivity. Qed.

Section CostFacts.

Variable tk : string -> option Tiktoken.
Variable rp : Catalog.

(** The three costs of an estimate are not below zero when the prices and
    the expected output are not. *)
Lemma costs_not_negative text model out est :
  prices_not_negative rp ->
  PrimFloat.ltb out 0 = false ->
  calculateCost tk rp text model out = inr est ->
  PrimFloat.ltb (CostEstimate.inputCost est) 0 = false
  /\ PrimFloat.ltb (CostEstimate.outputCost est) 0 = false
  /\ PrimFloat.ltb (CostEstimate.totalCost est) 0 = false.
Proof.
  intros Hrp Hout. rewrite calculateCost_eq.
  destruct (getModelPricing rp model) as [pricing |] eqn:Hp; [| discriminate].
  destruct (countTokens tk rp text model) as [e | tc] eqn:Htc; [discriminate |].
  intros [= <-]. cbn.
  apply getModelPricing_lookup in Hp as [k Hk]. destruct (Hrp k pricing Hk) as [Hi Ho].
  apply countTokens_inr in Htc as [Ht _].
  pose proof (Binary64Facts.leb_zero_not_negative _ (Number_of_Z_nonneg _ Ht)) as Htok.
  assert (Hic : PrimFloat.ltb (Number_of_Z (TokenCount.tokens tc) / 1000000
                               * ModelPricing.inputPricePerMillion pricing) 0 = false)
    by (apply Binary64Facts.mul_not_negative; [apply Binary64Facts.div_million_not_negative |];
        assumption).
  assert (Hoc : PrimFloat.ltb (out / 1000000 * ModelPricing.outputPricePerMillion pricing) 0
                = false)
    by (apply Binary64Facts.mul_not_negative; [apply Binary64Facts.div_million_not_negative |];
        assumption).
  repeat split; try assumption. apply Binary64Facts.add_not_negative; assumption.
Qed.

(** X1. With no price of the catalog below zero and an expected output that
    is not below zero, no cost of the estimate [calculateCost] returns is
    below zero: not the input cost, not the output cost, not their total,
    not the cost per token. *)
Theorem calculateCost_not_negative text model out est :
  prices_not_negative rp ->
  PrimFloat.ltb out 0 = false ->
  calculateCost tk rp text model out = inr est ->
  PrimFloat.ltb (CostEstimate.inputCost est) 0 = false
  /\ PrimFloat.ltb (CostEstimate.outputCost est) 0 = false
  /\ PrimFloat.ltb (CostEstimate.totalCost est) 0 = false
  /\ PrimFloat.ltb (CostEstimate.costPerToken est) 0 = false.
Proof.
  intros Hrp Hout Hest.
  destruct (costs_not_negative text model out est Hrp Hout Hest) as (Hic & Hoc & Htot).
  do 3 (split; [assumption |]).
  rewrite calculateCost_eq in Hest.
  destruct (getModelPricing rp model) as [pricing |]; [| discriminate].
  destruct (countTokens tk rp text model) as [e | tc] eqn:Htc; [discriminate |].
  injection Hest as <-. cbn in Htot |- *.
  apply countTokens_inr in Htc as [Ht _].
  apply Binary64Facts.ltb_zero_not_negative. rewrite FloatAxioms.div_spec.
  apply Binary64Facts.SFdiv_plus_signed; [apply Binary64Facts.ltb_zero_not_negative, Htot |].
  rewrite FloatAxioms.add_spec.
  apply Binary64Facts.SFadd_plus_signed; try apply Prim2SF_valid.
  - unfold Number_of_Z. destruct (Z.ltb_spec (TokenCount.tokens tc) 0); [lia |].
    apply Binary64Facts.of_uint63_plus_signed.
  - apply Binary64Facts.ltb_zero_not_negative, Hout.
Qed.


(** X3. The [compare] command takes the baseline out of its candidates by
    comparing the strings: a baseline named in another letter case than its
    key stays among them, and for the three keys counted by length the
    alternative under that key has the record, the input tokens and the
    total cost of the baseline itself. *)
Theorem compare_command_own_model text model k out current :
  In k ["claude-sonnet-4"; "claude-haiku-3-5"; "gemini-1.5-flash"] ->
  toLowerCase model = k -> model <> k ->
  calculateCost tk rp text model out = inr current ->
  exists cmp alt,
    compare_command tk rp text model out = inr cmp
    /\ CostComparison.current cmp = current
    /\ In alt (CostComparison.alternatives cmp)
    /\ Alternative.model alt = k
    /\ CostEstimate.pricing (Alternative.estimate alt) = CostEstimate.pricing current
    /\ CostEstimate.inputTokens (Alternative.estimate alt) = CostEstimate.inputTokens current
    /\ CostEstimate.totalCost (Alternative.estimate alt) = CostEstimate.totalCost current.
Proof.
  intros Hk Hlow Hne Hcur.
  assert (Hkk : toLowerCase k = k /\ counted_by_length k = true).
  { destruct Hk as [<- | [<- | [<- | []]]]; split; reflexivity. }
  destruct Hkk as [Hkk Hlen].
  assert (Hlm : toLowerCase model = toLowerCase k) by congruence.
  pose proof (counted_by_length_lower _ _ Hlm) as Hcl. rewrite Hlen in Hcl.
  pose proof (getModelPricing_lower rp _ _ Hlm) as Hp.
  rewrite calculateCost_eq in Hcur.
  destruct (getModelPricing rp model) as [pricing |] eqn:Hpm; [| discriminate].
  rewrite countTokens_by_length in Hcur by assumption. injection Hcur as <-.
  assert (Hest : calculateCost tk rp text k out
                 = inr (estimate_of k pricing
                          (Number_of_Z (TokenCount.tokens (length_heuristic text k))) out)).
  { rewrite calculateCost_eq, <- Hp, countTokens_by_length by assumption. reflexivity. }
  unfold compare_command, compareCosts, bind.
  rewrite calculateCost_eq, Hpm, countTokens_by_length by assumption.
  eexists. eexists. split; [reflexivity |]. split; [reflexivity |].
  cbn [CostComparison.alternatives].
  split; [| repeat split].
  - eapply Permutation_in; [symmetry; apply Array_sort_perm |].
    apply non_null_map_In. exists k. split.
    + unfold compare_candidates. apply list_elem_of_In, list_elem_of_filter.
      split; [congruence |]. apply list_elem_of_In.
      destruct Hk as [<- | [<- | [<- | []]]]; cbn; auto 6.
    + unfold compare_one. rewrite Hest. reflexivity.
  - reflexivity.
  - reflexivity.
  - reflexivity.
  - reflexivity.
Qed.

(** X10. For a model key counted by length, the count of a text in two
    parts is at most the sum of the counts of the parts and at least that
    sum less one; no part counts more than the whole; and only the empty
    text counts zero tokens. *)
Theorem heuristic_concat a b model :
  counted_by_length model = true ->
  exists ta tb tab,
    countTokens tk rp a model = inr ta
    /\ countTokens tk rp b model = inr tb
    /\ countTokens tk rp (a ++ b) model = inr tab
    /\ (TokenCount.tokens tab <= TokenCount.tokens ta + TokenCount.tokens tb
        <= TokenCount.tokens tab + 1)%Z
    /\ (TokenCount.tokens ta <= TokenCount.tokens tab)%Z
    /\ (TokenCount.tokens tb <= TokenCount.tokens tab)%Z
    /\ (TokenCount.tokens ta = 0%Z <-> a = "").
Proof.
  intros Hm. rewrite !countTokens_by_length by assumption.
  do 3 eexists. do 3 (split; [reflexivity |]).
  cbn [length_heuristic TokenCount.tokens]. rewrite length_append.
  pose proof (Math_ceil_div_4 _ (length_nonneg a)) as [Ha0 Ha].
  pose proof (Math_ceil_div_4 _ (length_nonneg b)) as [Hb0 Hb].
  assert (Hab0 : (0 <= Js.length a + Js.length b)%Z)
    by (pose proof (length_nonneg a); pose proof (length_nonneg b); lia).
  pose proof (Math_ceil_div_4 _ Hab0) as [Hc0 Hc].
  pose proof (length_nonneg a). pose proof (length_nonneg b).
  repeat split; try lia.
  - intros Hz. rewrite Hz in Ha. destruct a; [reflexivity |].
    unfold Js.length in Ha. cbn [String.length] in Ha. lia.
  - intros ->. reflexivity.
Qed.

End CostFacts.

Lemma calculateCost_not_negative_witness :
  exists est,
    calculateCost no_encoder MODEL_PRICING "hello" "claude-sonnet-4" 500 = inr est
    /\ PrimFloat.ltb (CostEstimate.totalCost est) 0 = false.
Proof.
  eexists. split; [vm_compute; reflexivity |].
  eapply (calculateCost_not_negative no_encoder MODEL_PRICING "hello" "claude-sonnet-4" 500);
    [apply prices_not_negative_default | reflexivity | vm_compute; reflexivity].
Defined.


Lemma compare_command_own_model_witness :
  exists cmp alt,
    compare_command no_encoder MODEL_PRICING "hello" "Claude-Sonnet-4" 500 = inr cmp
    /\ In alt (CostComparison.alternatives cmp)
    /\ Alternative.model alt = "claude-sonnet-4"
    /\ CostEstimate.totalCost (Alternative.estimate alt)
       = CostEstimate.totalCost (CostComparison.current cmp).
Proof.
  edestruct (compare_command_own_model no_encoder MODEL_PRICING "hello" "Claude-Sonnet-4"
               "claude-sonnet-4" 500)
    as (cmp & alt & Hcmp & Hcur & Hin & Hm & _ & _ & Ht);
    [left; reflexivity | reflexivity | discriminate | vm_compute; reflexivity |].
  exists cmp, alt. rewrite Hcur. auto.
Defined.

Lemma heuristic_concat_witness :
  exists ta tb tab,
    countTokens no_encoder MODEL_PRICING "hello" "claude-sonnet-4" = inr ta
    /\ countTokens no_encoder MODEL_PRICING " world" "claude-sonnet-4" = inr tb
    /\ countTokens no_encoder MODEL_PRICING "hello world" "claude-sonnet-4" = inr tab
    /\ (TokenCount.tokens tab <= TokenCount.tokens ta + TokenCount.tokens tb)%Z.
Proof.
  destruct (heuristic_concat no_encoder MODEL_PRICING "hello" " world" "claude-sonnet-4")
    as (ta & tb & tab & Ha & Hb & Hab & [Hle _] & _); [reflexivity |].
  exists ta, tb, tab. auto.
Defined.

Section FormatFacts.

Variable digits_general : float -> string.

(** X4. [formatCost] prints NaN as [$NaN]; every amount below zero, like
    every amount below 0.001, in thousandths with four decimals and the
    suffix [m]; an amount from 0.001 on with four decimals below 0.01, three
    below 1 and two from 1 on; zero as [$0.0000m] and the infinities as
    [$Infinity] and [$-Infinitym]. *)
Theorem formatCost_tiers cost :
  (is_nan cost = true -> formatCost digits_general cost = "$NaN")
  /\ (PrimFloat.ltb cost 0 = true ->
      formatCost digits_general cost
      = "$" ++ Js.toFixed digits_general 4 (cost * 1000)%float ++ "m")
  /\ (PrimFloat.ltb cost 0.001 = false -> is_nan cost = false ->
      PrimFloat.leb 0.001 cost = true
      /\ formatCost digits_general cost
         = "$" ++ Js.toFixed digits_general
                    (if PrimFloat.ltb cost 0.01 then 4
                     else if PrimFloat.ltb cost 1 then 3 else 2)
                    cost)
  /\ formatCost digits_general 0 = "$0.0000m"
  /\ formatCost digits_general infinity = "$Infinity"
  /\ formatCost digits_general neg_infinity = "$-Infinitym".
Proof.
  split; [| split; [| split; [| repeat split]]].
  - intros Hnan. unfold formatCost.
    rewrite !(Binary64Facts.ltb_nan_l cost) by assumption.
    rewrite Binary64Facts.is_nan_number in Hnan. apply negb_true_iff in Hnan.
    unfold toFixed, Js.toFixed.
    destruct (Prim2SF cost) eqn:E; try discriminate.
    apply Binary64Facts.Prim2SF_nan in E. subst cost. reflexivity.
  - intros Hneg. unfold formatCost.
    rewrite (Binary64Facts.ltb_trans cost 0 0.001 Hneg eq_refl). reflexivity.
  - intros Hlow Hnan.
    split; [apply Binary64Facts.not_ltb_leb; [assumption | reflexivity | assumption] |].
    unfold formatCost. rewrite Hlow.
    destruct (PrimFloat.ltb cost 0.01); [reflexivity |].
    destruct (PrimFloat.ltb cost 1); reflexivity.
Qed.

End FormatFacts.

(* ===================================================================== *)
(** ** The batch                                                         *)
(* ===================================================================== *)

Lemma Array_map_inr {A B} (f : A -> throws B) l bs :
  Array_map f l = inr bs <-> Forall2 (fun a b => f a = inr b) l bs.
Proof.
  revert bs. induction l as [| a l IH]; intros bs; cbn [Array_map].
  - unfold ok. split.
    + intros [= <-]. constructor.
    + intros H. inversion H. reflexivity.
  - unfold bind, ok. destruct (f a) as [e | b] eqn:Ha.
    + split; [discriminate |]. intros H. inversion H; subst. congruence.
    + destruct (Array_map f l) as [e | bs'] eqn:Hl.
      * split; [discriminate |]. intros H. inversion H as [| ? b' ? bs'' Hb Hrest]; subst.
        apply IH in Hrest. discriminate.
      * split.
        -- intros [= <-]. constructor; [assumption |]. apply IH. reflexivity.
        -- intros H. inversion H as [| ? b' ? bs'' Hb Hrest]; subst.
           apply IH in Hrest. congruence.
Qed.

Lemma Array_map_inl {A B} (f : A -> throws B) l e :
  Array_map f l = inl e <->
  exists before a after,
    l = (before ++ a :: after)%list /\ f a = inl e
    /\ Forall (fun c => exists b, f c = inr b) before.
Proof.
  induction l as [| a l IH]; cbn [Array_map].
  - unfold ok. split; [discriminate |].
    intros (before & a & after & H & _). destruct before; discriminate.
  - unfold bind, ok. destruct (f a) as [e' | b] eqn:Ha.
    + split.
      * intros [= ->]. exists [], a, l. repeat split; [assumption | constructor].
      * intros (before & a' & after & H & Hf & Hall).
        destruct before as [| c before]; cbn in H; injection H as -> ->.
        -- congruence.
        -- inversion Hall as [| ? ? [b Hb] _]; subst. congruence.
    + destruct (Array_map f l) as [e' | bs] eqn:Hl.
      * split.
        -- intros [= ->]. destruct (proj1 IH eq_refl) as (before & a' & after & -> & Hf & Hall).
           exists (a :: before), a', after. repeat split; [assumption |].
           constructor; eauto.
        -- intros (before & a' & after & H & Hf & Hall).
           destruct before as [| c before]; cbn in H; injection H as -> ->; [congruence |].
           inversion Hall; subst. f_equal.
           assert (Hx : inl e' = (inl e : throws (list B))); [| congruence].
           apply IH. eauto 6.
      * split; [discriminate |].
        intros (before & a' & after & H & Hf & Hall).
        destruct before as [| c before]; cbn in H; injection H as -> ->; [congruence |].
        inversion Hall; subst.
        assert (Hx : inr bs = (inl e : throws (list B))); [| discriminate].
        apply IH. eauto 6.
Qed.

Lemma Forall2_In_r {A B} (P : A -> B -> Prop) l l' b :
  Forall2 P l l' -> In b l' -> exists a, In a l /\ P a b.
Proof.
  induction 1 as [| a b' l l' Hab _ IH]; intros Hin; [destruct Hin |].
  destruct Hin as [<- | Hin].
  - exists a. split; [left; reflexivity | assumption].
  - destruct (IH Hin) as (a' & Ha' & HP). exists a'. split; [right; assumption | assumption].
Qed.

Lemma Forall2_In_l {A B} (P : A -> B -> Prop) l l' a :
  Forall2 P l l' -> In a l -> exists b, In b l' /\ P a b.
Proof.
  induction 1 as [| a' b l l' Hab _ IH]; intros Hin; [destruct Hin |].
  destruct Hin as [<- | Hin].
  - exists b. split; [left; reflexivity | assumption].
  - destruct (IH Hin) as (b' & Hb' & HP). exists b'. split; [right; assumption | assumption].
Qed.

(** One turn of [forEach] changes the entry of the model of the estimate,
    and no other. *)
Lemma add_to_model_lookup costByModel est m :
  add_to_model costByModel est !! m =
    if String.eqb (CostEstimate.model est) m
    then add_to_entry (costByModel !! m) (CostEstimate.totalCost est)
    else costByModel !! m.
Proof.
  unfold add_to_model, add_to_entry.
  destruct (String.eqb_spec (CostEstimate.model est) m) as [<- | Hne].
  - rewrite lookup_insert_eq. do 2 f_equal.
    destruct (truthy (costByModel !! CostEstimate.model est)) eqn:Ht; cbn [negb].
    + reflexivity.
    + rewrite lookup_insert_eq. reflexivity.
  - rewrite lookup_insert_ne by assumption.
    destruct (negb (truthy (costByModel !! CostEstimate.model est))); [| reflexivity].
    rewrite lookup_insert_ne by assumption. reflexivity.
Qed.

Lemma foldl_add_to_model_lookup estimates : forall costByModel m,
  foldl add_to_model costByModel estimates !! m
  = foldl add_to_entry (costByModel !! m) (costs_of m estimates).
Proof.
  induction estimates as [| est l IH]; intros costByModel m; [reflexivity |].
  cbn [foldl]. rewrite IH, add_to_model_lookup. unfold costs_of. cbn [List.filter].
  destruct (String.eqb (CostEstimate.model est) m); reflexivity.
Qed.

Lemma foldl_add_to_entry_Some costs : forall entry,
  is_Some (foldl add_to_entry entry costs) <-> is_Some entry \/ costs <> [].
Proof.
  induction costs as [| c l IH]; intros entry; cbn [foldl].
  - split; [auto | intros [H | H]; [assumption | congruence]].
  - rewrite IH. split; [intros _; right; discriminate | intros _; left; unfold add_to_entry; eauto].
Qed.

Lemma costs_of_nil m estimates :
  costs_of m estimates <> [] <-> exists est, In est estimates /\ CostEstimate.model est = m.
Proof.
  unfold costs_of. induction estimates as [| est l IH]; cbn [List.filter map].
  - split; [congruence | intros (est & [] & _)].
  - destruct (String.eqb_spec (CostEstimate.model est) m) as [Heq | Hne]; cbn [map].
    + split; [intros _; exists est; split; [left; reflexivity | assumption] | discriminate].
    + rewrite IH. split.
      * intros (e & Hin & He). exists e. split; [right; assumption | assumption].
      * intros (e & [<- | Hin] & He); [congruence | eauto].
Qed.

(** With costs that are at least 0, the test of the entry changes nothing:
    the entry is the sum of the costs. *)
Lemma model_total_sum costs :
  Forall (fun c => PrimFloat.leb 0 c = true) costs ->
  costs <> [] -> model_total costs = Some (sum_from_zero costs).
Proof.
  intros Hall Hne. unfold model_total, sum_from_zero.
  destruct costs as [| c0 l]; [congruence |]. clear Hne.
  inversion Hall as [| ? ? Hc0 Hl]; subst. cbn [foldl].
  unfold add_to_entry at 2. cbn [truthy].
  assert (Hinv : Binary64.plus_signed (Prim2SF (0 + c0)) /\ is_nan (0 + c0)%float = false)
    by (apply Binary64Facts.add_from_zero; [exact I | reflexivity | assumption]).
  revert Hinv. generalize (0 + c0)%float as s. clear Hc0 Hall c0.
  induction Hl as [| c l Hc Hl IH]; intros s [Hs Hn]; [reflexivity |].
  cbn [foldl].
  assert (Hstep : add_to_entry (Some s) c = Some (s + c)%float).
  { unfold add_to_entry. destruct (truthy (Some s)) eqn:Ht; [reflexivity |].
    rewrite (Binary64Facts.falsy_plus_zero s Hs Hn Ht). reflexivity. }
  rewrite Hstep. apply IH. apply Binary64Facts.add_from_zero; assumption.
Qed.

Section BatchFacts.

Variable tk : string -> option Tiktoken.
Variable rp : Catalog.

Lemma estimate_call_inr call est :
  estimate_call tk rp call = inr est ->
  CostEstimate.model est = BatchCall.model call
  /\ CostEstimate.outputTokens est = default 500%float (BatchCall.estimatedOutput call).
Proof.
  unfold estimate_call. rewrite calculateCost_eq.
  destruct (getModelPricing rp (BatchCall.model call)); [| discriminate].
  destruct (countTokens tk rp _ _); [discriminate |].
  intros [= <-]. split; reflexivity.
Qed.

Lemma calculateBatchCost_inr calls r :
  calculateBatchCost tk rp calls = inr r ->
  Forall2 (fun call est => estimate_call tk rp call = inr est) calls (BatchCost.calls r)
  /\ BatchCost.totalCost r = foldl add_total 0%float (BatchCost.calls r)
  /\ BatchCost.costByModel r = foldl add_to_model ∅ (BatchCost.calls r).
Proof.
  unfold calculateBatchCost, bind, ok.
  destruct (Array_map (estimate_call tk rp) calls) as [e | estimates] eqn:Hmap; [discriminate |].
  intros [= <-]. cbn. apply Array_map_inr in Hmap. auto.
Qed.

(** X5. [calculateBatchCost] estimates the calls in their order, a call
    without [estimatedOutput] at 500 output tokens, and returns one estimate
    per call, in that order, each under the model name of its call; it
    throws what the first call that cannot be estimated throws, and nothing
    of the calls before it is returned; when the catalog resolves the model
    of every call and tiktoken has its fallback encoding, it returns. *)
Theorem calculateBatchCost_calls calls :
  (forall r, calculateBatchCost tk rp calls = inr r ->
     Forall2 (fun call est =>
                calculateCost tk rp (BatchCall.inputText call) (BatchCall.model call)
                  (default 500%float (BatchCall.estimatedOutput call)) = inr est
                /\ CostEstimate.model est = BatchCall.model call
                /\ CostEstimate.outputTokens est
                   = default 500%float (BatchCall.estimatedOutput call))
       calls (BatchCost.calls r))
  /\ (forall e, calculateBatchCost tk rp calls = inl e <->
        exists before call after,
          calls = (before ++ call :: after)%list
          /\ calculateCost tk rp (BatchCall.inputText call) (BatchCall.model call)
               (default 500%float (BatchCall.estimatedOutput call)) = inl e
          /\ Forall (fun c => exists est,
                       calculateCost tk rp (BatchCall.inputText c) (BatchCall.model c)
                         (default 500%float (BatchCall.estimatedOutput c)) = inr est)
               before)
  /\ (Forall (fun call => is_Some (getModelPricing rp (BatchCall.model call))) calls ->
      tiktoken_ready tk -> encodings_known rp ->
      exists r, calculateBatchCost tk rp calls = inr r).
Proof.
  split; [| split].
  - intros r Hr. apply calculateBatchCost_inr in Hr as [Hmap _].
    eapply Forall2_impl; [exact Hmap |]. intros call est H. cbn beta in H.
    split; [exact H | apply estimate_call_inr, H].
  - intros e. rewrite <- (Array_map_inl (estimate_call tk rp)).
    unfold calculateBatchCost, bind, ok.
    destruct (Array_map (estimate_call tk rp) calls) as [e' | estimates];
      [split; intros [= ->]; reflexivity | split; discriminate].
  - intros Hall Htk Hrp. unfold calculateBatchCost, bind, ok.
    destruct (Array_map (estimate_call tk rp) calls) as [e | estimates] eqn:Hmap; [| eauto].
    apply Array_map_inl in Hmap as (before & call & after & -> & Hcall & _).
    apply Forall_app in Hall as [_ Hall]. inversion Hall as [| ? ? [pricing Hp] _]; subst.
    unfold estimate_call in Hcall. rewrite calculateCost_eq, Hp in Hcall.
    destruct (countTokens_ready tk rp (BatchCall.inputText call) (BatchCall.model call) Htk Hrp)
      as [tc Htc].
    rewrite Htc in Hcall. discriminate.
Qed.

(** X6. [costByModel] has an entry exactly for the model names of the
    calls, as they are written (two spellings of a key are two entries); the
    entry of a name depends on the estimates of that name alone, in their
    order: each cost is added to the entry, an entry that is 0 or NaN
    counting for 0; so when no estimate has a total cost that is negative or
    NaN, every entry is the sum, from the left, of the total costs of its
    model. *)
Theorem calculateBatchCost_costByModel calls r :
  calculateBatchCost tk rp calls = inr r ->
  (forall m, is_Some (BatchCost.costByModel r !! m)
             <-> exists call, In call calls /\ BatchCall.model call = m)
  /\ (forall m, BatchCost.costByModel r !! m = model_total (costs_of m (BatchCost.calls r)))
  /\ (Forall (fun est => PrimFloat.leb 0 (CostEstimate.totalCost est) = true)
             (BatchCost.calls r) ->
      forall m, is_Some (BatchCost.costByModel r !! m) ->
        BatchCost.costByModel r !! m = Some (sum_from_zero (costs_of m (BatchCost.calls r)))).
Proof.
  intros Hr. apply calculateBatchCost_inr in Hr as (Hmap & _ & Hcost).
  assert (Hgroup : forall m, BatchCost.costByModel r !! m
                             = model_total (costs_of m (BatchCost.calls r))).
  { intros m. rewrite Hcost, foldl_add_to_model_lookup, lookup_empty. reflexivity. }
  split; [| split].
  - intros m. rewrite Hgroup. unfold model_total. rewrite foldl_add_to_entry_Some, costs_of_nil.
    split.
    + intros [[x Hx] | (est & Hin & Hm)]; [discriminate |].
      destruct (Forall2_In_r _ _ _ _ Hmap Hin) as (call & Hcall & Hest).
      exists call. split; [assumption |]. apply estimate_call_inr in Hest as [<- _]. assumption.
    + intros (call & Hin & Hm). right.
      destruct (Forall2_In_l _ _ _ _ Hmap Hin) as (est & Hest & Hcall).
      exists est. split; [assumption |]. apply estimate_call_inr in Hcall as [-> _]. assumption.
  - exact Hgroup.
  - intros Hall m Hm. rewrite Hgroup in Hm |- *.
    apply model_total_sum.
    + unfold costs_of. apply List.Forall_forall. intros c Hc.
      apply in_map_iff in Hc as (est & <- & Hin). apply filter_In in Hin as [Hin _].
      rewrite List.Forall_forall in Hall. apply Hall, Hin.
    + unfold model_total in Hm. apply foldl_add_to_entry_Some in Hm as [[x Hx] | Hm];
        [discriminate | assumption].
Qed.

(** X7. The [totalCost] of a batch is the sum, from the left and from 0, of
    the total costs of its estimates; it is NaN as soon as one of them is;
    and it is not below zero when no price of the catalog and no expected
    output of a call is. *)
Theorem calculateBatchCost_totalCost calls r :
  calculateBatchCost tk rp calls = inr r ->
  BatchCost.totalCost r = sum_from_zero (map CostEstimate.totalCost (BatchCost.calls r))
  /\ (forall est, In est (BatchCost.calls r) ->
        is_nan (CostEstimate.totalCost est) = true ->
        is_nan (BatchCost.totalCost r) = true)
  /\ (prices_not_negative rp ->
      Forall (fun call => PrimFloat.ltb (default 500%float (BatchCall.estimatedOutput call)) 0
                          = false) calls ->
      PrimFloat.ltb (BatchCost.totalCost r) 0 = false).
Proof.
  intros Hr. apply calculateBatchCost_inr in Hr as (Hmap & Htotal & _). rewrite Htotal.
  generalize dependent (BatchCost.calls r). intros estimates Hmap _.
  assert (Hsum : forall l s, foldl add_total s l
                             = foldl (fun sum cost => (sum + cost)%float) s
                                 (map CostEstimate.totalCost l)).
  { induction l as [| est l IH]; intros s; [reflexivity |]. cbn [foldl map]. apply IH. }
  split; [apply Hsum | split].
  - intros est Hin Hnan.
    assert (Hkeep : forall l s, is_nan s = true -> is_nan (foldl add_total s l) = true).
    { induction l as [| x l IH]; intros s Hs; [assumption |].
      cbn [foldl]. apply IH. apply Binary64Facts.add_nan_l, Hs. }
    apply in_split in Hin as (l1 & l2 & ->).
    rewrite foldl_app. cbn [foldl]. apply Hkeep. apply Binary64Facts.add_nan_r, Hnan.
  - intros Hrp Hout.
    assert (Hest : Forall (fun est => PrimFloat.ltb (CostEstimate.totalCost est) 0 = false)
                     estimates).
    { apply List.Forall_forall. intros est Hin.
      destruct (Forall2_In_r _ _ _ _ Hmap Hin) as (call & Hcall & Hc).
      rewrite List.Forall_forall in Hout.
      destruct (costs_not_negative tk rp _ _ _ _ Hrp (Hout call Hcall) Hc) as (_ & _ & Ht).
      exact Ht. }
    assert (Hkeep : forall l s, PrimFloat.ltb s 0 = false ->
                      Forall (fun est => PrimFloat.ltb (CostEstimate.totalCost est) 0 = false) l ->
                      PrimFloat.ltb (foldl add_total s l) 0 = false).
    { induction l as [| x l IH]; intros s Hs Hl; [assumption |].
      inversion Hl; subst. cbn [foldl]. apply IH; [| assumption].
      apply Binary64Facts.add_not_negative; assumption. }
    apply Hkeep; [reflexivity | assumption].
Qed.

End BatchFacts.

(** A batch whose first call has an expected output that is not a number:
    the total of the batch is NaN, while the entry of the model, which the
    second call sets back to 0, is the cost of the second call. *)
Lemma calculateBatchCost_costByModel_witness :
  exists r c,
    calculateBatchCost no_encoder MODEL_PRICING sample_batch = inr r
    /\ BatchCost.costByModel r !! "claude-sonnet-4" = Some c
    /\ is_nan c = false
    /\ is_Some (BatchCost.costByModel r !! "Claude-Sonnet-4")
    /\ BatchCost.costByModel r !! "claude-3-opus" = None.
Proof.
  assert (H : exists r, calculateBatchCost no_encoder MODEL_PRICING sample_batch = inr r)
    by (eexists; vm_compute; reflexivity).
  destruct H as [r Hr].
  destruct (calculateBatchCost_costByModel no_encoder MODEL_PRICING sample_batch r Hr)
    as (Hdom & Hgroup & _).
  exists r. eexists. split; [exact Hr |]. split; [| split; [| split]].
  - rewrite Hgroup. vm_compute in Hr. injection Hr as <-. vm_compute. reflexivity.
  - reflexivity.
  - apply Hdom. eexists. split; [right; right; left; reflexivity | reflexivity].
  - rewrite Hgroup. vm_compute in Hr. injection Hr as <-. reflexivity.
Defined.

Lemma calculateBatchCost_totalCost_witness :
  exists r,
    calculateBatchCost no_encoder MODEL_PRICING sample_batch = inr r
    /\ is_nan (BatchCost.totalCost r) = true.
Proof.
  assert (H : exists r, calculateBatchCost no_encoder MODEL_PRICING sample_batch = inr r)
    by (eexists; vm_compute; reflexivity).
  destruct H as [r Hr]. exists r. split; [exact Hr |].
  destruct (calculateBatchCost_totalCost no_encoder MODEL_PRICING sample_batch r Hr)
    as (_ & Hnan & _).
  vm_compute in Hr. injection Hr as <-.
  eapply Hnan; [left; reflexivity | reflexivity].
Defined.

(* ===================================================================== *)
(** ** More of the suggestions                                           *)
(* ===================================================================== *)

Section SuggestionFacts.

Variable tk : string -> option Tiktoken.
Variable digits_general : float -> string.
Variable rp : Catalog.

Lemma getCostOptimizations_inr estimate opts :
  getCostOptimizations tk digits_general rp estimate = inr opts ->
  opts = suggestions digits_general estimate.
Proof.
  rewrite getCostOptimizations_blocks. cbv zeta.
  fold (suggestions digits_general estimate).
  destruct (premium estimate); [destruct (calculateCost _ _ _ _ _); [discriminate |] |];
    intros [= <-]; reflexivity.
Qed.

Lemma block_lengths estimate :
  (List.length (suggest_mini digits_general estimate) <= 1
   /\ List.length (suggest_sonnet estimate) <= 1
   /\ List.length (suggest_gpt4o estimate) <= 1
   /\ List.length (suggest_context digits_general estimate) <= 1
   /\ List.length (suggest_output digits_general estimate) <= 1)%nat.
Proof.
  unfold suggest_mini, suggest_sonnet, suggest_gpt4o, suggest_context, suggest_output.
  repeat match goal with |- context [if ?b then _ else _] => destruct b end; cbn; lia.
Qed.

(** Without its test, a block adds no suggestion of its wording. *)
Lemma suggestion_texts estimate o :
  In o (suggestions digits_general estimate) ->
  (PrimFloat.ltb 1000 (CostEstimate.inputTokens estimate) = false ->
   String.prefix "Reduce context" (Optimization.suggestion o) = false)
  /\ (PrimFloat.ltb 1000 (CostEstimate.outputTokens estimate) = false ->
      String.prefix "Request shorter responses" (Optimization.suggestion o) = false).
Proof.
  unfold suggestions, suggest_mini, suggest_sonnet, suggest_gpt4o, suggest_context,
    suggest_output.
  intros Hin. split; intros Hno; rewrite Hno in Hin;
    repeat match type of Hin with
           | context [if ?b then _ else _] => destruct b
           end;
    cbn [app In] in Hin;
    repeat match type of Hin with
           | _ \/ _ => destruct Hin as [<- | Hin]; [reflexivity |]
           | False => destruct Hin
           end.
Qed.

Lemma last_suggestion estimate :
  PrimFloat.ltb 1000 (CostEstimate.outputTokens estimate) = true ->
  last (suggestions digits_general estimate)
  = Some (trim_output digits_general estimate
            (Math_min 500 (CostEstimate.outputTokens estimate * 0.2)%float)).
Proof.
  intros H. unfold suggestions, suggest_output. rewrite H.
  rewrite !app_assoc. apply last_snoc.
Qed.

(** X8. The list [getCostOptimizations] returns is a function of the
    estimate alone: the estimate it makes of the mini sibling decides only
    whether it returns, and neither the catalog nor tiktoken changes a
    suggestion (the savings of the first one are computed at 0.15 and 0.60
    per million).  The list has at most five suggestions, in the order of
    the five tests, and is empty exactly when all five fail. *)
Theorem getCostOptimizations_of_estimate tk' rp' estimate opts :
  getCostOptimizations tk digits_general rp estimate = inr opts ->
  (forall opts', getCostOptimizations tk' digits_general rp' estimate = inr opts' ->
                 opts' = opts)
  /\ (premium estimate = false ->
      getCostOptimizations tk' digits_general rp' estimate = inr opts)
  /\ opts = (suggest_mini digits_general estimate ++ suggest_sonnet estimate
             ++ suggest_gpt4o estimate ++ suggest_context digits_general estimate
             ++ suggest_output digits_general estimate)%list
  /\ (List.length opts <= 5)%nat
  /\ (opts = [] <->
      premium estimate = false
      /\ includes (CostEstimate.model estimate) "claude-opus" = false
      /\ includes (CostEstimate.model estimate) "gpt-4-turbo" = false
      /\ CostEstimate.model estimate <> "gpt-4"
      /\ PrimFloat.ltb 1000 (CostEstimate.inputTokens estimate) = false
      /\ PrimFloat.ltb 1000 (CostEstimate.outputTokens estimate) = false).
Proof.
  intros H. apply getCostOptimizations_inr in H. subst opts.
  split; [| split; [| split; [| split]]].
  - intros opts'. rewrite getCostOptimizations_blocks. cbv zeta.
    fold (suggestions digits_general estimate).
    destruct (premium estimate); [destruct (calculateCost _ _ _ _ _); [discriminate |] |];
      intros [= <-]; reflexivity.
  - intros Hp. rewrite getCostOptimizations_blocks. cbv zeta.
    fold (suggestions digits_general estimate). rewrite Hp. reflexivity.
  - reflexivity.
  - unfold suggestions. rewrite !length_app.
    pose proof (block_lengths estimate). lia.
  - unfold suggestions, suggest_mini, suggest_sonnet, suggest_gpt4o,
      suggest_context, suggest_output.
    destruct (premium estimate); [split; [discriminate | intros [? _]; discriminate] |].
    destruct (includes (CostEstimate.model estimate) "claude-opus");
      [split; [discriminate | intros (_ & ? & _); discriminate] |].
    destruct (includes (CostEstimate.model estimate) "gpt-4-turbo");
      [split; [discriminate | intros (_ & _ & ? & _); discriminate] |].
    destruct (String.eqb_spec (CostEstimate.model estimate) "gpt-4") as [Heq | Hne];
      [split; [discriminate | intros (_ & _ & _ & ? & _); contradiction] |].
    destruct (PrimFloat.ltb 1000 (CostEstimate.inputTokens estimate));
      [split; [discriminate | intros (_ & _ & _ & _ & ? & _); discriminate] |].
    destruct (PrimFloat.ltb 1000 (CostEstimate.outputTokens estimate));
      [split; [discriminate | intros (_ & _ & _ & _ & _ & ?); discriminate] |].
    cbn. tauto.
Qed.

(** X9. With more than 1000 expected output tokens the last suggestion of
    the list asks for shorter responses, by [min(500, outputTokens * 0.2)]
    tokens, a number that is at most 500, with the savings of that many
    tokens at the output rate of the model; with at most 1000 output tokens
    (or NaN) no suggestion of the list has that wording, and with at most
    1000 input tokens none asks to reduce the context. *)
Theorem trim_output_suggested estimate opts :
  getCostOptimizations tk digits_general rp estimate = inr opts ->
  (PrimFloat.ltb 1000 (CostEstimate.outputTokens estimate) = true ->
   let reduction := Math_min 500 (CostEstimate.outputTokens estimate * 0.2)%float in
   last opts
   = Some (optimization
             ("Request shorter responses (reduce by "
              ++ Js.Number_toString digits_general (Math_round reduction) ++ " tokens)")
             ("Save $"
              ++ Js.toFixed digits_general 4
                   (reduction / 1000000
                    * ModelPricing.outputPricePerMillion
                        (CostEstimate.pricing estimate))%float))
   /\ is_nan reduction = false
   /\ PrimFloat.leb reduction 500 = true)
  /\ (PrimFloat.ltb 1000 (CostEstimate.outputTokens estimate) = false ->
      forall o, In o opts ->
        String.prefix "Request shorter responses" (Optimization.suggestion o) = false)
  /\ (PrimFloat.ltb 1000 (CostEstimate.inputTokens estimate) = false ->
      forall o, In o opts ->
        String.prefix "Reduce context" (Optimization.suggestion o) = false).
Proof.
  intros H. apply getCostOptimizations_inr in H. subst opts. split; [| split].
  - intros Hout. cbv zeta. split; [apply last_suggestion, Hout |].
    apply Binary64Facts.Math_min_le; [reflexivity |].
    apply Binary64Facts.mul_fifth_number.
    destruct (is_nan (CostEstimate.outputTokens estimate)) eqn:Hn; [| reflexivity].
    rewrite Binary64Facts.ltb_rank in Hout. rewrite Binary64Facts.is_nan_number in Hn.
    apply negb_true_iff in Hn. rewrite Hn, andb_false_r in Hout. discriminate.
  - intros Hno o Ho. apply (suggestion_texts estimate o Ho), Hno.
  - intros Hno o Ho. apply (suggestion_texts estimate o Ho), Hno.
Qed.

End SuggestionFacts.

Lemma getCostOptimizations_of_estimate_witness :
  exists opts,
    getCostOptimizations unit_encoder no_general_digits MODEL_PRICING gpt4o_estimate = inr opts
    /\ (List.length opts <= 5)%nat
    /\ forall opts',
         getCostOptimizations unit_encoder no_general_digits
           (mergePricing (convertLiteLLMPricing sample_document) MODEL_PRICING) gpt4o_estimate
         = inr opts' -> opts' = opts.
Proof.
  eexists. split; [vm_compute; reflexivity |].
  edestruct (getCostOptimizations_of_estimate unit_encoder no_general_digits MODEL_PRICING
               unit_encoder
               (mergePricing (convertLiteLLMPricing sample_document) MODEL_PRICING)
               gpt4o_estimate)
    as (Hsame & _ & _ & Hlen & _); [vm_compute; reflexivity |].
  split; [exact Hlen | exact Hsame].
Defined.

Lemma trim_output_suggested_witness :
  exists opts,
    getCostOptimizations no_encoder no_general_digits MODEL_PRICING long_answer_estimate
    = inr opts
    /\ option_map Optimization.suggestion (last opts)
       = Some "Request shorter responses (reduce by 500 tokens)".
Proof.
  eexists. split; [vm_compute; reflexivity |].
  edestruct (trim_output_suggested no_encoder no_general_digits MODEL_PRICING
               long_answer_estimate)
    as ([Hlast _] & _ & _); [vm_compute; reflexivity | reflexivity |].
  cbv zeta in Hlast. rewrite Hlast. reflexivity.
Defined.

(* ===================================================================== *)
(** ** More of the catalog: cache, conversion, names, providers          *)
(* ===================================================================== *)

(** X11. [getCachedPricing] never throws and leaves in the cache what it
    returns, the other module variables untouched.  While less than 24
    hours of the clock separate a call from the time the cache was filled,
    the call returns the cached catalog and reads neither its argument nor
    the network; from 24 hours on it returns the merge of what it fetches
    with its argument, and stamps the cache anew.  A first call fills the
    cache even when the request fails: it then caches its argument. *)
Theorem getCachedPricing_cache fallbackPricing now outcome st :
  exists catalog st',
    getCachedPricing fallbackPricing now outcome st = inr (catalog, st')
    /\ Store.cachedPricing st' = Some catalog
    /\ Store.runtimePricing st' = Store.runtimePricing st
    /\ Store.pricingInitialized st' = Store.pricingInitialized st
    /\ (forall fallbackPricing' now' outcome',
          (now' - Store.cacheTimestamp st' < CACHE_DURATION)%Z ->
          getCachedPricing fallbackPricing' now' outcome' st' = inr (catalog, st'))
    /\ (forall fallbackPricing' now' outcome',
          (CACHE_DURATION <= now' - Store.cacheTimestamp st')%Z ->
          exists st'',
            getCachedPricing fallbackPricing' now' outcome' st'
            = inr (mergePricing (fetched outcome') fallbackPricing', st'')
            /\ Store.cacheTimestamp st'' = now')
    /\ (Store.cachedPricing st = None ->
        catalog = mergePricing (fetched outcome) fallbackPricing
        /\ Store.cacheTimestamp st' = now
        /\ match outcome with
           | Document _ => True
           | _ => catalog = fallbackPricing
           end).
Proof.
  rewrite getCachedPricing_eq. cbv zeta.
  assert (Hhit : forall catalog st',
            Store.cachedPricing st' = Some catalog ->
            (forall fallbackPricing' now' outcome',
               (now' - Store.cacheTimestamp st' < CACHE_DURATION)%Z ->
               getCachedPricing fallbackPricing' now' outcome' st' = inr (catalog, st'))
            /\ (forall fallbackPricing' now' outcome',
                  (CACHE_DURATION <= now' - Store.cacheTimestamp st')%Z ->
                  exists st'',
                    getCachedPricing fallbackPricing' now' outcome' st'
                    = inr (mergePricing (fetched outcome') fallbackPricing', st'')
                    /\ Store.cacheTimestamp st'' = now')).
  { intros catalog st' Hc. split; intros fb' now' outcome' Ht;
      rewrite getCachedPricing_eq; cbv zeta; rewrite Hc.
    - apply Z.ltb_lt in Ht. rewrite Ht. reflexivity.
    - apply Z.ltb_ge in Ht. rewrite Ht. eexists. split; reflexivity. }
  assert (Hfail : match outcome with
                  | Document _ => True
                  | _ => mergePricing (fetched outcome) fallbackPricing = fallbackPricing
                  end).
  { destruct outcome; cbn [fetched]; try exact I; apply (left_id_L ∅ (∪)). }
  destruct (Store.cachedPricing st) as [cached |] eqn:Hc.
  - destruct (now - Store.cacheTimestamp st <? CACHE_DURATION)%Z.
    + exists cached, st. split; [reflexivity |]. split; [assumption |].
      do 2 (split; [reflexivity |]).
      destruct (Hhit cached st Hc) as [H1 H2]. split; [exact H1 |]. split; [exact H2 |].
      discriminate.
    + eexists. eexists. split; [reflexivity |]. split; [reflexivity |].
      do 2 (split; [reflexivity |]).
      match goal with
      | |- (forall _ _ _, _ -> getCachedPricing _ _ _ ?s = inr (?cat, _)) /\ _ =>
          destruct (Hhit cat s eq_refl) as [H1 H2]
      end.
      split; [exact H1 |]. split; [exact H2 |]. discriminate.
  - eexists. eexists. split; [reflexivity |]. split; [reflexivity |].
    do 2 (split; [reflexivity |]).
    match goal with
    | |- (forall _ _ _, _ -> getCachedPricing _ _ _ ?s = inr (?cat, _)) /\ _ =>
        destruct (Hhit cat s eq_refl) as [H1 H2]
    end.
    split; [exact H1 |]. split; [exact H2 |].
    intros _. split; [reflexivity |]. split; [reflexivity |].
    destruct outcome; try exact I; exact Hfail.
Qed.

Lemma foldl_convert_keep after : forall pricing key,
  Forall (fun entry => overwrites key entry = false) after ->
  foldl convert_step pricing after !! key = pricing !! key.
Proof.
  induction after as [| [k model] after IH]; intros pricing key Hall; [reflexivity |].
  inversion Hall as [| ? ? Hno Hrest]; subst. cbn [foldl].
  rewrite IH by assumption. rewrite convert_step_kept.
  unfold overwrites in Hno. cbn [fst] in Hno.
  destruct (kept (k, model)); [| reflexivity].
  destruct (modelMappings !! k) as [m |]; [| reflexivity].
  cbn [andb] in Hno. apply String.eqb_neq in Hno.
  rewrite lookup_insert_ne by assumption. reflexivity.
Qed.

Lemma lower_code_unit_idem c : lower_code_unit (lower_code_unit c) = lower_code_unit c.
Proof. destruct c as [[] [] [] [] [] [] [] []]; reflexivity. Qed.

Lemma toLowerCase_idem s : toLowerCase (toLowerCase s) = toLowerCase s.
Proof.
  induction s as [| c s IH]; [reflexivity |].
  cbn [toLowerCase]. rewrite lower_code_unit_idem, IH. reflexivity.
Qed.

(** The keys and the providers of [modelMappings], of the default table and
    of what a request brings; the aliases are keys of neither table. *)
Lemma mapping_cases litellmKey m :
  modelMappings !! litellmKey = Some m ->
  In (Mapping.key m) mapped_keys
  /\ toLowerCase (Mapping.key m) = Mapping.key m
  /\ In (toLowerCase (Mapping.provider m)) providers.
Proof.
  intros H. unfold modelMappings in H. apply elem_of_list_to_map_2 in H.
  repeat (apply elem_of_cons in H as [[= -> ->] | H];
          [split; [| split; [reflexivity |]]; cbn; repeat first [left; reflexivity | right] |]).
  inversion H.
Qed.


Lemma fetched_cases outcome k r :
  fetched outcome !! k = Some r ->
  In k mapped_keys /\ In (toLowerCase (ModelPricing.provider r)) providers.
Proof.
  destruct outcome; cbn [fetched]; try (rewrite lookup_empty; discriminate).
  intros H. apply convertLiteLLMPricing_origin in H as (lk & model & m & _ & Hm & <- & _ & ->).
  destruct (mapping_cases lk m Hm) as (H1 & _ & H2). split; assumption.
Qed.

Lemma alias_cases a target :
  MODEL_ALIASES !! a = Some target ->
  toLowerCase a = a /\ MODEL_PRICING !! a = None /\ ~ In a mapped_keys
  /\ is_Some (MODEL_PRICING !! target).
Proof.
  intros H. unfold MODEL_ALIASES in H. apply elem_of_list_to_map_2 in H.
  repeat (apply elem_of_cons in H as [[= -> ->] | H];
          [split; [reflexivity |]; split; [vm_compute; reflexivity |];
           split; [intros Hin; cbn in Hin; intuition discriminate
                  | eexists; vm_compute; reflexivity] |]).
  inversion H.
Qed.

Lemma catalog_after_alias outcome a target :
  MODEL_ALIASES !! a = Some target ->
  getModelPricing (catalog_after outcome) a = catalog_after outcome !! target
  /\ is_Some (catalog_after outcome !! target).
Proof.
  intros Ha. destruct (alias_cases a target Ha) as (Hlow & Hnone & Hnot & [r Hr]).
  assert (Hmiss : catalog_after outcome !! a = None).
  { unfold catalog_after. rewrite mergePricing_lookup, Hnone.
    destruct (fetched outcome !! a) as [r' |] eqn:Hf; [| reflexivity].
    apply fetched_cases in Hf as [Hin _]. contradiction. }
  unfold getModelPricing. rewrite Hlow, Hmiss, Ha. split; [reflexivity |].
  unfold catalog_after. rewrite mergePricing_lookup, Hr.
  destruct (fetched outcome !! target); eauto.
Qed.






(** X12. Of the entries of the document that are stored under one catalog
    key, the last one in the order of the document is the one the converted
    catalog holds: its record has the name and the provider of the mapping,
    the two costs times 1,000,000, the [max_input_tokens] of the entry as
    context window (128000 when that is missing, 0 or NaN) and the encoding
    [cl100k_base] for the provider OpenAI only; and after the merge with
    the default table that record is the one [getModelPricing] returns for
    the key. *)
Theorem convertLiteLLMPricing_last before litellmKey model after m :
  modelMappings !! litellmKey = Some m ->
  kept (litellmKey, model) = true ->
  Forall (fun entry => overwrites (Mapping.key m) entry = false) after ->
  exists r,
    convertLiteLLMPricing (before ++ (litellmKey, model) :: after) !! Mapping.key m = Some r
    /\ getModelPricing
         (mergePricing (convertLiteLLMPricing (before ++ (litellmKey, model) :: after))
            MODEL_PRICING)
         (Mapping.key m) = Some r
    /\ ModelPricing.name r = Mapping.name m
    /\ ModelPricing.provider r = Mapping.provider m
    /\ ModelPricing.inputPricePerMillion r
       = (default nan (LiteLLMModel.input_cost_per_token model) * 1000000)%float
    /\ ModelPricing.outputPricePerMillion r
       = (default nan (LiteLLMModel.output_cost_per_token model) * 1000000)%float
    /\ ModelPricing.contextWindow r
       = (if truthy (LiteLLMModel.max_input_tokens model)
          then default nan (LiteLLMModel.max_input_tokens model)
          else 128000%float)
    /\ ModelPricing.encoding r
       = (if String.eqb (Mapping.provider m) "OpenAI" then Some "cl100k_base" else None).
Proof.
  intros Hm Hk Hafter. exists (converted m model).
  assert (Hlast : convertLiteLLMPricing (before ++ (litellmKey, model) :: after)
                    !! Mapping.key m = Some (converted m model)).
  { unfold convertLiteLLMPricing. rewrite foldl_app. cbn [foldl].
    rewrite foldl_convert_keep by assumption.
    rewrite convert_step_kept, Hk, Hm. apply lookup_insert_eq. }
  split; [exact Hlast |].
  split; [| split; [| split; [| split; [| split; [| split]]]]]; try reflexivity.
  - destruct (mapping_cases litellmKey m Hm) as (_ & Hlow & _).
    unfold getModelPricing. rewrite Hlow, mergePricing_lookup, Hlast. reflexivity.
  - cbn. unfold or_else. destruct (LiteLLMModel.max_input_tokens model) as [x |]; reflexivity.
Qed.

Lemma convertLiteLLMPricing_last_witness :
  exists r,
    getModelPricing (mergePricing (convertLiteLLMPricing sonnet_document) MODEL_PRICING)
      "claude-sonnet-4-5" = Some r
    /\ ModelPricing.inputPricePerMillion r = (0.000004 * 1000000)%float
    /\ ModelPricing.contextWindow r = 128000%float.
Proof.
  destruct (convertLiteLLMPricing_last
              [("claude-sonnet-4-5", litellm_entry (Some 0.000003%float) (Some 0.000015%float))]
              "claude-sonnet-4-5-20250929"
              (litellm_entry (Some 0.000004%float) (Some 0.00002%float))
              [("gpt-4o", litellm_entry (Some 0.0000025%float) (Some 0.00001%float))]
              (mapping "claude-sonnet-4-5" "Claude Sonnet 4.5" "Anthropic"))
    as (r & _ & Hr & _ & _ & Hin & _ & Hctx & _);
    [vm_compute; reflexivity | vm_compute; reflexivity
    | repeat constructor; vm_compute; reflexivity |].
  exists r. split; [exact Hr |]. split; [exact Hin | exact Hctx].
Defined.


(** X14. Once [initializePricing] has run on the loaded modules, whatever
    the request came to, [getModelPricing] resolves every name that is, in
    lower case, a key of the default table or an alias: a key to the record
    the catalog holds under it, an alias to the record the catalog holds
    under the key the alias stands for (no alias is itself a key of the
    catalog). *)
Theorem known_names_resolve now outcome model :
  is_Some (MODEL_PRICING !! toLowerCase model)
  \/ is_Some (MODEL_ALIASES !! toLowerCase model) ->
  exists st',
    initializePricing now outcome initial_store = inr st'
    /\ is_Some (getModelPricing (Store.runtimePricing st') model)
    /\ (is_Some (MODEL_PRICING !! toLowerCase model) ->
        getModelPricing (Store.runtimePricing st') model
        = Store.runtimePricing st' !! toLowerCase model)
    /\ (forall target, MODEL_ALIASES !! toLowerCase model = Some target ->
          Store.runtimePricing st' !! toLowerCase model = None
          /\ getModelPricing (Store.runtimePricing st') model
             = Store.runtimePricing st' !! target
          /\ is_Some (MODEL_PRICING !! target)).
Proof.
  intros Hknown.
  destruct (initializePricing_catalog now outcome) as (st' & Hinit & Hrp).
  exists st'. split; [exact Hinit |]. rewrite Hrp.
  assert (Hkey : is_Some (MODEL_PRICING !! toLowerCase model) ->
                 getModelPricing (catalog_after outcome) model
                 = catalog_after outcome !! toLowerCase model
                 /\ is_Some (catalog_after outcome !! toLowerCase model)).
  { intros [r Hr].
    assert (Hs : is_Some (catalog_after outcome !! toLowerCase model)).
    { unfold catalog_after. rewrite mergePricing_lookup, Hr.
      destruct (fetched outcome !! toLowerCase model); eauto. }
    split; [| exact Hs]. unfold getModelPricing. destruct Hs as [r' ->]. reflexivity. }
  assert (Halias : forall target, MODEL_ALIASES !! toLowerCase model = Some target ->
                     catalog_after outcome !! toLowerCase model = None
                     /\ getModelPricing (catalog_after outcome) model
                        = catalog_after outcome !! target
                     /\ is_Some (catalog_after outcome !! target)
                     /\ is_Some (MODEL_PRICING !! target)).
  { intros target Ha.
    destruct (catalog_after_alias outcome _ _ Ha) as [Heq Hs].
    destruct (alias_cases _ _ Ha) as (_ & Hnone & Hnot & Ht).
    split.
    - unfold catalog_after. rewrite mergePricing_lookup, Hnone.
      destruct (fetched outcome !! toLowerCase model) as [r' |] eqn:Hf; [| reflexivity].
      apply fetched_cases in Hf as [Hin _]. contradiction.
    - rewrite (getModelPricing_lower _ model (toLowerCase model))
        by (symmetry; apply toLowerCase_idem).
      split; [exact Heq |]. split; [exact Hs | exact Ht]. }
  split; [| split].
  - destruct Hknown as [Hk | [target Ha]].
    + destruct (Hkey Hk) as [-> Hs]. exact Hs.
    + destruct (Halias target Ha) as (_ & -> & Hs & _). exact Hs.
  - intros Hk. apply Hkey, Hk.
  - intros target Ha. destruct (Halias target Ha) as (Hnone & Heq & _ & Ht). auto.
Qed.

Lemma known_names_resolve_witness :
  exists st',
    initializePricing 0 (FetchRejected "offline") initial_store = inr st'
    /\ is_Some (getModelPricing (Store.runtimePricing st') "GPT4o")
    /\ getModelPricing (Store.runtimePricing st') "GPT4o"
       = Store.runtimePricing st' !! "gpt-4o".
Proof.
  destruct (known_names_resolve 0 (FetchRejected "offline") "GPT4o")
    as (st' & Hinit & Hs & _ & Halias);
    [right; eexists; vm_compute; reflexivity |].
  exists st'. split; [exact Hinit |]. split; [exact Hs |].
  apply (Halias "gpt-4o"). vm_compute. reflexivity.
Defined.


(* ===================================================================== *)
(** ** The actions of [count] and [compare], and what they print         *)
(* ===================================================================== *)

Example parseInt_known :
  map parseInt ["500"; " 12px"; "0x1f"; "1e3"; "-7"; "+42"; "007"; "12.9"]
  = [500; 12; 31; 1; -7; 42; 7; 12]%float
  /\ map (fun s => is_nan (parseInt s)) ["abc"; ""; "-"; "0x"; ".5"; "500"]
     = [true; true; true; true; true; false]
  /\ Prim2SF (parseInt "-0") = S754_zero true
  /\ parseInt "9007199254740993" = 9007199254740992%float.
Proof. repeat split; vm_compute; reflexivity. Qed.

Section WarningFacts.

Variable digits_general : float -> string.
Variable chalk : list string -> string -> string.

(** [formatWarning] is the empty text exactly below the threshold. *)
Lemma formatWarning_empty cost threshold :
  formatWarning digits_general chalk cost threshold = ""
  <-> PrimFloat.ltb cost threshold = true.
Proof.
  unfold formatWarning. destruct (PrimFloat.ltb cost threshold); [split; reflexivity |].
  split; [| discriminate]. unfold push, Array_join. cbn. discriminate.
Qed.

End WarningFacts.

Section AnalysisFacts.

Variable tk : string -> option Tiktoken.
Variable digits_general : float -> string.
Variable rp : Catalog.
Variable chalk : list string -> string -> string.
Variable toLocaleString : float -> string.


End AnalysisFacts.

Section ComparisonFacts.

Variable digits_general : float -> string.
Variable chalk : list string -> string -> string.
Variable Table_toString : list string -> list (list string) -> string.

(** The text of [formatComparison], by its three parts. *)
Lemma formatComparison_lines comparison :
  formatComparison digits_general chalk Table_toString comparison
  = Array_join
      (comparison_head digits_general chalk Table_toString comparison
       ++ match CostComparison.alternatives comparison with
          | best :: _ =>
              if PrimFloat.ltb 0 (Alternative.savings best)
              then best_lines digits_general chalk best
              else []
          | [] => []
          end
       ++ comparison_foot chalk)%list
      LF.
Proof.
  unfold formatComparison, comparison_head, best_lines, comparison_foot, push, toFixed.
  destruct (CostComparison.alternatives comparison) as [| best rest]; [reflexivity |].
  destruct (PrimFloat.ltb 0 (Alternative.savings best)); reflexivity.
Qed.

End ComparisonFacts.

Lemma head_savings (best : Alternative.t) rest :
  StronglySorted at_least (best :: rest) ->
  Forall (fun a => PrimFloat.leb (Alternative.savings a) (Alternative.savings best) = true)
    rest.
Proof. intros H. inversion H; subst. assumption. Qed.

Section ActionFacts.

Variable tk : string -> option Tiktoken.
Variable digits_general : float -> string.
Variable chalk : list string -> string -> string.
Variable Table_toString : list string -> list (list string) -> string.
Variable toLocaleString : float -> string.
Variable readFileSync : string -> option string.


End ActionFacts.

Section CountFacts.

Variable tk : string -> option Tiktoken.
Variable digits_general : float -> string.
Variable rp : Catalog.
Variable chalk : list string -> string -> string.
Variable toLocaleString : float -> string.
Variable readFileSync : string -> option string.

(** X17. Without [--simple], the first text [count] prints is the warning
    of [formatWarning] at the threshold 1, which is empty exactly when the
    total cost is below 1.  When [--output] does not start with a number,
    [parseInt] makes NaN of it: the output cost and the total cost of the
    estimate are NaN, the total is not below 1, so the warning is printed,
    and with [--simple] the line shows the amount as [$NaN]. *)
Theorem count_action_warning input options estimate :
  calculateCost tk rp (input_text readFileSync input) (Options.model options)
    (parseInt (Options.output options)) = inr estimate ->
  let run :=
    count_action tk digits_general rp chalk toLocaleString readFileSync input options in
  (Options.simple options = false ->
   exists warning rest,
     Run.stdout run = warning :: rest
     /\ warning = formatWarning digits_general chalk (CostEstimate.totalCost estimate) 1
     /\ (warning = "" <-> PrimFloat.ltb (CostEstimate.totalCost estimate) 1 = true))
  /\ (is_nan (parseInt (Options.output options)) = true ->
      is_nan (CostEstimate.outputCost estimate) = true
      /\ is_nan (CostEstimate.totalCost estimate) = true
      /\ PrimFloat.ltb (CostEstimate.totalCost estimate) 1 = false
      /\ (Options.simple options = true ->
          run = completed
                  [Js.Number_toString digits_general (CostEstimate.inputTokens estimate)
                   ++ " tokens | $NaN | " ++ Options.model options])).
Proof.
  intros Hest. cbv zeta. split.
  - intros Hsimple. unfold count_action. rewrite Hest, Hsimple.
    destruct (formatAnalysis tk digits_general rp chalk toLocaleString estimate).
    all: eexists; eexists; split; [reflexivity |]; split; [reflexivity |];
      apply formatWarning_empty.
  - intros Hnan.
    assert (Hout : CostEstimate.outputTokens estimate = parseInt (Options.output options)
                   /\ CostEstimate.outputCost estimate
                      = (CostEstimate.outputTokens estimate / 1000000
                         * ModelPricing.outputPricePerMillion (CostEstimate.pricing estimate))%float
                   /\ CostEstimate.totalCost estimate
                      = (CostEstimate.inputCost estimate
                         + CostEstimate.outputCost estimate)%float).
    { rewrite calculateCost_eq in Hest.
      destruct (getModelPricing rp (Options.model options)); [| discriminate].
      destruct (countTokens tk rp _ _); [discriminate |].
      injection Hest as <-. repeat split; reflexivity. }
    destruct Hout as (Hout & Hoc & Htot).
    assert (Hocn : is_nan (CostEstimate.outputCost estimate) = true).
    { rewrite Hoc, Hout. apply Binary64Facts.mul_nan_l, Binary64Facts.div_nan_l, Hnan. }
    assert (Htn : is_nan (CostEstimate.totalCost estimate) = true).
    { rewrite Htot. apply Binary64Facts.add_nan_r, Hocn. }
    split; [exact Hocn |]. split; [exact Htn |].
    split; [apply Binary64Facts.ltb_nan_l, Htn |].
    intros Hsimple. unfold count_action. rewrite Hest, Hsimple.
    rewrite (Binary64Facts.is_nan_eq _ Htn). reflexivity.
Qed.

End CountFacts.

Section CompareFacts.

Variable tk : string -> option Tiktoken.
Variable digits_general : float -> string.
Variable rp : Catalog.
Variable chalk : list string -> string -> string.
Variable Table_toString : list string -> list (list string) -> string.
Variable readFileSync : string -> option string.

(** X18. When no savings of the comparison are NaN, the text [compare]
    prints names a best alternative exactly when some alternative has
    savings above zero; the one it names is then the first of the list, and
    no alternative saves more.  Otherwise the text goes from the table
    straight to the closing rule. *)
Theorem compare_action_best input options comparison :
  compare_command tk rp (input_text readFileSync input) (Options.model options)
    (parseInt (Options.output options)) = inr comparison ->
  Forall (fun a => is_nan (Alternative.savings a) = false)
    (CostComparison.alternatives comparison) ->
  let run :=
    compare_action tk digits_general rp chalk Table_toString readFileSync input options in
  ((exists a, In a (CostComparison.alternatives comparison)
              /\ PrimFloat.ltb 0 (Alternative.savings a) = true) ->
   exists best rest,
     CostComparison.alternatives comparison = best :: rest
     /\ PrimFloat.ltb 0 (Alternative.savings best) = true
     /\ Forall (fun a => PrimFloat.leb (Alternative.savings a) (Alternative.savings best)
                         = true) rest
     /\ run = completed
                [Array_join
                   (comparison_head digits_general chalk Table_toString comparison
                    ++ best_lines digits_general chalk best
                    ++ comparison_foot chalk)%list
                   LF])
  /\ ((forall a, In a (CostComparison.alternatives comparison) ->
                 PrimFloat.ltb 0 (Alternative.savings a) = false) ->
      run = completed
              [Array_join
                 (comparison_head digits_general chalk Table_toString comparison
                  ++ comparison_foot chalk)%list
                 LF]).
Proof.
  intros Hcmp Hnan. cbv zeta.
  assert (Hsorted : StronglySorted at_least (CostComparison.alternatives comparison)).
  { apply descending_at_least; [| exact Hnan].
    unfold compare_command, compareCosts, bind in Hcmp.
    destruct (calculateCost tk rp _ _ _); [discriminate |].
    injection Hcmp as <-. apply sort_by_savings_descending. }
  unfold compare_action. rewrite Hcmp, formatComparison_lines.
  destruct (CostComparison.alternatives comparison) as [| best rest] eqn:Halts.
  - split; [intros (a & [] & _) | reflexivity].
  - pose proof (head_savings best rest Hsorted) as Hbest.
    split.
    + intros (a & Hin & Ha).
      assert (Hpos : PrimFloat.ltb 0 (Alternative.savings best) = true).
      { destruct Hin as [<- | Hin]; [exact Ha |].
        rewrite List.Forall_forall in Hbest.
        eapply Binary64Facts.ltb_leb_trans; [exact Ha | apply Hbest, Hin]. }
      exists best, rest. rewrite Hpos. auto.
    + intros Hnone. rewrite (Hnone best (or_introl eq_refl)). reflexivity.
Qed.

End CompareFacts.


Lemma count_action_warning_witness :
  count_action no_encoder no_general_digits MODEL_PRICING no_chalk no_general_digits no_file
    "hello" (command_options "claude-sonnet-4" "many" true)
  = completed ["2 tokens | $NaN | claude-sonnet-4"].
Proof.
  edestruct (count_action_warning no_encoder no_general_digits MODEL_PRICING no_chalk
               no_general_digits no_file "hello"
               (command_options "claude-sonnet-4" "many" true))
    as [_ Hnan]; [vm_compute; reflexivity |].
  destruct (Hnan eq_refl) as (_ & _ & _ & Hline).
  rewrite (Hline eq_refl). reflexivity.
Defined.

Lemma compare_action_best_witness :
  exists text,
    Run.stdout
      (compare_action unit_encoder no_general_digits MODEL_PRICING no_chalk no_table no_file
         "hello" (command_options "gpt-4o" "500" false))
    = [text]
    /\ includes text "Best Alternative: gemini-1.5-flash" = true.
Proof.
  edestruct (compare_action_best unit_encoder no_general_digits MODEL_PRICING no_chalk
               no_table no_file "hello" (command_options "gpt-4o" "500" false))
    as [Hbest _]; [vm_compute; reflexivity | repeat constructor |].
  destruct Hbest as (best & rest & Halts & _ & _ & Hrun).
  - eexists. split; [left; reflexivity | reflexivity].
  - injection Halts as <- <-. rewrite Hrun. eexists. split; [reflexivity |].
    vm_compute. reflexivity.
Defined.

(* ===================================================================== *)
(** * Costs are numbers                                                  *)
(* ===================================================================== *)

(** The catalog of the source has only finite prices that are not below
    zero. *)
Lemma prices_are_amounts_default : prices_are_amounts MODEL_PRICING.
Proof.
  intros k r H. unfold MODEL_PRICING in H. apply elem_of_list_to_map_2 in H.
  repeat (apply elem_of_cons in H as [[= -> ->] | H]; [repeat split; reflexivity |]).
  inversion H.
Qed.

Section NumberFacts.
Variable tk : string -> option Tiktoken.
Variable rp : Catalog.

(** The three costs of an estimate are at least zero when the prices and
    the expected output are amounts. *)
Lemma costs_at_least_zero text model out est :
  prices_are_amounts rp -> amount out ->
  calculateCost tk rp text model out = inr est ->
  PrimFloat.leb 0 (CostEstimate.inputCost est) = true
  /\ PrimFloat.leb 0 (CostEstimate.outputCost est) = true
  /\ PrimFloat.leb 0 (CostEstimate.totalCost est) = true.
Proof.
  intros Hrp Hout. rewrite calculateCost_eq.
  destruct (getModelPricing rp model) as [pricing |] eqn:Hp; [| discriminate].
  destruct (countTokens tk rp text model) as [e | tc] eqn:Htc; [discriminate |].
  intros [= <-]. cbn.
  apply getModelPricing_lookup in Hp as [k Hk]. destruct (Hrp k pricing Hk) as [Hi Ho].
  apply countTokens_inr in Htc as [Ht _].
  assert (Hic : PrimFloat.leb 0 (Number_of_Z (TokenCount.tokens tc) / 1000000
                                 * ModelPricing.inputPricePerMillion pricing) = true).
  { apply Binary64Facts.cost_at_least_zero; [| | exact Hi];
      unfold Number_of_Z; destruct (Z.ltb_spec (TokenCount.tokens tc) 0); try lia.
    - apply Binary64Facts.of_uint63_bounded.
    - apply Binary64Facts.ltb_zero_not_negative, Binary64Facts.leb_zero_not_negative,
        Binary64Facts.of_uint63_nonneg. }
  assert (Hoc : PrimFloat.leb 0 (out / 1000000 * ModelPricing.outputPricePerMillion pricing)
                = true).
  { destruct (Binary64Facts.amount_spec out Hout) as [Hb Hn].
    apply Binary64Facts.cost_at_least_zero; assumption. }
  repeat split; try assumption. apply Binary64Facts.add_at_least_zero; assumption.
Qed.

(** X19. With a catalog whose prices are finite and not below zero, and
    an expected output that is finite and not below zero, the estimate
    that [calculateCost] returns has a finite input token count that is
    not below zero, and its input cost, output cost and total cost are
    numbers not below zero: none of them is NaN. *)
Theorem calculateCost_numbers text model out est :
  prices_are_amounts rp -> amount out ->
  calculateCost tk rp text model out = inr est ->
  amount (CostEstimate.inputTokens est)
  /\ PrimFloat.leb 0 (CostEstimate.inputCost est) = true
  /\ PrimFloat.leb 0 (CostEstimate.outputCost est) = true
  /\ PrimFloat.leb 0 (CostEstimate.totalCost est) = true
  /\ is_nan (CostEstimate.inputCost est) = false
  /\ is_nan (CostEstimate.outputCost est) = false
  /\ is_nan (CostEstimate.totalCost est) = false.
Proof.
  intros Hrp Hout Hest.
  destruct (costs_at_least_zero text model out est Hrp Hout Hest) as (Hic & Hoc & Htot).
  split; [| auto 10 using Binary64Facts.leb_number].
  rewrite calculateCost_eq in Hest.
  destruct (getModelPricing rp model) as [pricing |]; [| discriminate].
  destruct (countTokens tk rp text model) as [e | tc] eqn:Htc; [discriminate |].
  injection Hest as <-. cbn [CostEstimate.inputTokens estimate_of].
  apply countTokens_inr in Htc as [Ht _].
  split; [apply Number_of_Z_nonneg, Ht |].
  unfold Number_of_Z. destruct (Z.ltb_spec (TokenCount.tokens tc) 0); [lia |].
  apply Binary64Facts.bounded_is_finite, Binary64Facts.of_uint63_bounded.
Qed.

Lemma estimates_at_least_zero calls r :
  prices_are_amounts rp ->
  Forall (fun call => amount (default 500%float (BatchCall.estimatedOutput call))) calls ->
  calculateBatchCost tk rp calls = inr r ->
  Forall (fun est => PrimFloat.leb 0 (CostEstimate.totalCost est) = true) (BatchCost.calls r).
Proof.
  intros Hrp Hout Hr. apply calculateBatchCost_inr in Hr as (Hmap & _).
  apply List.Forall_forall. intros est Hin.
  destruct (Forall2_In_r _ _ _ _ Hmap Hin) as (call & Hcall & Hc).
  rewrite List.Forall_forall in Hout.
  destruct (costs_at_least_zero _ _ _ _ Hrp (Hout call Hcall) Hc) as (_ & _ & Ht).
  exact Ht.
Qed.

(** X20. With a catalog whose prices are finite and not below zero, and
    calls whose expected output (500 when left out) is finite and not
    below zero, a batch that [calculateBatchCost] prices has, for every
    model name, an entry of [costByModel] exactly when an estimate of the
    batch carries that name; the entry is the sum, from 0 and in the order
    of the calls, of the total costs of the estimates of that name and is
    not below zero; and the total cost of the batch is a number not below
    zero, so not NaN. *)
Theorem calculateBatchCost_sums calls r :
  prices_are_amounts rp ->
  Forall (fun call => amount (default 500%float (BatchCall.estimatedOutput call))) calls ->
  calculateBatchCost tk rp calls = inr r ->
  (forall m,
     BatchCost.costByModel r !! m
     = match costs_of m (BatchCost.calls r) with
       | [] => None
       | costs => Some (sum_from_zero costs)
       end)
  /\ (forall m c, BatchCost.costByModel r !! m = Some c -> PrimFloat.leb 0 c = true)
  /\ PrimFloat.leb 0 (BatchCost.totalCost r) = true
  /\ is_nan (BatchCost.totalCost r) = false.
Proof.
  intros Hrp Hout Hr.
  pose proof (estimates_at_least_zero calls r Hrp Hout Hr) as Hest.
  apply calculateBatchCost_inr in Hr as (_ & Htotal & Hcost).
  assert (Hcosts : forall m, Forall (fun c => PrimFloat.leb 0 c = true)
                               (costs_of m (BatchCost.calls r))).
  { intros m. unfold costs_of. apply List.Forall_forall. intros c Hc.
    apply in_map_iff in Hc as (est & <- & Hin). apply filter_In in Hin as [Hin _].
    rewrite List.Forall_forall in Hest. apply Hest, Hin. }
  assert (Hentry : forall m,
            BatchCost.costByModel r !! m
            = match costs_of m (BatchCost.calls r) with
              | [] => None
              | costs => Some (sum_from_zero costs)
              end).
  { intros m. rewrite Hcost, foldl_add_to_model_lookup, lookup_empty.
    fold (model_total (costs_of m (BatchCost.calls r))).
    destruct (costs_of m (BatchCost.calls r)) as [| c l] eqn:E; [reflexivity |].
    rewrite <- E. apply model_total_sum; [apply Hcosts | rewrite E; discriminate]. }
  assert (Htot : PrimFloat.leb 0 (BatchCost.totalCost r) = true).
  { rewrite Htotal.
    assert (Hfold : forall l s, PrimFloat.leb 0 s = true ->
              Forall (fun est => PrimFloat.leb 0 (CostEstimate.totalCost est) = true) l ->
              PrimFloat.leb 0 (foldl add_total s l) = true).
    { induction l as [| x l IH]; intros s Hs Hl; [assumption |].
      inversion Hl; subst. cbn [foldl]. apply IH; [| assumption].
      apply Binary64Facts.add_at_least_zero; assumption. }
    apply Hfold; [reflexivity | exact Hest]. }
  split; [exact Hentry |]. split; [| split; [exact Htot | apply Binary64Facts.leb_number, Htot]].
  intros m c. rewrite Hentry.
  destruct (costs_of m (BatchCost.calls r)) as [| c0 l] eqn:E; [discriminate |].
  intros [= <-]. rewrite <- E. unfold sum_from_zero.
  apply Binary64Facts.foldl_at_least_zero; [reflexivity | apply Hcosts].
Qed.

End NumberFacts.

Lemma calculateCost_numbers_witness :
  exists est,
    calculateCost no_encoder MODEL_PRICING "hello" "claude-sonnet-4" 500 = inr est
    /\ is_nan (CostEstimate.totalCost est) = false.
Proof.
  eexists. split; [vm_compute; reflexivity |].
  edestruct (calculateCost_numbers no_encoder MODEL_PRICING "hello" "claude-sonnet-4" 500)
    as (_ & _ & _ & _ & _ & _ & H);
    [apply prices_are_amounts_default | split; reflexivity | vm_compute; reflexivity
    | exact H].
Defined.

Lemma calculateBatchCost_sums_witness :
  exists r c,
    calculateBatchCost no_encoder MODEL_PRICING proper_batch = inr r
    /\ BatchCost.costByModel r !! "claude-sonnet-4" = Some c
    /\ PrimFloat.leb 0 c = true
    /\ BatchCost.costByModel r !! "gpt-4o" = None.
Proof.
  assert (H : exists r, calculateBatchCost no_encoder MODEL_PRICING proper_batch = inr r)
    by (eexists; vm_compute; reflexivity).
  destruct H as [r Hr].
  destruct (calculateBatchCost_sums no_encoder MODEL_PRICING proper_batch r)
    as (Hentry & Hpos & _);
    [apply prices_are_amounts_default | repeat constructor | exact Hr |].
  exists r. eexists. split; [exact Hr |].
  assert (Hc : BatchCost.costByModel r !! "claude-sonnet-4"
               = Some (sum_from_zero (costs_of "claude-sonnet-4" (BatchCost.calls r)))).
  { rewrite Hentry. vm_compute in Hr. injection Hr as <-. reflexivity. }
  split; [exact Hc |]. split; [apply (Hpos _ _ Hc) |].
  rewrite Hentry. vm_compute in Hr. injection Hr as <-. reflexivity.
Defined.
